(** * Order lifecycle of the multi-restaurant server

    A shallow embedding of the order routes ([routes/orders]), the
    authentication middleware ([middleware/auth]), the register route
    ([routes/auth]) and the socket handlers ([socket/socketHandlers]) of the
    server, over an explicit model of the Prisma store declared in
    [prisma/schema.prisma]; then of the other account routes, the catalogue
    routes ([routes/locations], [routes/menu]) and the analytics query.

    Conventions of the model.
    - A JavaScript number is an exact integer ([Z]); a price is an amount in
      the smallest currency unit.  The rounding of IEEE doubles is not
      represented.
    - A request handler is a function from the store before the request to
      the response, the store after it and the socket pushes it emitted.
      Requests are handled one at a time.
    - [Promise.all] over concurrently started callbacks is given an explicit
      schedule: the order in which the callbacks settle.
    - Columns that no handler below reads (descriptions, image urls,
      addresses, names shown by [include]/[select]) are left out of the
      records. *)

From Stdlib Require Import ZArith List String Ascii Bool Lia Arith Permutation.
From Stdlib Require Import Sorted.
Import ListNotations.
Open Scope Z_scope.

(** ** Errors raised by the handlers

    One constructor per [createError(message, statusCode)] site and per
    middleware rejection; the comment gives the message of the source. *)
Inductive HttpError : Type :=
| ValidationFailed                    (* 'Validation failed', 400 *)
| LocationNotFound                    (* 'Location not found', 404 *)
| ItemNotFound (menuId : Z)           (* `Menu item with ID ${menuId} not found`, 404 *)
| LocationMismatch (title : string)   (* `Menu item ${title} not available at this location`, 400 *)
| CustomizationNotFound (id : Z)      (* `Customization with ID ${id} not found`, 404 *)
| OrderNotFound                       (* 'Order not found', 404 *)
| NotAuthorizedToCancel               (* 'Not authorized to cancel this order', 403 *)
| InvalidTransition                   (* 'Can only cancel pending orders', 400 *)
| AccessTokenRequired                 (* 'Access token required', 401 *)
| InvalidToken                        (* 'Invalid token', 403 *)
| AuthenticationRequired              (* 'Authentication required', 401 *)
| InsufficientPermissions             (* 'Insufficient permissions', 403 *)
| UserAlreadyExists                   (* 'User already exists with this email', 409 *)
| JwtSecretNotConfigured              (* 'JWT_SECRET is not configured', 500 *)
| PrismaRecordNotFound                (* thrown by prisma update: no record to update (P2025) *)
| PrismaForeignKeyViolation           (* thrown by prisma create: foreign key constraint (P2003) *)
| PrismaValidationError               (* thrown by prisma on an argument it refuses *)
| NullDereference.                    (* TypeError: property read through a null `!` assertion *)

(** The status code given to [createError], or sent by the middleware.
    Errors thrown by Prisma or the runtime carry none. *)
Definition statusCode (e : HttpError) : option Z :=
  match e with
  | ValidationFailed => Some 400
  | LocationNotFound => Some 404
  | ItemNotFound _ => Some 404
  | LocationMismatch _ => Some 400
  | CustomizationNotFound _ => Some 404
  | OrderNotFound => Some 404
  | NotAuthorizedToCancel => Some 403
  | InvalidTransition => Some 400
  | AccessTokenRequired => Some 401
  | InvalidToken => Some 403
  | AuthenticationRequired => Some 401
  | InsufficientPermissions => Some 403
  | UserAlreadyExists => Some 409
  | JwtSecretNotConfigured => Some 500
  | PrismaRecordNotFound => None
  | PrismaForeignKeyViolation => None
  | PrismaValidationError => None
  | NullDereference => None
  end.

(** The spec's [Forbidden]: a rejection with status 403. *)
Definition Forbidden (e : HttpError) : Prop := statusCode e = Some 403.

(** A promise that settled: fulfilled with a value or rejected with an error. *)
Inductive Result (A : Type) : Type :=
| Ok (value : A)
| Err (error : HttpError).
Arguments Ok {A} value.
Arguments Err {A} error.

Definition bind {A B : Type} (r : Result A) (k : A -> Result B) : Result B :=
  match r with
  | Ok a => k a
  | Err e => Err e
  end.

Notation "'await' x <- r ; k" := (bind r (fun x => k))
  (at level 10, x name, r at level 100, k at level 200).

Definition isOk {A : Type} (r : Result A) : bool :=
  match r with Ok _ => true | Err _ => false end.

(** ** JavaScript helpers *)

(** [q || d] on an optional number: [undefined] and [0] are falsy. *)
Definition js_or (q : option Z) (d : Z) : Z :=
  match q with
  | None => d
  | Some z => if z =? 0 then d else z
  end.

(** [array.map((x, i) => f(i, x))]. *)
Fixpoint mapi_from {A B : Type} (i : nat) (f : nat -> A -> B) (l : list A) : list B :=
  match l with
  | [] => []
  | x :: rest => f i x :: mapi_from (S i) f rest
  end.

Definition mapi {A B : Type} (f : nat -> A -> B) (l : list A) : list B :=
  mapi_from 0 f l.

(** [costs.reduce((sum, cost) => sum + cost, 0)]. *)
Definition reduce_sum (costs : list Z) : Z :=
  fold_left (fun sum cost => sum + cost) costs 0.

(** [s.split(sep)] for a one-character separator. *)
Fixpoint split (sep : ascii) (s : string) : list string :=
  match s with
  | EmptyString => [EmptyString]
  | String c rest =>
      if Ascii.eqb c sep then EmptyString :: split sep rest
      else match split sep rest with
           | h :: t => String c h :: t
           | [] => [String c EmptyString]
           end
  end.

(** *** Promise.all under a schedule

    The callbacks of [Promise.all(xs.map(async ...))] are all started, then
    settle in an order the code does not control.  A schedule lists callback
    indices in settling order; indices it repeats or that are out of range
    are dropped and the callbacks it does not mention settle last, in list
    order, so every schedule denotes a settling order of all callbacks. *)
Definition settle_order (sched : list nat) (n : nat) : list nat :=
  let named := nodup Nat.eq_dec (filter (fun i => (i <? n)%nat) sched) in
  named ++ filter (fun i => negb (existsb (Nat.eqb i) named)) (seq 0 n).

(** The rejections among [rs], in settling order. *)
Definition rejections {A : Type} (order : list nat) (rs : list (Result A)) : list HttpError :=
  flat_map (fun i => match nth_error rs i with
                     | Some (Err e) => [e]
                     | _ => []
                     end) order.

(** The values of the fulfilled promises among [rs], in list order. *)
Definition fulfilled {A : Type} (rs : list (Result A)) : list A :=
  flat_map (fun r => match r with Ok v => [v] | Err _ => [] end) rs.

(** [Promise.all(rs)]: rejected with the first rejection to settle, else
    fulfilled with all values in list order. *)
Definition Promise_all {A : Type} (sched : list nat) (rs : list (Result A)) : Result (list A) :=
  match rejections (settle_order sched (List.length rs)) rs with
  | e :: _ => Err e
  | [] => Ok (fulfilled rs)
  end.

(** ** The store (prisma/schema.prisma) *)

Module User.
Record t : Type := mk {
  id : Z;
  email : string;
  password : string;
  firstName : option string;
  lastName : option string;
  phone : option string;
  role : string;
  loyaltyPoints : Z;
  createdAt : Z;
  updatedAt : Z }.
End User.

Module Location.
Record t : Type := mk {
  id : Z;
  name : string;
  isActive : bool }.
End Location.

Module Menu.
Record t : Type := mk {
  id : Z;
  title : string;
  price : Z;
  isAvailable : bool;
  locationId : Z }.
End Menu.

Module Customization.
Record t : Type := mk {
  id : Z;
  name : string;
  price : Z;
  menuId : Z }.
End Customization.

Module Order.
Record t : Type := mk {
  id : Z;
  status : string;
  total : Z;
  locationId : Z;
  userId : Z;
  createdAt : Z;
  updatedAt : Z }.
End Order.

Module OrderItem.
Record t : Type := mk {
  id : Z;
  quantity : Z;
  priceAtTime : Z;
  menuId : Z;
  orderId : Z;
  createdAt : Z }.
End OrderItem.

Module OrderItemCustomization.
Record t : Type := mk {
  id : Z;
  orderItemId : Z;
  customizationId : Z;
  quantity : Z;
  priceAtTime : Z }.
End OrderItemCustomization.

(** The tables, each in insertion order. *)
Record DB : Type := mkDB {
  users : list User.t;
  locations : list Location.t;
  menus : list Menu.t;
  customizations : list Customization.t;
  orders : list Order.t;
  orderItems : list OrderItem.t;
  orderItemCustomizations : list OrderItemCustomization.t }.

(** [@id @default(autoincrement())]: one more than the largest id in the
    table.  No handler deletes a row of a table that is inserted into here,
    so this is the id SQLite's AUTOINCREMENT hands out. *)
Definition autoincrement (ids : list Z) : Z :=
  1 + fold_right Z.max 0 ids.

(** *** Queries *)

(** [prisma.location.findUnique({ where: { id, isActive: true } })]. *)
Definition findActiveLocation (db : DB) (id : Z) : option Location.t :=
  find (fun l => (Location.id l =? id) && Location.isActive l) (locations db).

(** [prisma.menu.findUnique({ where: { id, isAvailable: true } })]. *)
Definition findAvailableMenu (db : DB) (id : Z) : option Menu.t :=
  find (fun m => (Menu.id m =? id) && Menu.isAvailable m) (menus db).

(** [prisma.menu.findUnique({ where: { id } })]. *)
Definition findMenu (db : DB) (id : Z) : option Menu.t :=
  find (fun m => Menu.id m =? id) (menus db).

(** [prisma.customization.findUnique({ where: { id } })]. *)
Definition findCustomization (db : DB) (id : Z) : option Customization.t :=
  find (fun c => Customization.id c =? id) (customizations db).

(** [prisma.user.findUnique({ where: { email } })]. *)
Definition findUserByEmail (db : DB) (email : string) : option User.t :=
  find (fun u => String.eqb (User.email u) email) (users db).

(** A [where] clause over orders; an absent key constrains nothing. *)
Record OrderWhere : Type := mkWhere {
  where_id : option Z;
  where_userId : option Z;
  where_status : option string;
  where_locationId : option Z }.

Definition matches_opt {A : Type} (eqb : A -> A -> bool) (w : option A) (x : A) : bool :=
  match w with
  | None => true
  | Some v => eqb x v
  end.

Definition matches (w : OrderWhere) (o : Order.t) : bool :=
  matches_opt Z.eqb (where_id w) (Order.id o)
  && matches_opt Z.eqb (where_userId w) (Order.userId o)
  && matches_opt String.eqb (where_status w) (Order.status o)
  && matches_opt Z.eqb (where_locationId w) (Order.locationId o).

(** [prisma.order.findUnique({ where })]. *)
Definition findOrder (db : DB) (w : OrderWhere) : option Order.t :=
  find (matches w) (orders db).

Definition byId (id : Z) : OrderWhere :=
  mkWhere (Some id) None None None.

(** *** Writes *)

Definition set_orders (db : DB) (os : list Order.t) : DB :=
  mkDB (users db) (locations db) (menus db) (customizations db)
       os (orderItems db) (orderItemCustomizations db).

Definition set_orderItems (db : DB) (its : list OrderItem.t) : DB :=
  mkDB (users db) (locations db) (menus db) (customizations db)
       (orders db) its (orderItemCustomizations db).

Definition set_orderItemCustomizations (db : DB) (cs : list OrderItemCustomization.t) : DB :=
  mkDB (users db) (locations db) (menus db) (customizations db)
       (orders db) (orderItems db) cs.

Definition set_users (db : DB) (us : list User.t) : DB :=
  mkDB us (locations db) (menus db) (customizations db)
       (orders db) (orderItems db) (orderItemCustomizations db).

(** [tx.order.create({ data: { locationId, userId, status, total } })].
    The row references its user and its location (ON DELETE RESTRICT). *)
Definition order_create (now : Z) (locationId userId : Z) (status : string) (total : Z)
    (db : DB) : Result (Order.t * DB) :=
  if existsb (fun u => User.id u =? userId) (users db)
     && existsb (fun l => Location.id l =? locationId) (locations db)
  then
    let newOrder := Order.mk (autoincrement (map Order.id (orders db)))
                             status total locationId userId now now in
    Ok (newOrder, set_orders db (orders db ++ [newOrder]))
  else Err PrismaForeignKeyViolation.

(** [tx.orderItem.create({ data: { orderId, menuId, quantity, priceAtTime } })]. *)
Definition orderItem_create (now : Z) (orderId menuId quantity priceAtTime : Z)
    (db : DB) : Result (OrderItem.t * DB) :=
  if existsb (fun m => Menu.id m =? menuId) (menus db)
     && existsb (fun o => Order.id o =? orderId) (orders db)
  then
    let orderItem := OrderItem.mk (autoincrement (map OrderItem.id (orderItems db)))
                                  quantity priceAtTime menuId orderId now in
    Ok (orderItem, set_orderItems db (orderItems db ++ [orderItem]))
  else Err PrismaForeignKeyViolation.

(** [tx.orderItemCustomization.create({ data: { orderItemId, customizationId,
    quantity, priceAtTime } })]. *)
Definition orderItemCustomization_create (orderItemId customizationId quantity priceAtTime : Z)
    (db : DB) : Result (OrderItemCustomization.t * DB) :=
  if existsb (fun c => Customization.id c =? customizationId) (customizations db)
     && existsb (fun i => OrderItem.id i =? orderItemId) (orderItems db)
  then
    let row := OrderItemCustomization.mk
                 (autoincrement (map OrderItemCustomization.id (orderItemCustomizations db)))
                 orderItemId customizationId quantity priceAtTime in
    Ok (row, set_orderItemCustomizations db (orderItemCustomizations db ++ [row]))
  else Err PrismaForeignKeyViolation.

(** The row [o] after [data: { status }] was written to it at time [now]
    ([updatedAt] is [@updatedAt]). *)
Definition withStatus (o : Order.t) (status : string) (now : Z) : Order.t :=
  Order.mk (Order.id o) status (Order.total o) (Order.locationId o)
           (Order.userId o) (Order.createdAt o) now.

Fixpoint update_status (now : Z) (id : Z) (status : string) (os : list Order.t)
    : option (Order.t * list Order.t) :=
  match os with
  | [] => None
  | o :: rest =>
      if Order.id o =? id then
        let o' := withStatus o status now in
        Some (o', o' :: rest)
      else
        match update_status now id status rest with
        | Some (o', rest') => Some (o', o :: rest')
        | None => None
        end
  end.

(** [prisma.order.update({ where: { id }, data: { status } })]: rewrites the
    status of the row with that id and stamps [updatedAt]; rejects when there
    is no such row. *)
Definition order_update (now : Z) (id : Z) (status : string) (db : DB) : Result (Order.t * DB) :=
  match update_status now id status (orders db) with
  | Some (o', os') => Ok (o', set_orders db os')
  | None => Err PrismaRecordNotFound
  end.

(** [prisma.$transaction(fn)]: the writes of [fn] are kept when it returns
    and discarded when it throws. *)
Definition transaction {A : Type} (fn : DB -> Result (A * DB)) (db : DB) : Result (A * DB) :=
  fn db.

(** *** Orders read back with their relations *)

(** An order line with the rows its [include] asks for: [customizations] is
    absent when the query does not include them. *)
Record HydratedItem : Type := mkHydratedItem {
  line : OrderItem.t;
  lineCustomizations : option (list OrderItemCustomization.t) }.

Record HydratedOrder : Type := mkHydratedOrder {
  order : Order.t;
  items : list HydratedItem }.

Definition customizationsOf (db : DB) (orderItemId : Z) : list OrderItemCustomization.t :=
  filter (fun c => OrderItemCustomization.orderItemId c =? orderItemId)
         (orderItemCustomizations db).

Definition itemsOf (db : DB) (orderId : Z) : list OrderItem.t :=
  filter (fun i => OrderItem.orderId i =? orderId) (orderItems db).

(** [include: { items: { include: { customizations } } }] when
    [withCustomizations], [include: { items }] otherwise. *)
Definition hydrateItem (withCustomizations : bool) (db : DB) (i : OrderItem.t) : HydratedItem :=
  mkHydratedItem i
    (if withCustomizations then Some (customizationsOf db (OrderItem.id i)) else None).

Definition hydrate (withCustomizations : bool) (db : DB) (o : Order.t) : HydratedOrder :=
  mkHydratedOrder o (map (hydrateItem withCustomizations db) (itemsOf db (Order.id o))).

(** ** Roles, statuses and request bodies *)

Module UserRole.
Definition ADMIN : string := "ADMIN".
Definition KITCHEN : string := "KITCHEN".
Definition WAITER : string := "WAITER".
Definition CUSTOMER : string := "CUSTOMER".
End UserRole.

Module OrderStatus.
Definition PENDING : string := "PENDING".
Definition IN_PROGRESS : string := "IN_PROGRESS".
Definition COMPLETED : string := "COMPLETED".
Definition CANCELLED : string := "CANCELLED".
End OrderStatus.

(** [req.user]: the decoded token payload. *)
Record AuthUser : Type := mkAuthUser {
  auth_id : Z;
  auth_email : string;
  auth_role : string }.

(** [list.includes(x)] and express-validator's [isIn(list)] on strings. *)
Definition includes (l : list string) (x : string) : bool :=
  existsb (String.eqb x) l.

Module CartCustomization.
Record t : Type := mk {
  customizationId : Z;
  quantity : option Z }.
End CartCustomization.

Module CartItem.
Record t : Type := mk {
  menuId : Z;
  quantity : Z;
  customizations : option (list CartCustomization.t) }.
End CartItem.

Module CreateOrderBody.
Record t : Type := mk {
  locationId : Z;
  items : list CartItem.t }.
End CreateOrderBody.

(** The query of [GET /]. *)
Module OrdersQuery.
Record t : Type := mk {
  status : option string;
  locationId : option Z;
  page : option Z;
  limit : option Z }.
End OrdersQuery.

Module RegisterBody.
Record t : Type := mk {
  email : string;
  password : string;
  firstName : option string;
  lastName : option string;
  phone : option string;
  role : option string }.
End RegisterBody.

(** ** Socket pushes *)

(** The rooms [`location_${id}`] and [`user_${id}`]. *)
Inductive Room : Type :=
| location_room (locationId : Z)
| user_room (userId : Z).

(** Whom a push goes to: [io.to(room)] is every socket in the room,
    [socket.to(room)] every socket in the room but the sending one. *)
Inductive Audience : Type :=
| io_to (room : Room)
| socket_to (room : Room).

(** What a push carries: an order read back with its relations ([null]
    when the read found none), or one of the two objects the socket handlers
    build. *)
Inductive Payload : Type :=
| OrderPayload (o : option HydratedOrder)
| StatusRelay (orderId : Z) (status : string) (updatedBy : string)
| TypingRelay (userId : Z) (email : string) (isTyping : bool).

(** [audience.emit(event, payload)]. *)
Record Emit : Type := mkEmit {
  audience : Audience;
  event : string;
  payload : Payload }.

(** A connected socket: the user its handshake token decoded to, and the
    rooms it is in. *)
Record Socket : Type := mkSocket {
  socket_user : AuthUser;
  rooms : list Room }.

Definition room_eqb (a b : Room) : bool :=
  match a, b with
  | location_room x, location_room y => x =? y
  | user_room x, user_room y => x =? y
  | _, _ => false
  end.

(** [socket.join(room)] and [socket.leave(room)]: the rooms of a socket are
    a set. *)
Definition join (r : Room) (rs : list Room) : list Room :=
  if existsb (room_eqb r) rs then rs else r :: rs.

Definition leave (r : Room) (rs : list Room) : list Room :=
  filter (fun x => negb (room_eqb r x)) rs.

(** What a client sends over its socket. *)
Inductive ClientEvent : Type :=
| on_joinLocation (locationId : Z)
| on_leaveLocation (locationId : Z)
| on_updateOrderStatus (orderId : Z) (status : string) (locationId : Z)
| on_typing (locationId : Z) (isTyping : bool)
| on_notificationRead (notificationId : string)
| on_disconnect.

(** What a handler leaves behind: its response (or the error it threw), the
    store, and the pushes it emitted. *)
Definition Outcome (A : Type) : Type := (Result A * DB * list Emit)%type.

Definition reject {A : Type} (e : HttpError) (db : DB) : Outcome A := (Err e, db, []).

Definition response {A : Type} (o : Outcome A) : Result A := fst (fst o).
Definition store {A : Type} (o : Outcome A) : DB := snd (fst o).
Definition pushes {A : Type} (o : Outcome A) : list Emit := snd o.

(** ** Order creation: pricing *)

(** The settling orders of one creation request: of the per-entry callbacks,
    and of the per-customization callbacks of each entry. *)
Record Schedule : Type := mkSchedule {
  outer : list nat;
  inner : nat -> list nat }.

(** What the per-entry callback returns: [{ ...item, menuItem, itemTotal }]. *)
Record PricedItem : Type := mkPricedItem {
  item : CartItem.t;
  menuItem : Menu.t;
  itemTotal : Z }.

(** [item.customizations && item.customizations.length > 0]. *)
Definition hasCustomizations (it : CartItem.t) : bool :=
  match CartItem.customizations it with
  | Some (_ :: _) => true
  | _ => false
  end.

Definition customizationList (it : CartItem.t) : list CartCustomization.t :=
  match CartItem.customizations it with
  | Some cs => cs
  | None => []
  end.

(** The callback of [item.customizations.map]. *)
Definition priceCustomization (db : DB) (customization : CartCustomization.t) : Result Z :=
  match findCustomization db (CartCustomization.customizationId customization) with
  | None => Err (CustomizationNotFound (CartCustomization.customizationId customization))
  | Some customizationItem =>
      Ok (Customization.price customizationItem
          * js_or (CartCustomization.quantity customization) 1)
  end.

(** The callback of [items.map], without its [total += itemTotal]. *)
Definition priceItem (sched : list nat) (db : DB) (locationId : Z) (it : CartItem.t)
    : Result PricedItem :=
  match findAvailableMenu db (CartItem.menuId it) with
  | None => Err (ItemNotFound (CartItem.menuId it))
  | Some menuItem =>
      if negb (Menu.locationId menuItem =? locationId)
      then Err (LocationMismatch (Menu.title menuItem))
      else
        let itemTotal := Menu.price menuItem * CartItem.quantity it in
        if hasCustomizations it then
          await customizationCosts <-
            Promise_all sched (map (priceCustomization db) (customizationList it));
          Ok (mkPricedItem it menuItem
                (itemTotal + reduce_sum customizationCosts * CartItem.quantity it))
        else Ok (mkPricedItem it menuItem itemTotal)
  end.

(** [let total = 0] after every fulfilled callback ran its
    [total += itemTotal], in settling order. *)
Definition accumulate_total (order : list nat) (outcomes : list (Result PricedItem)) : Z :=
  fold_left (fun total i => match nth_error outcomes i with
                            | Some (Ok p) => total + itemTotal p
                            | _ => total
                            end) order 0.

(** The express-validator chain of [POST /]: [items] is an array of at least
    one entry and every [items.*.quantity] is an integer of at least 1.  The
    fields typed [Z] are the ones checked with [isInt]. *)
Definition validCreateBody (body : CreateOrderBody.t) : bool :=
  negb (Nat.eqb (List.length (CreateOrderBody.items body)) 0)
  && forallb (fun it => 1 <=? CartItem.quantity it) (CreateOrderBody.items body).

(** ** Order creation: the transaction *)

(** [for (const customization of item.customizations)]. *)
Fixpoint createCustomizationRows (orderItemId : Z) (cs : list CartCustomization.t) (db : DB)
    : Result DB :=
  match cs with
  | [] => Ok db
  | customization :: rest =>
      match findCustomization db (CartCustomization.customizationId customization) with
      | None => Err NullDereference
      | Some customizationItem =>
          await r <- orderItemCustomization_create orderItemId
                       (CartCustomization.customizationId customization)
                       (js_or (CartCustomization.quantity customization) 1)
                       (Customization.price customizationItem) db;
          createCustomizationRows orderItemId rest (snd r)
      end
  end.

(** [for (const item of menuItems)]. *)
Fixpoint createItemRows (now : Z) (orderId : Z) (menuItems : list PricedItem) (db : DB)
    : Result DB :=
  match menuItems with
  | [] => Ok db
  | it :: rest =>
      await r <- orderItem_create now orderId (CartItem.menuId (item it))
                   (CartItem.quantity (item it)) (Menu.price (menuItem it)) db;
      await db' <- (if hasCustomizations (item it)
                    then createCustomizationRows (OrderItem.id (fst r))
                           (customizationList (item it)) (snd r)
                    else Ok (snd r));
      createItemRows now orderId rest db'
  end.

(** The function given to [prisma.$transaction]. *)
Definition persistOrder (now : Z) (locationId userId total : Z) (menuItems : list PricedItem)
    (db : DB) : Result (Order.t * DB) :=
  await r <- order_create now locationId userId OrderStatus.PENDING total db;
  await db' <- createItemRows now (Order.id (fst r)) menuItems (snd r);
  Ok (fst r, db').

(** ** Reading orders *)

Fixpoint insert_desc (o : Order.t) (l : list Order.t) : list Order.t :=
  match l with
  | [] => [o]
  | x :: rest =>
      if Order.createdAt x <=? Order.createdAt o then o :: l
      else x :: insert_desc o rest
  end.

(** [orderBy: { createdAt: 'desc' }]. *)
Definition orderBy_createdAt_desc (l : list Order.t) : list Order.t :=
  fold_right insert_desc [] l.

(** [skip] and [take]: a negative [skip] is refused, a negative [take] reads
    from the end of the result. *)
Definition paginate {A : Type} (skip take : Z) (rows : list A) : Result (list A) :=
  if skip <? 0 then Err PrismaValidationError
  else if take <? 0
       then Ok (rev (firstn (Z.to_nat (- take)) (skipn (Z.to_nat skip) (rev rows))))
       else Ok (firstn (Z.to_nat take) (skipn (Z.to_nat skip) rows)).

(** [prisma.order.findMany({ where, orderBy, skip, take })]. *)
Definition findManyOrders (db : DB) (w : OrderWhere) (skip take : Z) : Result (list Order.t) :=
  paginate skip take (orderBy_createdAt_desc (filter (matches w) (orders db))).

(** [prisma.order.count({ where })]. *)
Definition countOrders (db : DB) (w : OrderWhere) : Z :=
  Z.of_nat (List.length (filter (matches w) (orders db))).

(** A truthy query string. *)
Definition truthy_string (s : option string) : option string :=
  match s with
  | Some EmptyString => None
  | _ => s
  end.

Definition or_default (q : option Z) (d : Z) : Z :=
  match q with
  | Some z => z
  | None => d
  end.

(** ** The server *)

Section Server.

(** What the process takes from its environment and its libraries. *)
Variable JWT_SECRET : option string.                        (* process.env.JWT_SECRET *)
Variable jwt_verify : string -> string -> option AuthUser.  (* jwt.verify(token, secret) *)
Variable jwt_sign : AuthUser -> string -> string.           (* jwt.sign(payload, secret, options) *)
Variable bcrypt_hash : string -> string.                    (* bcrypt.hash(password, 12) *)
Variable isEmail : string -> bool.                          (* express-validator isEmail() *)
Variable normalizeEmail : string -> string.                 (* express-validator normalizeEmail() *)
Variable trim : string -> string.                           (* express-validator trim() *)

(** *** middleware/auth *)

(** [authHeader && authHeader.split(' ')[1]], kept when truthy. *)
Definition bearerToken (authHeader : option string) : option string :=
  match authHeader with
  | None => None
  | Some EmptyString => None
  | Some h =>
      match nth_error (split " "%char h) 1 with
      | Some EmptyString => None
      | t => t
      end
  end.

Definition authenticateToken (authHeader : option string) : Result AuthUser :=
  match bearerToken authHeader with
  | None => Err AccessTokenRequired
  | Some token =>
      match JWT_SECRET with
      | None => Err InvalidToken
      | Some secret =>
          match jwt_verify token secret with
          | None => Err InvalidToken
          | Some decoded => Ok decoded
          end
      end
  end.

Definition requireRole (roles : list string) (user : option AuthUser) : Result unit :=
  match user with
  | None => Err AuthenticationRequired
  | Some u =>
      if negb (includes roles (auth_role u)) then Err InsufficientPermissions
      else Ok tt
  end.

Definition requireAdmin := requireRole [UserRole.ADMIN].
Definition requireKitchenOrAdmin := requireRole [UserRole.KITCHEN; UserRole.ADMIN].
Definition requireWaiterOrAdmin := requireRole [UserRole.WAITER; UserRole.ADMIN].

(** *** routes/orders *)

(** The [where] clause of the read routes: a CUSTOMER is confined to the
    orders with their own [userId]. *)
Definition visibleTo (user : AuthUser) (w : OrderWhere) : OrderWhere :=
  if String.eqb (auth_role user) UserRole.CUSTOMER
  then mkWhere (where_id w) (Some (auth_id user)) (where_status w) (where_locationId w)
  else w.

(** The body of [GET /]: the page of orders and the count of all matches. *)
Definition listOrders (user : AuthUser) (q : OrdersQuery.t) (db : DB)
    : Outcome (list HydratedOrder * Z) :=
  let page := or_default (OrdersQuery.page q) 1 in
  let limit := or_default (OrdersQuery.limit q) 20 in
  let offset := (page - 1) * limit in
  let whereClause :=
    visibleTo user
      (mkWhere None None (truthy_string (OrdersQuery.status q)) (OrdersQuery.locationId q)) in
  match findManyOrders db whereClause offset limit with
  | Err e => reject e db
  | Ok found => (Ok (map (hydrate true db) found, countOrders db whereClause), db, [])
  end.

(** [GET /]. *)
Definition getOrders (authorization : option string) (q : OrdersQuery.t) (db : DB)
    : Outcome (list HydratedOrder * Z) :=
  match authenticateToken authorization with
  | Err e => reject e db
  | Ok user => listOrders user q db
  end.

(** The body of [GET /:id]. *)
Definition fetchOrder (user : AuthUser) (orderId : Z) (db : DB) : Outcome HydratedOrder :=
  match findOrder db (visibleTo user (byId orderId)) with
  | None => reject OrderNotFound db
  | Some o => (Ok (hydrate true db o), db, [])
  end.

(** [GET /:id]. *)
Definition getOrder (authorization : option string) (orderId : Z) (db : DB)
    : Outcome HydratedOrder :=
  match authenticateToken authorization with
  | Err e => reject e db
  | Ok user => fetchOrder user orderId db
  end.

(** The body of [POST /]. *)
Definition placeOrder (sched : Schedule) (now : Z) (user : AuthUser)
    (body : CreateOrderBody.t) (db : DB) : Outcome (option HydratedOrder) :=
  if negb (validCreateBody body) then reject ValidationFailed db
  else
    let locationId := CreateOrderBody.locationId body in
    match findActiveLocation db locationId with
    | None => reject LocationNotFound db
    | Some _ =>
        let outcomes :=
          mapi (fun i it => priceItem (inner sched i) db locationId it)
               (CreateOrderBody.items body) in
        match Promise_all (outer sched) outcomes with
        | Err e => reject e db
        | Ok menuItems =>
            let total :=
              accumulate_total (settle_order (outer sched) (List.length outcomes)) outcomes in
            match transaction (persistOrder now locationId (auth_id user) total menuItems) db with
            | Err e => reject e db
            | Ok (newOrder, db') =>
                let completeOrder :=
                  option_map (hydrate true db') (findOrder db' (byId (Order.id newOrder))) in
                (Ok completeOrder, db',
                 [ mkEmit (io_to (location_room locationId)) "newOrder"
                          (OrderPayload completeOrder);
                   mkEmit (io_to (user_room (auth_id user))) "orderCreated"
                          (OrderPayload completeOrder) ])
            end
        end
    end.

(** [POST /]. *)
Definition createOrder (sched : Schedule) (now : Z) (authorization : option string)
    (body : CreateOrderBody.t) (db : DB) : Outcome (option HydratedOrder) :=
  match authenticateToken authorization with
  | Err e => reject e db
  | Ok user => placeOrder sched now user body db
  end.

(** The body of [PATCH /:id/status]. *)
Definition setStatus (now : Z) (orderId : Z) (status : string) (db : DB)
    : Outcome HydratedOrder :=
  if negb (includes [OrderStatus.PENDING; OrderStatus.IN_PROGRESS;
                     OrderStatus.COMPLETED; OrderStatus.CANCELLED] status)
  then reject ValidationFailed db
  else
    match order_update now orderId status db with
    | Err e => reject e db
    | Ok (o, db') =>
        let updated := hydrate false db' o in
        (Ok updated, db',
         [ mkEmit (io_to (location_room (Order.locationId o))) "orderStatusUpdated"
                  (OrderPayload (Some updated));
           mkEmit (io_to (user_room (Order.userId o))) "orderStatusUpdated"
                  (OrderPayload (Some updated)) ])
    end.

(** [PATCH /:id/status]. *)
Definition updateOrderStatus (now : Z) (authorization : option string) (orderId : Z)
    (status : string) (db : DB) : Outcome HydratedOrder :=
  match authenticateToken authorization with
  | Err e => reject e db
  | Ok user =>
      match requireKitchenOrAdmin (Some user) with
      | Err e => reject e db
      | Ok _ => setStatus now orderId status db
      end
  end.

(** The body of [PATCH /:id/cancel]. *)
Definition cancel (now : Z) (user : AuthUser) (orderId : Z) (db : DB)
    : Outcome HydratedOrder :=
  match findOrder db (byId orderId) with
  | None => reject OrderNotFound db
  | Some existingOrder =>
      if String.eqb (auth_role user) UserRole.CUSTOMER
         && negb (Order.userId existingOrder =? auth_id user)
      then reject NotAuthorizedToCancel db
      else if negb (String.eqb (Order.status existingOrder) OrderStatus.PENDING)
      then reject InvalidTransition db
      else
        match order_update now orderId OrderStatus.CANCELLED db with
        | Err e => reject e db
        | Ok (o, db') =>
            let cancelled := hydrate false db' o in
            (Ok cancelled, db',
             [ mkEmit (io_to (location_room (Order.locationId o))) "orderCancelled"
                      (OrderPayload (Some cancelled));
               mkEmit (io_to (user_room (Order.userId o))) "orderCancelled"
                      (OrderPayload (Some cancelled)) ])
        end
  end.

(** [PATCH /:id/cancel]. *)
Definition cancelOrder (now : Z) (authorization : option string) (orderId : Z) (db : DB)
    : Outcome HydratedOrder :=
  match authenticateToken authorization with
  | Err e => reject e db
  | Ok user => cancel now user orderId db
  end.

(** *** routes/auth: register *)

(** The express-validator chain of [POST /register]; [optional()] skips an
    absent field. *)
Definition validRegisterBody (body : RegisterBody.t) : bool :=
  isEmail (RegisterBody.email body)
  && (6 <=? String.length (RegisterBody.password body))%nat
  && match RegisterBody.role body with
     | None => true
     | Some r => includes [UserRole.CUSTOMER; UserRole.WAITER;
                           UserRole.KITCHEN; UserRole.ADMIN] r
     end.

(** [POST /register].  The route has no middleware: the [Authorization]
    header of the request is never read.  The user row is written before the
    token is signed, so it stays when signing fails. *)
Definition register (now : Z) (authorization : option string) (body : RegisterBody.t)
    (db : DB) : Result (User.t * string) * DB :=
  if negb (validRegisterBody body) then (Err ValidationFailed, db)
  else
    let email := normalizeEmail (RegisterBody.email body) in
    let role := match RegisterBody.role body with
                | Some r => r
                | None => UserRole.CUSTOMER
                end in
    match findUserByEmail db email with
    | Some existingUser => (Err UserAlreadyExists, db)
    | None =>
        let hashedPassword := bcrypt_hash (RegisterBody.password body) in
        let user := User.mk (autoincrement (map User.id (users db)))
                            email hashedPassword
                            (option_map trim (RegisterBody.firstName body))
                            (option_map trim (RegisterBody.lastName body))
                            (option_map trim (RegisterBody.phone body))
                            role 0 now now in
        let db' := set_users db (users db ++ [user]) in
        match JWT_SECRET with
        | None => (Err JwtSecretNotConfigured, db')
        | Some jwtSecret =>
            let token := jwt_sign (mkAuthUser (User.id user) (User.email user) (User.role user))
                                  jwtSecret in
            (Ok (user, token), db')
        end
    end.

(** *** socket/socketHandlers *)

(** [io.use(...)] then [io.on('connection', ...)]: a handshake whose token
    verifies opens a socket that is in its user's personal room; any other
    handshake is refused ([next(new Error('Authentication error'))]). *)
Definition connect (token : option string) : option Socket :=
  match token with
  | None => None
  | Some EmptyString => None
  | Some t =>
      match JWT_SECRET with
      | None => None
      | Some secret =>
          match jwt_verify t secret with
          | None => None
          | Some decoded => Some (mkSocket decoded [user_room (auth_id decoded)])
          end
      end
  end.

(** The [socket.on(...)] handlers: the socket after the event and the
    pushes of the handler. *)
Definition socketEvent (socket : Socket) (ev : ClientEvent) : Socket * list Emit :=
  let user := socket_user socket in
  match ev with
  | on_joinLocation locationId =>
      (mkSocket user (join (location_room locationId) (rooms socket)), [])
  | on_leaveLocation locationId =>
      (mkSocket user (leave (location_room locationId) (rooms socket)), [])
  | on_updateOrderStatus orderId status locationId =>
      if String.eqb (auth_role user) UserRole.KITCHEN
         || String.eqb (auth_role user) UserRole.ADMIN
      then (socket,
            [ mkEmit (io_to (location_room locationId)) "orderStatusUpdated"
                     (StatusRelay orderId status (auth_email user)) ])
      else (socket, [])
  | on_typing locationId isTyping =>
      (socket,
       [ mkEmit (socket_to (location_room locationId)) "userTyping"
                (TypingRelay (auth_id user) (auth_email user) isTyping) ])
  | on_notificationRead _ => (socket, [])
  | on_disconnect => (socket, [])
  end.

(** *** Requests on stored orders

    The lifecycle operations other than creation, as requests against the
    store; [run] handles a sequence of them one after the other. *)
Inductive LifecycleOp : Type :=
| OpList (q : OrdersQuery.t)
| OpFetch (orderId : Z)
| OpSetStatus (orderId : Z) (status : string)
| OpCancel (orderId : Z).

Record Request : Type := mkRequest {
  req_time : Z;
  req_authorization : option string;
  req_op : LifecycleOp }.

Definition handle (r : Request) (db : DB) : DB :=
  match req_op r with
  | OpList q => store (getOrders (req_authorization r) q db)
  | OpFetch orderId => store (getOrder (req_authorization r) orderId db)
  | OpSetStatus orderId status =>
      store (updateOrderStatus (req_time r) (req_authorization r) orderId status db)
  | OpCancel orderId => store (cancelOrder (req_time r) (req_authorization r) orderId db)
  end.

Definition run (rs : list Request) (db : DB) : DB :=
  fold_left (fun d r => handle r d) rs db.

End Server.

(** ** The figures of the specification

    The totals as the specification words them, over the stored snapshot
    rows and over the cart, to be compared with what [placeOrder] computes. *)

Definition sum (l : list Z) : Z := fold_right Z.add 0 l.




(** The catalog prices a cart entry refers to. *)
Definition unitPrice (db : DB) (it : CartItem.t) : Z :=
  match findAvailableMenu db (CartItem.menuId it) with
  | Some m => Menu.price m
  | None => 0
  end.

Definition customizationUnitPrice (db : DB) (c : CartCustomization.t) : Z :=
  match findCustomization db (CartCustomization.customizationId c) with
  | Some ci => Customization.price ci
  | None => 0
  end.

(** The quantity a customization reference counts for. *)
Definition effectiveQuantity (c : CartCustomization.t) : Z :=
  js_or (CartCustomization.quantity c) 1.

(** (unit price × entry quantity) + (Σ customization unit price ×
    customization quantity) × entry quantity *)
Definition spec_entryTotal (db : DB) (it : CartItem.t) : Z :=
  unitPrice db it * CartItem.quantity it
  + sum (map (fun c => customizationUnitPrice db c * effectiveQuantity c)
             (customizationList it))
    * CartItem.quantity it.

Definition spec_cartTotal (db : DB) (body : CreateOrderBody.t) : Z :=
  sum (map (spec_entryTotal db) (CreateOrderBody.items body)).

(** A stored customization line is the snapshot of a customization
    reference of the cart, priced by the catalog [db]. *)
Definition customizationSnapshot (db : DB) (c : CartCustomization.t)
    (row : OrderItemCustomization.t) : Prop :=
  OrderItemCustomization.customizationId row = CartCustomization.customizationId c
  /\ OrderItemCustomization.quantity row = effectiveQuantity c
  /\ OrderItemCustomization.priceAtTime row = customizationUnitPrice db c.

(** A stored order line, read back with its customization lines, is the
    snapshot of a cart entry. *)
Definition lineSnapshot (db : DB) (it : CartItem.t) (h : HydratedItem) : Prop :=
  OrderItem.menuId (line h) = CartItem.menuId it
  /\ OrderItem.quantity (line h) = CartItem.quantity it
  /\ OrderItem.priceAtTime (line h) = unitPrice db it
  /\ exists cs, lineCustomizations h = Some cs
                /\ Forall2 (customizationSnapshot db) (customizationList it) cs.

(** ** Conditions on the store and on requests *)

(** The foreign keys of the order tables: every order line belongs to a
    stored order and every customization line to a stored order line. *)
Definition referential_integrity (db : DB) : bool :=
  forallb (fun i => existsb (fun o => Order.id o =? OrderItem.orderId i) (orders db))
          (orderItems db)
  && forallb (fun c => existsb (fun i => OrderItem.id i =? OrderItemCustomization.orderItemId c)
                               (orderItems db))
             (orderItemCustomizations db).

(** The two foreign keys, as properties of the rows. *)
Definition linesBelongToOrders (db : DB) : Prop :=
  forall i, In i (orderItems db) ->
    exists o, In o (orders db) /\ Order.id o = OrderItem.orderId i.

Definition customizationsBelongToLines (db : DB) : Prop :=
  forall c, In c (orderItemCustomizations db) ->
    exists i, In i (orderItems db) /\ OrderItem.id i = OrderItemCustomization.orderItemId c.

(** The caller of a request is a stored user. *)
Definition storedUser (db : DB) (user : AuthUser) : bool :=
  existsb (fun u => User.id u =? auth_id user) (users db).

Definition isSome {A : Type} (o : option A) : bool :=
  match o with Some _ => true | None => false end.

(** The entry's menu item is found available at the target location and
    each of its customization references is found. *)
Definition entryResolves (db : DB) (locationId : Z) (it : CartItem.t) : bool :=
  match findAvailableMenu db (CartItem.menuId it) with
  | Some m =>
      (Menu.locationId m =? locationId)
      && forallb (fun c => isSome (findCustomization db (CartCustomization.customizationId c)))
                 (customizationList it)
  | None => false
  end.

(** A valid cart for an active target location. *)
Definition validCart (db : DB) (body : CreateOrderBody.t) : bool :=
  validCreateBody body
  && isSome (findActiveLocation db (CreateOrderBody.locationId body))
  && forallb (entryResolves db (CreateOrderBody.locationId body)) (CreateOrderBody.items body).

(** The entry's menu item is found available and belongs to another
    location than the target. *)
Definition entryMismatches (db : DB) (locationId : Z) (it : CartItem.t) : bool :=
  match findAvailableMenu db (CartItem.menuId it) with
  | Some m => negb (Menu.locationId m =? locationId)
  | None => false
  end.

(** The menu item with the entry's id, available or not, belongs to another
    location than the target. *)
Definition entryOfOtherLocation (db : DB) (locationId : Z) (it : CartItem.t) : bool :=
  match findMenu db (CartItem.menuId it) with
  | Some m => negb (Menu.locationId m =? locationId)
  | None => false
  end.

(** [Menu.id] is a primary key. *)
Definition menuIdsUnique (db : DB) : Prop := NoDup (map Menu.id (menus db)).

(** Two versions of an order row that differ at most in [status] and
    [updatedAt]. *)
Definition sameButStatus (o o' : Order.t) : Prop :=
  Order.id o' = Order.id o
  /\ Order.total o' = Order.total o
  /\ Order.locationId o' = Order.locationId o
  /\ Order.userId o' = Order.userId o
  /\ Order.createdAt o' = Order.createdAt o.

Definition isTerminal (status : string) : bool :=
  String.eqb status OrderStatus.COMPLETED || String.eqb status OrderStatus.CANCELLED.


(** ** A sample store and sample requests *)

Module Sample.

Definition ann : AuthUser := mkAuthUser 1 "ann@example.com" UserRole.CUSTOMER.
Definition kit : AuthUser := mkAuthUser 2 "kit@example.com" UserRole.KITCHEN.
Definition bob : AuthUser := mkAuthUser 3 "bob@example.com" UserRole.CUSTOMER.
Definition wes : AuthUser := mkAuthUser 4 "wes@example.com" UserRole.WAITER.

Definition secret : option string := Some "s3cret"%string.

(** A token is the holder's name. *)
Definition verify (token _ : string) : option AuthUser :=
  if String.eqb token "ann" then Some ann
  else if String.eqb token "kit" then Some kit
  else if String.eqb token "bob" then Some bob
  else if String.eqb token "wes" then Some wes
  else None.

Definition sign (u : AuthUser) (_ : string) : string := auth_email u.
Definition hash (p : string) : string := String.append "hash:" p.
Definition anyEmail (_ : string) : bool := true.
Definition sameString (s : string) : string := s.

Definition asAnn : option string := Some "Bearer ann"%string.
Definition asKit : option string := Some "Bearer kit"%string.
Definition asBob : option string := Some "Bearer bob"%string.
Definition asWes : option string := Some "Bearer wes"%string.

Definition userRow (u : AuthUser) : User.t :=
  User.mk (auth_id u) (auth_email u) "hash:pw" None None None (auth_role u) 0 0 0.

(** Location 1 and 2 are active, 3 is not.  The burger (with extra cheese),
    the soup and the fries are sold at location 1, the pizza and the stew
    at location 2; the soup and the stew are not available.  Ann's order 1 is completed,
    her order 2 pending, Bob's order 3 in progress. *)
Definition db : DB :=
  mkDB [userRow ann; userRow kit; userRow bob; userRow wes]
       [Location.mk 1 "Downtown" true; Location.mk 2 "Harbour" true;
        Location.mk 3 "Closed" false]
       [Menu.mk 1 "Burger" 1000 true 1; Menu.mk 2 "Pizza" 1200 true 2;
        Menu.mk 3 "Soup" 500 false 1; Menu.mk 4 "Stew" 700 false 2;
        Menu.mk 5 "Fries" 300 true 1]
       [Customization.mk 1 "Cheese" 200 1]
       [Order.mk 1 OrderStatus.COMPLETED 1000 1 1 10 20;
        Order.mk 2 OrderStatus.PENDING 1200 1 1 30 30;
        Order.mk 3 OrderStatus.IN_PROGRESS 1000 1 3 40 50]
       [OrderItem.mk 1 1 1000 1 1 10; OrderItem.mk 2 1 1000 1 2 30;
        OrderItem.mk 3 1 1000 1 3 40]
       [OrderItemCustomization.mk 1 2 1 1 200].

(** The lookups settle in list order, or the last entry's first. *)
Definition inOrder : Schedule := mkSchedule [] (fun _ => []).
Definition lastFirst : Schedule := mkSchedule [1%nat; 0%nat] (fun _ => [0%nat]).

(** Two burgers, each with one extra cheese, for location 1. *)
Definition cart : CreateOrderBody.t :=
  CreateOrderBody.mk 1
    [CartItem.mk 1 2 (Some [CartCustomization.mk 1 (Some 1)])].

(** The same and three fries. *)
Definition largerCart : CreateOrderBody.t :=
  CreateOrderBody.mk 1
    [CartItem.mk 1 2 (Some [CartCustomization.mk 1 (Some 1)]); CartItem.mk 5 3 None].

End Sample.

(** * The other routes

    The routes of [routes/auth] besides register, the catalogue routes
    ([routes/locations], [routes/menu]), the analytics query of
    [routes/analytics], and what the list route and the socket handlers
    do over a whole session. *)

(** ** Errors and answers *)

(** What a route below fails with: the error of a
    [throw createError(message, statusCode)], or an error of the kinds
    above, sent by the auth middleware or thrown by Prisma. *)
Inductive Failure : Type :=
| createError (message : string) (statusCode : Z)
| Raised (e : HttpError).

Definition failureStatus (f : Failure) : option Z :=
  match f with
  | createError _ code => Some code
  | Raised e => statusCode e
  end.

(** The outcome of a request: the body given to [res.json], or the
    failure. *)
Inductive Answer (A : Type) : Type :=
| Replied (body : A)
| Failed (f : Failure).
Arguments Replied {A} body.
Arguments Failed {A} f.

Definition replied {A : Type} (a : Answer A) : bool :=
  match a with Replied _ => true | Failed _ => false end.

(** ** Sorting and de-duplication of query results *)

Fixpoint insert_by {A : Type} (le : A -> A -> bool) (x : A) (l : list A) : list A :=
  match l with
  | [] => [x]
  | y :: rest => if le x y then x :: l else y :: insert_by le x rest
  end.

(** [orderBy] with the ascending order [le]. *)
Definition orderBy {A : Type} (le : A -> A -> bool) (l : list A) : list A :=
  fold_right (insert_by le) [] l.

(** [distinct]: the first row of each value, in the order of the result. *)
Fixpoint distinct (l : list string) : list string :=
  match l with
  | [] => []
  | x :: rest => x :: filter (fun y => negb (String.eqb x y)) (distinct rest)
  end.

(** ** Conditions on headers *)

(** The header has a space in it. *)
Fixpoint hasSpace (s : string) : bool :=
  match s with
  | EmptyString => false
  | String c rest => Ascii.eqb c " " || hasSpace rest
  end.

(** ** The pagination object of the list route *)

(** [Math.ceil(totalCount / Number(limit))] as [res.json] sends it: a
    quotient that is not finite (a [limit] of 0) is sent as [null]. *)
Definition pages (totalCount limit : Z) : option Z :=
  if limit =? 0 then None else Some (- ((- totalCount) / limit)).

(** The orders of a list answer; none when the request failed. *)
Definition listed {A : Type} (out : Outcome (list A * Z)) : list A :=
  match response out with
  | Ok (found, _) => found
  | Err _ => []
  end.

(** [b] was created no later than [a]. *)
Definition notOlder (a b : Order.t) : Prop := Order.createdAt b <= Order.createdAt a.

(** ** Conditions on the order table *)

(** The status is one of the enumeration [OrderStatus]. *)
Definition knownStatus (status : string) : bool :=
  includes [OrderStatus.PENDING; OrderStatus.IN_PROGRESS;
            OrderStatus.COMPLETED; OrderStatus.CANCELLED] status.

Definition statusesKnown (db : DB) : bool :=
  forallb (fun o => knownStatus (Order.status o)) (orders db).

(** [Order.id] is a primary key. *)
Definition orderIdsUnique (db : DB) : Prop := NoDup (map Order.id (orders db)).

(** ** The request as the middleware sees it *)

(** [AuthRequest]: the [Authorization] header, and [req.user], which no one
    but [authenticateToken] assigns. *)
Record AuthRequest : Type := mkAuthRequest {
  header_authorization : option string;
  req_user : option AuthUser }.

(** A request as it arrives: [req.user] is undefined. *)
Definition incoming (authorization : option string) : AuthRequest :=
  mkAuthRequest authorization None.

(** ** Users *)

(** [prisma.user.findUnique({ where: { id } })]. *)
Definition findUserById (db : DB) (id : Z) : option User.t :=
  find (fun u => User.id u =? id) (users db).

(** [prisma.<table>.update({ where: { id }, data })] on a table of rows with
    the id [key]: the row with the id is rewritten in place; none when there
    is no such row. *)
Fixpoint update_row {A : Type} (key : A -> Z) (id : Z) (data : A -> A) (rows : list A)
    : option (A * list A) :=
  match rows with
  | [] => None
  | r :: rest =>
      if key r =? id then Some (data r, data r :: rest)
      else
        match update_row key id data rest with
        | Some (r', rest') => Some (r', r :: rest')
        | None => None
        end
  end.

(** [prisma.user.update({ where: { id }, data })]: rejects when there is no
    such row. *)
Definition user_update (id : Z) (data : User.t -> User.t) (db : DB) : Result (User.t * DB) :=
  match update_row User.id id data (users db) with
  | Some (u', us') => Ok (u', set_users db us')
  | None => Err PrismaRecordNotFound
  end.

(** A field of [data]: [undefined] leaves the column as it is. *)
Definition orKeep {A : Type} (field : option A) (column : A) : A :=
  match field with
  | Some v => v
  | None => column
  end.

Definition orKeepNullable {A : Type} (field : option A) (column : option A) : option A :=
  match field with
  | Some v => Some v
  | None => column
  end.

(** [data: { firstName, lastName, phone }] written at time [now]. *)
Definition withProfile (firstName lastName phone : option string) (now : Z) (u : User.t)
    : User.t :=
  User.mk (User.id u) (User.email u) (User.password u)
          (orKeepNullable firstName (User.firstName u))
          (orKeepNullable lastName (User.lastName u))
          (orKeepNullable phone (User.phone u))
          (User.role u) (User.loyaltyPoints u) (User.createdAt u) now.

(** [data: { password }] written at time [now]. *)
Definition withPassword (password : string) (now : Z) (u : User.t) : User.t :=
  User.mk (User.id u) (User.email u) password
          (User.firstName u) (User.lastName u) (User.phone u)
          (User.role u) (User.loyaltyPoints u) (User.createdAt u) now.

(** The user object of the login and profile answers: the row without its
    password and timestamps. *)
Record UserView : Type := mkUserView {
  view_id : Z;
  view_email : string;
  view_firstName : option string;
  view_lastName : option string;
  view_phone : option string;
  view_role : string;
  view_loyaltyPoints : Z }.

Definition viewOf (u : User.t) : UserView :=
  mkUserView (User.id u) (User.email u) (User.firstName u) (User.lastName u)
             (User.phone u) (User.role u) (User.loyaltyPoints u).

(** An order of the profile: [select: { id, status, total, createdAt,
    location: { select: { name } } }]. *)
Record ProfileOrder : Type := mkProfileOrder {
  profile_order_id : Z;
  profile_order_status : string;
  profile_order_total : Z;
  profile_order_createdAt : Z;
  profile_order_location : option string }.

Definition profileOrder (db : DB) (o : Order.t) : ProfileOrder :=
  mkProfileOrder (Order.id o) (Order.status o) (Order.total o) (Order.createdAt o)
    (option_map Location.name
       (find (fun l => Location.id l =? Order.locationId o) (locations db))).

(** [orders: { orderBy: { createdAt: 'desc' }, take: 10 }] of the user. *)
Definition recentOrders (db : DB) (userId : Z) : list Order.t :=
  firstn 10 (orderBy_createdAt_desc (filter (fun o => Order.userId o =? userId) (orders db))).

(** What identifies a user and what the user is allowed: the columns no
    account route is meant to rewrite. *)
Definition identity (u : User.t) : Z * string * string * Z * Z :=
  (User.id u, User.email u, User.role u, User.loyaltyPoints u, User.createdAt u).

(** [email String @unique]. *)
Definition emailsUnique (db : DB) : Prop := NoDup (map User.email (users db)).

Module LoginBody.
Record t : Type := mk {
  email : string;
  password : string }.
End LoginBody.

Module ProfileBody.
Record t : Type := mk {
  firstName : option string;
  lastName : option string;
  phone : option string }.
End ProfileBody.

Module PasswordBody.
Record t : Type := mk {
  currentPassword : string;
  newPassword : string }.
End PasswordBody.

(** ** The catalogue tables with all their columns *)

Module Catalog.

Module Location.
Record t : Type := mk {
  id : Z;
  name : string;
  address : string;
  phone : option string;
  email : option string;
  isActive : bool;
  createdAt : Z;
  updatedAt : Z }.
End Location.

Module Menu.
Record t : Type := mk {
  id : Z;
  title : string;
  description : string;
  price : Z;
  category : string;
  imageUrl : option string;
  isAvailable : bool;
  locationId : Z;
  createdAt : Z;
  updatedAt : Z }.
End Menu.

Module Customization.
Record t : Type := mk {
  id : Z;
  name : string;
  price : Z;
  category : string;
  menuId : Z;
  createdAt : Z;
  updatedAt : Z }.
End Customization.

(** The three tables, the largest id the Customization table ever handed
    out (SQLite's [sqlite_sequence]: rows of that table are deleted), and
    the [customizationId] of every OrderItemCustomization row, which
    restricts deletion. *)
Record t : Type := mk {
  locations : list Location.t;
  menus : list Menu.t;
  customizations : list Customization.t;
  customization_seq : Z;
  referenced : list Z }.

End Catalog.

Module Analytics.
Record t : Type := mk {
  id : Z;
  locationId : Z;
  date : Z;
  totalOrders : Z;
  totalRevenue : Z;
  avgOrderValue : Z;
  peakHour : option Z;
  popularItems : option string;
  createdAt : Z }.
End Analytics.

(** *** Catalogue queries *)

(** [prisma.location.findUnique({ where: { id } })]. *)
Definition findLocationRow (cat : Catalog.t) (id : Z) : option Catalog.Location.t :=
  find (fun l => Catalog.Location.id l =? id) (Catalog.locations cat).

(** [prisma.menu.findUnique({ where: { id } })]. *)
Definition findMenuRow (cat : Catalog.t) (id : Z) : option Catalog.Menu.t :=
  find (fun m => Catalog.Menu.id m =? id) (Catalog.menus cat).

(** The relation [menu] of a location and [customizations] of a menu
    item. *)
Definition menuOf (cat : Catalog.t) (locationId : Z) : list Catalog.Menu.t :=
  filter (fun m => Catalog.Menu.locationId m =? locationId) (Catalog.menus cat).

Definition customizationsOfItem (cat : Catalog.t) (menuId : Z) : list Catalog.Customization.t :=
  filter (fun c => Catalog.Customization.menuId c =? menuId) (Catalog.customizations cat).

(** A location as the location routes select it: [createdAt] is selected by
    the list route only; [isActive] and [updatedAt] by neither. *)
Record LocationView : Type := mkLocationView {
  location_id : Z;
  location_name : string;
  location_address : string;
  location_phone : option string;
  location_email : option string;
  location_menu : list Catalog.Menu.t;
  location_createdAt : option Z }.

Definition viewLocation (withCreatedAt : bool) (cat : Catalog.t) (l : Catalog.Location.t)
    : LocationView :=
  mkLocationView (Catalog.Location.id l) (Catalog.Location.name l)
    (Catalog.Location.address l) (Catalog.Location.phone l) (Catalog.Location.email l)
    (menuOf cat (Catalog.Location.id l))
    (if withCreatedAt then Some (Catalog.Location.createdAt l) else None).

(** A menu item with [include: { customizations: true }]. *)
Record MenuView : Type := mkMenuView {
  menu_row : Catalog.Menu.t;
  menu_customizations : list Catalog.Customization.t }.

Definition viewMenu (cat : Catalog.t) (m : Catalog.Menu.t) : MenuView :=
  mkMenuView m (customizationsOfItem cat (Catalog.Menu.id m)).

(** [orderBy: [{ category: 'asc' }, { title: 'asc' }]]; text compares byte
    by byte. *)
Definition byCategoryThenTitle (a b : Catalog.Menu.t) : bool :=
  if String.eqb (Catalog.Menu.category a) (Catalog.Menu.category b)
  then String.leb (Catalog.Menu.title a) (Catalog.Menu.title b)
  else String.leb (Catalog.Menu.category a) (Catalog.Menu.category b).

(** The [where] clause of the menu of a location: the available items of
    the location, of the category asked for when one is. *)
Definition onMenu (locationId : Z) (category : option string) (m : Catalog.Menu.t) : bool :=
  (Catalog.Menu.locationId m =? locationId)
  && Catalog.Menu.isAvailable m
  && match truthy_string category with
     | Some c => String.eqb (Catalog.Menu.category m) c
     | None => true
     end.

(** *** Catalogue writes *)

Definition set_locations (cat : Catalog.t) (ls : list Catalog.Location.t) : Catalog.t :=
  Catalog.mk ls (Catalog.menus cat) (Catalog.customizations cat)
             (Catalog.customization_seq cat) (Catalog.referenced cat).

Definition set_menus (cat : Catalog.t) (ms : list Catalog.Menu.t) : Catalog.t :=
  Catalog.mk (Catalog.locations cat) ms (Catalog.customizations cat)
             (Catalog.customization_seq cat) (Catalog.referenced cat).

Definition set_customizations (cat : Catalog.t) (cs : list Catalog.Customization.t) (seq : Z)
    : Catalog.t :=
  Catalog.mk (Catalog.locations cat) (Catalog.menus cat) cs seq (Catalog.referenced cat).

Module LocationBody.
Record t : Type := mk {
  name : string;
  address : string;
  phone : option string;
  email : option string }.
End LocationBody.

Module LocationPatch.
Record t : Type := mk {
  name : option string;
  address : option string;
  phone : option string;
  email : option string }.
End LocationPatch.

Module MenuBody.
Record t : Type := mk {
  title : string;
  description : string;
  price : Z;
  category : string;
  locationId : Z;
  imageUrl : option string }.
End MenuBody.

Module MenuPatch.
Record t : Type := mk {
  title : option string;
  description : option string;
  price : option Z;
  category : option string;
  imageUrl : option string;
  isAvailable : option bool }.
End MenuPatch.

Module CustomizationBody.
Record t : Type := mk {
  name : string;
  price : Z;
  category : string }.
End CustomizationBody.

Module CustomizationPatch.
Record t : Type := mk {
  name : option string;
  price : option Z;
  category : option string }.
End CustomizationPatch.

(** An [optional()] field passes when it is absent. *)
Definition optional {A : Type} (check : A -> bool) (field : option A) : bool :=
  match field with
  | Some v => check v
  | None => true
  end.

(** [notEmpty()]. *)
Definition notEmpty (s : string) : bool := negb (String.eqb s "").

(** What a client sends to a catalogue route. *)
Inductive CatalogOp : Type :=
| GetLocations
| GetLocation (id : Z)
| CreateLocation (body : LocationBody.t)
| UpdateLocation (id : Z) (body : LocationPatch.t)
| DeleteLocation (id : Z)
| GetMenu (locationId : Z) (category : option string)
| GetMenuItem (id : Z)
| CreateMenuItem (body : MenuBody.t)
| UpdateMenuItem (id : Z) (body : MenuPatch.t)
| DeleteMenuItem (id : Z)
| AddCustomization (menuId : Z) (body : CustomizationBody.t)
| UpdateCustomization (customizationId : Z) (body : CustomizationPatch.t)
| DeleteCustomization (customizationId : Z)
| GetCategories (locationId : Z).

Record CatalogRequest : Type := mkCatalogRequest {
  catalog_time : Z;
  catalog_authorization : option string;
  catalog_op : CatalogOp }.


(** A request to an order route: a creation, or a request on stored
    orders. *)
Inductive OrderOp : Type :=
| OpCreate (sched : Schedule) (body : CreateOrderBody.t)
| OpStored (op : LifecycleOp).

Record OrderRequest : Type := mkOrderRequest {
  order_time : Z;
  order_authorization : option string;
  order_op : OrderOp }.



Section OtherRoutes.

Variable JWT_SECRET : option string.                        (* process.env.JWT_SECRET *)
Variable jwt_verify : string -> string -> option AuthUser.  (* jwt.verify(token, secret) *)
Variable jwt_sign : AuthUser -> string -> string.           (* jwt.sign(payload, secret, options) *)
Variable bcrypt_hash : string -> string.                    (* bcrypt.hash(password, 12) *)
Variable bcrypt_compare : string -> string -> bool.         (* bcrypt.compare(password, hash) *)
Variable isEmail : string -> bool.                          (* express-validator isEmail() *)
Variable normalizeEmail : string -> string.                 (* express-validator normalizeEmail() *)
Variable trim : string -> string.                           (* express-validator trim() *)
Variable isMobilePhone : string -> bool.                    (* express-validator isMobilePhone('any') *)
Variable isURL : string -> bool.                            (* express-validator isURL() *)
Variable Date_parse : string -> option Z.                   (* new Date(s), when it is a valid date *)

(** *** The middleware in a chain *)

Definition Middleware : Type := AuthRequest -> Result AuthRequest.

(** [authenticateToken] as a middleware: [req.user = decoded; next()]. *)
Definition useAuthenticateToken : Middleware :=
  fun req =>
    await decoded <- authenticateToken JWT_SECRET jwt_verify (header_authorization req);
    Ok (mkAuthRequest (header_authorization req) (Some decoded)).

(** [requireRole(roles)] as a middleware. *)
Definition useRequireRole (roles : list string) : Middleware :=
  fun req =>
    await passed <- requireRole roles (req_user req);
    Ok req.

Definition useRequireAdmin : Middleware := useRequireRole [UserRole.ADMIN].

(** The middleware of a route, run in the order it is registered in; the
    first rejection answers the request. *)
Fixpoint next (chain : list Middleware) (req : AuthRequest) : Result AuthRequest :=
  match chain with
  | [] => Ok req
  | m :: rest => await req' <- m req; next rest req'
  end.

(** *** Sequences of requests to the order routes *)

(** The store after a request to an order route. *)
Definition serve (r : OrderRequest) (db : DB) : DB :=
  match order_op r with
  | OpCreate sched body =>
      store (createOrder JWT_SECRET jwt_verify sched (order_time r) (order_authorization r)
                         body db)
  | OpStored op =>
      handle JWT_SECRET jwt_verify (mkRequest (order_time r) (order_authorization r) op) db
  end.

Definition serveAll (rs : list OrderRequest) (db : DB) : DB :=
  fold_left (fun d r => serve r d) rs db.

(** *** routes/auth: login, profile, change-password *)

(** [POST /login]. *)
Definition login (body : LoginBody.t) (db : DB) : Answer (UserView * string) :=
  if negb (isEmail (LoginBody.email body) && notEmpty (LoginBody.password body))
  then Failed (createError "Invalid email or password" 400)
  else
    let email := normalizeEmail (LoginBody.email body) in
    match findUserByEmail db email with
    | None => Failed (createError "Invalid email or password" 401)
    | Some user =>
        if negb (bcrypt_compare (LoginBody.password body) (User.password user))
        then Failed (createError "Invalid email or password" 401)
        else
          match JWT_SECRET with
          | None => Failed (createError "JWT_SECRET is not configured" 500)
          | Some jwtSecret =>
              Replied (viewOf user,
                       jwt_sign (mkAuthUser (User.id user) (User.email user) (User.role user))
                                jwtSecret)
          end
    end.

(** [GET /profile]. *)
Definition getProfile (authorization : option string) (db : DB)
    : Answer (UserView * list ProfileOrder) :=
  match next [useAuthenticateToken] (incoming authorization) with
  | Err e => Failed (Raised e)
  | Ok req =>
      match req_user req with
      | None => Failed (Raised NullDereference)
      | Some caller =>
          match findUserById db (auth_id caller) with
          | None => Failed (createError "User not found" 404)
          | Some user =>
              Replied (viewOf user, map (profileOrder db) (recentOrders db (User.id user)))
          end
      end
  end.

(** [PUT /profile].  Its chain has sanitizers only, so [validationResult]
    is always empty. *)
Definition updateProfile (now : Z) (authorization : option string) (body : ProfileBody.t)
    (db : DB) : Answer UserView * DB :=
  match next [useAuthenticateToken] (incoming authorization) with
  | Err e => (Failed (Raised e), db)
  | Ok req =>
      match req_user req with
      | None => (Failed (Raised NullDereference), db)
      | Some caller =>
          match user_update (auth_id caller)
                  (withProfile (option_map trim (ProfileBody.firstName body))
                               (option_map trim (ProfileBody.lastName body))
                               (option_map trim (ProfileBody.phone body)) now) db with
          | Err e => (Failed (Raised e), db)
          | Ok (user, db') => (Replied (viewOf user), db')
          end
      end
  end.

(** [PUT /change-password]. *)
Definition changePassword (now : Z) (authorization : option string) (body : PasswordBody.t)
    (db : DB) : Answer unit * DB :=
  match next [useAuthenticateToken] (incoming authorization) with
  | Err e => (Failed (Raised e), db)
  | Ok req =>
      match req_user req with
      | None => (Failed (Raised NullDereference), db)
      | Some caller =>
          if negb (notEmpty (PasswordBody.currentPassword body)
                   && (6 <=? String.length (PasswordBody.newPassword body))%nat)
          then (Failed (createError "Validation failed" 400), db)
          else
            match findUserById db (auth_id caller) with
            | None => (Failed (createError "User not found" 404), db)
            | Some user =>
                if negb (bcrypt_compare (PasswordBody.currentPassword body)
                                        (User.password user))
                then (Failed (createError "Current password is incorrect" 400), db)
                else
                  let hashedNewPassword := bcrypt_hash (PasswordBody.newPassword body) in
                  match user_update (auth_id caller) (withPassword hashedNewPassword now) db with
                  | Err e => (Failed (Raised e), db)
                  | Ok (_, db') => (Replied tt, db')
                  end
            end
      end
  end.

(** What a client sends to the account routes. *)
Inductive AccountOp : Type :=
| Register (body : RegisterBody.t)
| Login (body : LoginBody.t)
| GetProfile
| UpdateProfile (body : ProfileBody.t)
| ChangePassword (body : PasswordBody.t).

Record AccountRequest : Type := mkAccountRequest {
  account_time : Z;
  account_authorization : option string;
  account_op : AccountOp }.

(** The store after an account request. *)
Definition account (r : AccountRequest) (db : DB) : DB :=
  match account_op r with
  | Register body =>
      snd (register JWT_SECRET jwt_sign bcrypt_hash isEmail normalizeEmail trim
                    (account_time r) (account_authorization r) body db)
  | Login _ => db
  | GetProfile => db
  | UpdateProfile body => snd (updateProfile (account_time r) (account_authorization r) body db)
  | ChangePassword body => snd (changePassword (account_time r) (account_authorization r) body db)
  end.

Definition accounts (rs : list AccountRequest) (db : DB) : DB :=
  fold_left (fun d r => account r d) rs db.

(** *** routes/locations *)

(** [GET /]. *)
Definition getLocations (authorization : option string) (cat : Catalog.t)
    : Answer (list LocationView) :=
  match next [useAuthenticateToken] (incoming authorization) with
  | Err e => Failed (Raised e)
  | Ok _ =>
      Replied (map (viewLocation true cat)
                   (orderBy (fun a b => Catalog.Location.createdAt a
                                        <=? Catalog.Location.createdAt b)
                            (filter Catalog.Location.isActive (Catalog.locations cat))))
  end.

(** [GET /:id]. *)
Definition getLocation (authorization : option string) (id : Z) (cat : Catalog.t)
    : Answer LocationView :=
  match next [useAuthenticateToken] (incoming authorization) with
  | Err e => Failed (Raised e)
  | Ok _ =>
      match find (fun l => (Catalog.Location.id l =? id) && Catalog.Location.isActive l)
                 (Catalog.locations cat) with
      | None => Failed (createError "Location not found" 404)
      | Some location => Replied (viewLocation false cat location)
      end
  end.

(** The handler of [POST /]. *)
Definition createLocationHandler (now : Z) (body : LocationBody.t) (cat : Catalog.t)
    : Answer Catalog.Location.t * Catalog.t :=
  if negb (notEmpty (LocationBody.name body)
           && notEmpty (LocationBody.address body)
           && optional isMobilePhone (LocationBody.phone body)
           && optional isEmail (LocationBody.email body))
  then (Failed (createError "Validation failed" 400), cat)
  else
    let location :=
      Catalog.Location.mk
        (autoincrement (map Catalog.Location.id (Catalog.locations cat)))
        (trim (LocationBody.name body)) (trim (LocationBody.address body))
        (LocationBody.phone body) (option_map normalizeEmail (LocationBody.email body))
        true now now in
    (Replied location, set_locations cat (Catalog.locations cat ++ [location])).

(** [POST /]: [requireAdmin] is the only middleware of the route. *)
Definition createLocation (now : Z) (authorization : option string) (body : LocationBody.t)
    (cat : Catalog.t) : Answer Catalog.Location.t * Catalog.t :=
  match next [useRequireAdmin] (incoming authorization) with
  | Err e => (Failed (Raised e), cat)
  | Ok _ => createLocationHandler now body cat
  end.

Definition patchLocation (body : LocationPatch.t) (now : Z) (l : Catalog.Location.t)
    : Catalog.Location.t :=
  Catalog.Location.mk (Catalog.Location.id l)
    (orKeep (option_map trim (LocationPatch.name body)) (Catalog.Location.name l))
    (orKeep (option_map trim (LocationPatch.address body)) (Catalog.Location.address l))
    (orKeepNullable (LocationPatch.phone body) (Catalog.Location.phone l))
    (orKeepNullable (option_map normalizeEmail (LocationPatch.email body))
                    (Catalog.Location.email l))
    (Catalog.Location.isActive l) (Catalog.Location.createdAt l) now.

(** The handler of [PUT /:id]. *)
Definition updateLocationHandler (now : Z) (id : Z) (body : LocationPatch.t) (cat : Catalog.t)
    : Answer Catalog.Location.t * Catalog.t :=
  if negb (optional isMobilePhone (LocationPatch.phone body)
           && optional isEmail (LocationPatch.email body))
  then (Failed (createError "Validation failed" 400), cat)
  else
    match update_row Catalog.Location.id id (patchLocation body now) (Catalog.locations cat) with
    | None => (Failed (Raised PrismaRecordNotFound), cat)
    | Some (location, ls) => (Replied location, set_locations cat ls)
    end.

(** [PUT /:id]. *)
Definition updateLocation (now : Z) (authorization : option string) (id : Z)
    (body : LocationPatch.t) (cat : Catalog.t) : Answer Catalog.Location.t * Catalog.t :=
  match next [useRequireAdmin] (incoming authorization) with
  | Err e => (Failed (Raised e), cat)
  | Ok _ => updateLocationHandler now id body cat
  end.

Definition deactivated (now : Z) (l : Catalog.Location.t) : Catalog.Location.t :=
  Catalog.Location.mk (Catalog.Location.id l) (Catalog.Location.name l)
    (Catalog.Location.address l) (Catalog.Location.phone l) (Catalog.Location.email l)
    false (Catalog.Location.createdAt l) now.

(** The handler of [DELETE /:id]: the row stays, with [isActive] false. *)
Definition deleteLocationHandler (now : Z) (id : Z) (cat : Catalog.t)
    : Answer unit * Catalog.t :=
  match update_row Catalog.Location.id id (deactivated now) (Catalog.locations cat) with
  | None => (Failed (Raised PrismaRecordNotFound), cat)
  | Some (_, ls) => (Replied tt, set_locations cat ls)
  end.

(** [DELETE /:id]. *)
Definition deleteLocation (now : Z) (authorization : option string) (id : Z) (cat : Catalog.t)
    : Answer unit * Catalog.t :=
  match next [useRequireAdmin] (incoming authorization) with
  | Err e => (Failed (Raised e), cat)
  | Ok _ => deleteLocationHandler now id cat
  end.

(** *** routes/menu *)

(** [GET /location/:locationId]: no middleware. *)
Definition getMenu (locationId : Z) (category : option string) (cat : Catalog.t)
    : list MenuView :=
  map (viewMenu cat)
      (orderBy byCategoryThenTitle (filter (onMenu locationId category) (Catalog.menus cat))).

(** [GET /:id]: the item with its customizations and the id and name of
    its location. *)
Definition getMenuItem (id : Z) (cat : Catalog.t) : Answer (MenuView * option (Z * string)) :=
  match findMenuRow cat id with
  | None => Failed (createError "Menu item not found" 404)
  | Some menuItem =>
      Replied (viewMenu cat menuItem,
               option_map (fun l => (Catalog.Location.id l, Catalog.Location.name l))
                          (findLocationRow cat (Catalog.Menu.locationId menuItem)))
  end.

(** [GET /location/:locationId/categories]. *)
Definition getCategories (locationId : Z) (cat : Catalog.t) : list string :=
  distinct (map Catalog.Menu.category
                (orderBy (fun a b => String.leb (Catalog.Menu.category a)
                                                (Catalog.Menu.category b))
                         (filter (onMenu locationId None) (Catalog.menus cat)))).

(** The handler of [POST /]. *)
Definition createMenuItemHandler (now : Z) (body : MenuBody.t) (cat : Catalog.t)
    : Answer MenuView * Catalog.t :=
  if negb (notEmpty (MenuBody.title body)
           && notEmpty (MenuBody.description body)
           && (0 <=? MenuBody.price body)
           && notEmpty (MenuBody.category body)
           && optional isURL (MenuBody.imageUrl body))
  then (Failed (createError "Validation failed" 400), cat)
  else
    match findLocationRow cat (MenuBody.locationId body) with
    | None => (Failed (createError "Location not found" 404), cat)
    | Some _ =>
        let menuItem :=
          Catalog.Menu.mk (autoincrement (map Catalog.Menu.id (Catalog.menus cat)))
            (trim (MenuBody.title body)) (trim (MenuBody.description body))
            (MenuBody.price body) (trim (MenuBody.category body))
            (MenuBody.imageUrl body) true (MenuBody.locationId body) now now in
        let cat' := set_menus cat (Catalog.menus cat ++ [menuItem]) in
        (Replied (viewMenu cat' menuItem), cat')
    end.

(** [POST /]. *)
Definition createMenuItem (now : Z) (authorization : option string) (body : MenuBody.t)
    (cat : Catalog.t) : Answer MenuView * Catalog.t :=
  match next [useRequireAdmin] (incoming authorization) with
  | Err e => (Failed (Raised e), cat)
  | Ok _ => createMenuItemHandler now body cat
  end.

Definition patchMenu (body : MenuPatch.t) (now : Z) (m : Catalog.Menu.t) : Catalog.Menu.t :=
  Catalog.Menu.mk (Catalog.Menu.id m)
    (orKeep (option_map trim (MenuPatch.title body)) (Catalog.Menu.title m))
    (orKeep (option_map trim (MenuPatch.description body)) (Catalog.Menu.description m))
    (orKeep (MenuPatch.price body) (Catalog.Menu.price m))
    (orKeep (option_map trim (MenuPatch.category body)) (Catalog.Menu.category m))
    (orKeepNullable (MenuPatch.imageUrl body) (Catalog.Menu.imageUrl m))
    (orKeep (MenuPatch.isAvailable body) (Catalog.Menu.isAvailable m))
    (Catalog.Menu.locationId m) (Catalog.Menu.createdAt m) now.

(** The handler of [PUT /:id]. *)
Definition updateMenuItemHandler (now : Z) (id : Z) (body : MenuPatch.t) (cat : Catalog.t)
    : Answer MenuView * Catalog.t :=
  if negb (optional (fun price => 0 <=? price) (MenuPatch.price body)
           && optional isURL (MenuPatch.imageUrl body))
  then (Failed (createError "Validation failed" 400), cat)
  else
    match update_row Catalog.Menu.id id (patchMenu body now) (Catalog.menus cat) with
    | None => (Failed (Raised PrismaRecordNotFound), cat)
    | Some (menuItem, ms) =>
        let cat' := set_menus cat ms in
        (Replied (viewMenu cat' menuItem), cat')
    end.

(** [PUT /:id]. *)
Definition updateMenuItem (now : Z) (authorization : option string) (id : Z)
    (body : MenuPatch.t) (cat : Catalog.t) : Answer MenuView * Catalog.t :=
  match next [useRequireAdmin] (incoming authorization) with
  | Err e => (Failed (Raised e), cat)
  | Ok _ => updateMenuItemHandler now id body cat
  end.

Definition withdrawn (now : Z) (m : Catalog.Menu.t) : Catalog.Menu.t :=
  Catalog.Menu.mk (Catalog.Menu.id m) (Catalog.Menu.title m) (Catalog.Menu.description m)
    (Catalog.Menu.price m) (Catalog.Menu.category m) (Catalog.Menu.imageUrl m)
    false (Catalog.Menu.locationId m) (Catalog.Menu.createdAt m) now.

(** The handler of [DELETE /:id]: the row stays, with [isAvailable]
    false. *)
Definition deleteMenuItemHandler (now : Z) (id : Z) (cat : Catalog.t)
    : Answer unit * Catalog.t :=
  match update_row Catalog.Menu.id id (withdrawn now) (Catalog.menus cat) with
  | None => (Failed (Raised PrismaRecordNotFound), cat)
  | Some (_, ms) => (Replied tt, set_menus cat ms)
  end.

(** [DELETE /:id]. *)
Definition deleteMenuItem (now : Z) (authorization : option string) (id : Z) (cat : Catalog.t)
    : Answer unit * Catalog.t :=
  match next [useRequireAdmin] (incoming authorization) with
  | Err e => (Failed (Raised e), cat)
  | Ok _ => deleteMenuItemHandler now id cat
  end.

(** The handler of [POST /:id/customizations]. *)
Definition addCustomizationHandler (now : Z) (menuId : Z) (body : CustomizationBody.t)
    (cat : Catalog.t) : Answer Catalog.Customization.t * Catalog.t :=
  if negb (notEmpty (CustomizationBody.name body)
           && (0 <=? CustomizationBody.price body)
           && notEmpty (CustomizationBody.category body))
  then (Failed (createError "Validation failed" 400), cat)
  else
    match findMenuRow cat menuId with
    | None => (Failed (createError "Menu item not found" 404), cat)
    | Some _ =>
        let id := 1 + Z.max (Catalog.customization_seq cat)
                            (fold_right Z.max 0
                               (map Catalog.Customization.id (Catalog.customizations cat))) in
        let customization :=
          Catalog.Customization.mk id (trim (CustomizationBody.name body))
            (CustomizationBody.price body) (trim (CustomizationBody.category body))
            menuId now now in
        (Replied customization,
         set_customizations cat (Catalog.customizations cat ++ [customization]) id)
    end.

(** [POST /:id/customizations]. *)
Definition addCustomization (now : Z) (authorization : option string) (menuId : Z)
    (body : CustomizationBody.t) (cat : Catalog.t)
    : Answer Catalog.Customization.t * Catalog.t :=
  match next [useRequireAdmin] (incoming authorization) with
  | Err e => (Failed (Raised e), cat)
  | Ok _ => addCustomizationHandler now menuId body cat
  end.

Definition patchCustomization (body : CustomizationPatch.t) (now : Z)
    (c : Catalog.Customization.t) : Catalog.Customization.t :=
  Catalog.Customization.mk (Catalog.Customization.id c)
    (orKeep (option_map trim (CustomizationPatch.name body)) (Catalog.Customization.name c))
    (orKeep (CustomizationPatch.price body) (Catalog.Customization.price c))
    (orKeep (option_map trim (CustomizationPatch.category body))
            (Catalog.Customization.category c))
    (Catalog.Customization.menuId c) (Catalog.Customization.createdAt c) now.

(** The handler of [PUT /customizations/:customizationId]. *)
Definition updateCustomizationHandler (now : Z) (customizationId : Z)
    (body : CustomizationPatch.t) (cat : Catalog.t)
    : Answer Catalog.Customization.t * Catalog.t :=
  if negb (optional (fun price => 0 <=? price) (CustomizationPatch.price body))
  then (Failed (createError "Validation failed" 400), cat)
  else
    match update_row Catalog.Customization.id customizationId (patchCustomization body now)
                     (Catalog.customizations cat) with
    | None => (Failed (Raised PrismaRecordNotFound), cat)
    | Some (customization, cs) =>
        (Replied customization, set_customizations cat cs (Catalog.customization_seq cat))
    end.

(** [PUT /customizations/:customizationId]. *)
Definition updateCustomization (now : Z) (authorization : option string) (customizationId : Z)
    (body : CustomizationPatch.t) (cat : Catalog.t)
    : Answer Catalog.Customization.t * Catalog.t :=
  match next [useRequireAdmin] (incoming authorization) with
  | Err e => (Failed (Raised e), cat)
  | Ok _ => updateCustomizationHandler now customizationId body cat
  end.

(** The handler of [DELETE /customizations/:customizationId]:
    [prisma.customization.delete] rejects when there is no such row, and
    when an order line still references the row (ON DELETE RESTRICT). *)
Definition deleteCustomizationHandler (customizationId : Z) (cat : Catalog.t)
    : Answer unit * Catalog.t :=
  match find (fun c => Catalog.Customization.id c =? customizationId)
             (Catalog.customizations cat) with
  | None => (Failed (Raised PrismaRecordNotFound), cat)
  | Some _ =>
      if existsb (Z.eqb customizationId) (Catalog.referenced cat)
      then (Failed (Raised PrismaForeignKeyViolation), cat)
      else
        (Replied tt,
         set_customizations cat
           (filter (fun c => negb (Catalog.Customization.id c =? customizationId))
                   (Catalog.customizations cat))
           (Z.max (Catalog.customization_seq cat)
                  (fold_right Z.max 0
                     (map Catalog.Customization.id (Catalog.customizations cat)))))
  end.

(** [DELETE /customizations/:customizationId]. *)
Definition deleteCustomization (authorization : option string) (customizationId : Z)
    (cat : Catalog.t) : Answer unit * Catalog.t :=
  match next [useRequireAdmin] (incoming authorization) with
  | Err e => (Failed (Raised e), cat)
  | Ok _ => deleteCustomizationHandler customizationId cat
  end.

(** The catalogue after a request to a catalogue route. *)
Definition catalog (r : CatalogRequest) (cat : Catalog.t) : Catalog.t :=
  let now := catalog_time r in
  let authorization := catalog_authorization r in
  match catalog_op r with
  | GetLocations => cat
  | GetLocation _ => cat
  | CreateLocation body => snd (createLocation now authorization body cat)
  | UpdateLocation id body => snd (updateLocation now authorization id body cat)
  | DeleteLocation id => snd (deleteLocation now authorization id cat)
  | GetMenu _ _ => cat
  | GetMenuItem _ => cat
  | CreateMenuItem body => snd (createMenuItem now authorization body cat)
  | UpdateMenuItem id body => snd (updateMenuItem now authorization id body cat)
  | DeleteMenuItem id => snd (deleteMenuItem now authorization id cat)
  | AddCustomization menuId body => snd (addCustomization now authorization menuId body cat)
  | UpdateCustomization id body => snd (updateCustomization now authorization id body cat)
  | DeleteCustomization id => snd (deleteCustomization authorization id cat)
  | GetCategories _ => cat
  end.

Definition catalogs (rs : list CatalogRequest) (cat : Catalog.t) : Catalog.t :=
  fold_left (fun c r => catalog r c) rs cat.

(** *** routes/analytics: the analytics of a location *)

(** [GET /location/:locationId], mounted in [index] behind
    [authenticateToken]: the rows of the location dated from [startDate] to
    [endDate], oldest first. *)
Definition getLocationAnalytics (authorization : option string) (locationId : Z)
    (startDate endDate : option string) (rows : list Analytics.t)
    : Answer (list Analytics.t) :=
  match next [useAuthenticateToken; useAuthenticateToken; useRequireAdmin]
             (incoming authorization) with
  | Err e => Failed (Raised e)
  | Ok _ =>
      match truthy_string startDate, truthy_string endDate with
      | Some startDate, Some endDate =>
          match Date_parse startDate, Date_parse endDate with
          | Some gte, Some lte =>
              Replied (orderBy (fun a b => Analytics.date a <=? Analytics.date b)
                         (filter (fun a => (Analytics.locationId a =? locationId)
                                           && (gte <=? Analytics.date a)
                                           && (Analytics.date a <=? lte))
                                 rows))
          | _, _ => Failed (Raised PrismaValidationError)
          end
      | _, _ => Failed (createError "Start date and end date are required" 400)
      end
  end.

End OtherRoutes.

(** ** A sample catalogue and more sample requests *)

Module Fixture.

Definition ada : AuthUser := mkAuthUser 5 "ada@example.com" UserRole.ADMIN.

(** The tokens of the sample store, and Ada's: she is an ADMIN and has no
    row in the sample store. *)
Definition verify (token secret : string) : option AuthUser :=
  if String.eqb token "ada" then Some ada else Sample.verify token secret.

Definition asAda : option string := Some "Bearer ada"%string.

(** A hash is accepted for the password it was made from. *)
Definition compare (password hashed : string) : bool :=
  String.eqb hashed (Sample.hash password).

Definition noPhone (_ : string) : bool := false.
Definition anyURL (_ : string) : bool := true.

Definition parseDate (s : string) : option Z :=
  if String.eqb s "2025-01-01" then Some 100
  else if String.eqb s "2025-01-31" then Some 250
  else None.

(** Downtown (1) and Harbour (2) are active, Harbour the older; Closed (3)
    is not active.  Downtown sells a burger and a wrap (Mains), fries
    (Sides) and a soup (Starters) that is not available; Harbour sells a
    pizza (Mains). *)
Definition catalogue : Catalog.t :=
  Catalog.mk
    [ Catalog.Location.mk 1 "Downtown" "1 Main St" None None true 20 20;
      Catalog.Location.mk 2 "Harbour" "2 Quay" None None true 10 10;
      Catalog.Location.mk 3 "Closed" "3 Back Lane" None None false 5 30 ]
    [ Catalog.Menu.mk 1 "Wrap" "A wrap" 900 "Mains" None true 1 20 20;
      Catalog.Menu.mk 2 "Pizza" "A pizza" 1200 "Mains" None true 2 20 20;
      Catalog.Menu.mk 3 "Soup" "A soup" 500 "Starters" None false 1 20 20;
      Catalog.Menu.mk 4 "Fries" "Fries" 300 "Sides" None true 1 20 20;
      Catalog.Menu.mk 5 "Burger" "A burger" 1000 "Mains" None true 1 20 20 ]
    [ Catalog.Customization.mk 1 "Cheese" 200 "Extras" 5 20 20 ]
    1
    [ 1 ].

Definition analytics : list Analytics.t :=
  [ Analytics.mk 1 1 200 12 24000 2000 None None 200;
    Analytics.mk 2 2 150 7 7000 1000 None None 150;
    Analytics.mk 3 1 100 10 15000 1500 None None 100;
    Analytics.mk 4 1 300 9 9000 1000 None None 300 ].

Definition eve : RegisterBody.t :=
  RegisterBody.mk "eve@example.com" "letmein" None None None None.

End Fixture.

(** * Properties *)

(** ** Promise.all *)

Lemma settle_order_In (sched : list nat) (n i : nat) :
  In i (settle_order sched n) <-> (i < n)%nat.
Proof.
  unfold settle_order. rewrite in_app_iff, nodup_In, !filter_In, in_seq.
  rewrite Nat.ltb_lt, negb_true_iff. split.
  - intros [[_ H] | [[_ H] _]]; lia.
  - intros Hlt.
    destruct (existsb (Nat.eqb i)
                (nodup Nat.eq_dec (filter (fun j => (j <? n)%nat) sched))) eqn:E.
    + left. apply existsb_exists in E. destruct E as [x [Hin Heq]].
      apply Nat.eqb_eq in Heq. subst x.
      apply nodup_In, filter_In in Hin. tauto.
    + right. split; [lia | reflexivity].
Qed.

Lemma settle_order_NoDup (sched : list nat) (n : nat) : NoDup (settle_order sched n).
Proof.
  unfold settle_order. apply NoDup_app.
  - apply NoDup_nodup.
  - apply NoDup_filter, seq_NoDup.
  - intros a Ha Hb. apply filter_In in Hb. destruct Hb as [_ Hb].
    apply negb_true_iff in Hb.
    assert (existsb (Nat.eqb a)
              (nodup Nat.eq_dec (filter (fun j => (j <? n)%nat) sched)) = true) as E.
    { apply existsb_exists. exists a. split; [exact Ha | apply Nat.eqb_refl]. }
    congruence.
Qed.

(** Every schedule denotes a settling order of all [n] callbacks, each once. *)
Lemma settle_order_perm (sched : list nat) (n : nat) :
  Permutation (settle_order sched n) (seq 0 n).
Proof.
  apply NoDup_Permutation.
  - apply settle_order_NoDup.
  - apply seq_NoDup.
  - intros i. rewrite settle_order_In, in_seq. lia.
Qed.

Lemma rejections_In (A : Type) (order : list nat) (rs : list (Result A)) (e : HttpError) :
  In e (rejections order rs) -> In (Err e) rs.
Proof.
  unfold rejections. rewrite in_flat_map. intros [i [_ Hi]].
  destruct (nth_error rs i) as [[v | e'] |] eqn:E; simpl in Hi; try contradiction.
  destruct Hi as [-> | []]. eapply nth_error_In; eauto.
Qed.

Lemma rejections_complete (A : Type) (sched : list nat) (rs : list (Result A)) (e : HttpError) :
  In (Err e) rs -> In e (rejections (settle_order sched (List.length rs)) rs).
Proof.
  intros Hin. apply In_nth_error in Hin. destruct Hin as [i Hi].
  unfold rejections. apply in_flat_map. exists i. split.
  - apply settle_order_In. apply nth_error_Some. congruence.
  - rewrite Hi. left. reflexivity.
Qed.

Lemma fulfilled_map_Ok (A : Type) (vs : list A) : fulfilled (map Ok vs) = vs.
Proof.
  induction vs as [| v vs IH]; simpl; [reflexivity | f_equal; exact IH].
Qed.

Lemma all_fulfilled (A : Type) (rs : list (Result A)) :
  (forall e, ~ In (Err e) rs) -> rs = map Ok (fulfilled rs).
Proof.
  induction rs as [| [v | e] rs IH]; intros H; simpl.
  - reflexivity.
  - f_equal. apply IH. intros e He. apply (H e). right. exact He.
  - exfalso. apply (H e). left. reflexivity.
Qed.

(** A rejected [Promise.all] carries the rejection of one of its promises. *)
Lemma Promise_all_Err (A : Type) (sched : list nat) (rs : list (Result A)) (e : HttpError) :
  Promise_all sched rs = Err e -> In (Err e) rs.
Proof.
  unfold Promise_all.
  destruct (rejections (settle_order sched (List.length rs)) rs) as [| e' l] eqn:E;
    intros H; inversion H; subst.
  apply (@rejections_In A (settle_order sched (List.length rs))).
  rewrite E. left. reflexivity.
Qed.

(** A fulfilled [Promise.all] means every promise was fulfilled. *)
Lemma Promise_all_Ok (A : Type) (sched : list nat) (rs : list (Result A)) (vs : list A) :
  Promise_all sched rs = Ok vs -> rs = map Ok vs.
Proof.
  unfold Promise_all.
  destruct (rejections (settle_order sched (List.length rs)) rs) as [| e' l] eqn:E;
    intros H; inversion H; subst.
  apply all_fulfilled. intros e He.
  apply (rejections_complete A sched) in He. rewrite E in He. exact He.
Qed.

(** When no promise is rejected, whatever the schedule, [Promise.all] is
    fulfilled with the values in list order. *)
Lemma Promise_all_fulfilled (A : Type) (sched : list nat) (vs : list A) :
  Promise_all sched (map Ok vs) = Ok vs.
Proof.
  unfold Promise_all.
  destruct (rejections (settle_order sched (List.length (map Ok vs))) (map Ok vs))
    as [| e l] eqn:E.
  - rewrite fulfilled_map_Ok. reflexivity.
  - assert (In (Err e) (map (@Ok A) vs)) as Hin.
    { apply (@rejections_In A (settle_order sched (List.length (map Ok vs)))).
      rewrite E. left. reflexivity. }
    apply in_map_iff in Hin. destruct Hin as [v [Hv _]]. discriminate.
Qed.

(** When some promise is rejected, whatever the schedule, so is
    [Promise.all]. *)
Lemma Promise_all_rejected (A : Type) (sched : list nat) (rs : list (Result A)) (e : HttpError) :
  In (Err e) rs -> exists e', Promise_all sched rs = Err e' /\ In (Err e') rs.
Proof.
  intros Hin. destruct (Promise_all sched rs) as [vs | e'] eqn:E.
  - apply Promise_all_Ok in E. subst rs.
    apply in_map_iff in Hin. destruct Hin as [v [Hv _]]. discriminate.
  - exists e'. split; [reflexivity |]. apply (Promise_all_Err A sched). exact E.
Qed.

(** ** Sums *)

Lemma sum_perm (l1 l2 : list Z) : Permutation l1 l2 -> sum l1 = sum l2.
Proof.
  induction 1; simpl; lia.
Qed.

Lemma fold_left_add (B : Type) (g : B -> Z) (l : list B) (a : Z) :
  fold_left (fun t x => t + g x) l a = a + sum (map g l).
Proof.
  revert a. induction l as [| x l IH]; intros a; simpl; [lia | rewrite IH; lia].
Qed.

Lemma fold_left_pointwise (A B : Type) (f g : A -> B -> A) (l : list B) (a : A) :
  (forall t x, f t x = g t x) -> fold_left f l a = fold_left g l a.
Proof.
  intros H. revert a. induction l as [| x l IH]; intros a; simpl; [reflexivity |].
  rewrite H. apply IH.
Qed.

Lemma reduce_sum_sum (costs : list Z) : reduce_sum costs = sum costs.
Proof.
  unfold reduce_sum. rewrite (fold_left_add Z (fun c => c)), map_id. lia.
Qed.

Lemma map_nth_error_seq (A B : Type) (h : option A -> B) (l : list A) :
  map (fun i => h (nth_error l i)) (seq 0 (List.length l)) = map (fun x => h (Some x)) l.
Proof.
  induction l as [| a l IH]; simpl; [reflexivity |].
  f_equal. rewrite <- seq_shift, map_map. simpl. exact IH.
Qed.

(** The total accumulated by the fulfilled callbacks does not depend on the
    order in which they settled. *)
Lemma accumulate_total_fulfilled (sched : list nat) (ps : list PricedItem) :
  accumulate_total (settle_order sched (List.length (map (@Ok PricedItem) ps))) (map Ok ps)
  = sum (map itemTotal ps).
Proof.
  unfold accumulate_total.
  set (g := fun i => match nth_error (map (@Ok PricedItem) ps) i with
                     | Some (Ok p) => itemTotal p
                     | _ => 0
                     end).
  rewrite (fold_left_pointwise _ _ _ (fun t i => t + g i)).
  - rewrite fold_left_add. simpl.
    rewrite (sum_perm _ _ (Permutation_map g (settle_order_perm sched _))).
    unfold g.
    rewrite (map_nth_error_seq _ _
               (fun o => match o with Some (Ok p) => itemTotal p | _ => 0 end)).
    rewrite map_map. reflexivity.
  - intros t i. unfold g.
    destruct (nth_error (map (@Ok PricedItem) ps) i) as [[p | e] |]; lia.
Qed.

(** ** The store *)

Lemma matches_byId (id : Z) (o : Order.t) : matches (byId id) o = (Order.id o =? id).
Proof.
  unfold matches, byId, matches_opt. simpl. rewrite !andb_true_r. reflexivity.
Qed.

Lemma find_pointwise (A : Type) (f g : A -> bool) (l : list A) :
  (forall x, f x = g x) -> find f l = find g l.
Proof.
  intros H. induction l as [| x l IH]; simpl; [reflexivity |].
  rewrite H, IH. reflexivity.
Qed.

Lemma findOrder_byId (db : DB) (id : Z) :
  findOrder db (byId id) = find (fun o => Order.id o =? id) (orders db).
Proof.
  unfold findOrder. apply find_pointwise. intros o. apply matches_byId.
Qed.

Lemma sameButStatus_refl (o : Order.t) : sameButStatus o o.
Proof. repeat split. Qed.

Lemma sameButStatus_trans (o1 o2 o3 : Order.t) :
  sameButStatus o1 o2 -> sameButStatus o2 o3 -> sameButStatus o1 o3.
Proof.
  unfold sameButStatus. intuition congruence.
Qed.

Lemma sameButStatus_withStatus (o : Order.t) (status : string) (now : Z) :
  sameButStatus o (withStatus o status now).
Proof. repeat split. Qed.

Lemma update_status_none (now id : Z) (status : string) (os : list Order.t) :
  find (fun o => Order.id o =? id) os = None -> update_status now id status os = None.
Proof.
  induction os as [| o os IH]; simpl; [reflexivity |].
  destruct (Order.id o =? id); [discriminate |].
  intros H. rewrite (IH H). reflexivity.
Qed.

(** An update rewrites the first row with the id, and only that row. *)
Lemma update_status_some (now id : Z) (status : string) (os : list Order.t) (o : Order.t) :
  find (fun o => Order.id o =? id) os = Some o ->
  exists os',
    update_status now id status os = Some (withStatus o status now, os')
    /\ find (fun o => Order.id o =? id) os' = Some (withStatus o status now)
    /\ forall id', id' <> id ->
         find (fun o => Order.id o =? id') os' = find (fun o => Order.id o =? id') os.
Proof.
  induction os as [| x os IH]; simpl; [discriminate |].
  destruct (Order.id x =? id) eqn:E.
  - intros H. inversion H; subst x. eexists. split; [reflexivity |]. split.
    + simpl. rewrite E. reflexivity.
    + intros id' Hne. simpl.
      apply Z.eqb_eq in E. replace (Order.id o =? id') with false; [reflexivity |].
      symmetry. apply Z.eqb_neq. lia.
  - intros H. destruct (IH H) as [os' [Hu [Hf Hother]]].
    exists (x :: os'). rewrite Hu. split; [reflexivity |]. split.
    + simpl. rewrite E. exact Hf.
    + intros id' Hne. simpl. rewrite (Hother id' Hne). reflexivity.
Qed.

(** [order_update] on a stored order. *)
Lemma order_update_some (now id : Z) (status : string) (db : DB) (o : Order.t) :
  findOrder db (byId id) = Some o ->
  exists db',
    order_update now id status db = Ok (withStatus o status now, db')
    /\ findOrder db' (byId id) = Some (withStatus o status now)
    /\ (forall id', id' <> id -> findOrder db' (byId id') = findOrder db (byId id'))
    /\ users db' = users db /\ locations db' = locations db /\ menus db' = menus db
    /\ customizations db' = customizations db
    /\ orderItems db' = orderItems db
    /\ orderItemCustomizations db' = orderItemCustomizations db.
Proof.
  rewrite findOrder_byId. intros H.
  destruct (update_status_some now id status _ _ H) as [os' [Hu [Hf Hother]]].
  exists (set_orders db os'). unfold order_update. rewrite Hu.
  split; [reflexivity |]. split.
  - rewrite findOrder_byId. exact Hf.
  - split; [| repeat split].
    intros id' Hne. rewrite !findOrder_byId. apply Hother. exact Hne.
Qed.

(** [order_update] when no order has the id. *)
Lemma order_update_none (now id : Z) (status : string) (db : DB) :
  findOrder db (byId id) = None -> order_update now id status db = Err PrismaRecordNotFound.
Proof.
  rewrite findOrder_byId. intros H. unfold order_update.
  rewrite (update_status_none now id status _ H). reflexivity.
Qed.

(** ** The role gate and the cancel guard *)

Section Routes.

Variable JWT_SECRET : option string.
Variable jwt_verify : string -> string -> option AuthUser.

Lemma includes_In (l : list string) (x : string) : includes l x = true <-> In x l.
Proof.
  unfold includes. rewrite existsb_exists. split.
  - intros [y [Hin Heq]]. apply String.eqb_eq in Heq. subst y. exact Hin.
  - intros Hin. exists x. split; [exact Hin | apply String.eqb_refl].
Qed.

Lemma requireKitchenOrAdmin_allows (user : AuthUser) :
  auth_role user = UserRole.KITCHEN \/ auth_role user = UserRole.ADMIN ->
  requireKitchenOrAdmin (Some user) = Ok tt.
Proof.
  intros H. unfold requireKitchenOrAdmin, requireRole.
  replace (includes [UserRole.KITCHEN; UserRole.ADMIN] (auth_role user)) with true;
    [reflexivity |].
  symmetry. apply includes_In. simpl. intuition.
Qed.

Lemma requireKitchenOrAdmin_refuses (user : AuthUser) :
  auth_role user <> UserRole.KITCHEN -> auth_role user <> UserRole.ADMIN ->
  requireKitchenOrAdmin (Some user) = Err InsufficientPermissions.
Proof.
  intros Hk Ha. unfold requireKitchenOrAdmin, requireRole.
  destruct (includes [UserRole.KITCHEN; UserRole.ADMIN] (auth_role user)) eqn:E;
    [| reflexivity].
  apply includes_In in E. simpl in E. intuition congruence.
Qed.

(** [setStatus] on a stored order and a status of the enumeration: the
    status is written whatever the order's status was. *)
Lemma setStatus_stored (now orderId : Z) (status : string) (db : DB) (o : Order.t) :
  In status [OrderStatus.PENDING; OrderStatus.IN_PROGRESS;
             OrderStatus.COMPLETED; OrderStatus.CANCELLED] ->
  findOrder db (byId orderId) = Some o ->
  exists db',
    setStatus now orderId status db
    = (Ok (hydrate false db' (withStatus o status now)), db',
       [ mkEmit (io_to (location_room (Order.locationId o))) "orderStatusUpdated"
                (OrderPayload (Some (hydrate false db' (withStatus o status now))));
         mkEmit (io_to (user_room (Order.userId o))) "orderStatusUpdated"
                (OrderPayload (Some (hydrate false db' (withStatus o status now)))) ])
    /\ order_update now orderId status db = Ok (withStatus o status now, db').
Proof.
  intros Hin Hfind. unfold setStatus.
  apply includes_In in Hin. rewrite Hin. simpl.
  destruct (order_update_some now orderId status db o Hfind) as [db' [Hu _]].
  exists db'. rewrite Hu. split; reflexivity.
Qed.

(** C4.  Set-status is gated on the caller's role and on nothing else: a
    caller whose role is neither KITCHEN nor ADMIN is refused with status 403
    and the store is left as it was; for a KITCHEN or ADMIN caller and a
    status among PENDING, IN_PROGRESS, COMPLETED, CANCELLED, the stored
    order takes that status, whatever its status was before. *)
Theorem set_status_role_gate
    (now : Z) (authorization : option string) (user : AuthUser)
    (orderId : Z) (status : string) (db : DB) :
  authenticateToken JWT_SECRET jwt_verify authorization = Ok user ->
  let out := updateOrderStatus JWT_SECRET jwt_verify now authorization orderId status db in
  (auth_role user <> UserRole.KITCHEN -> auth_role user <> UserRole.ADMIN ->
     response out = Err InsufficientPermissions
     /\ Forbidden InsufficientPermissions
     /\ store out = db /\ pushes out = [])
  /\ (auth_role user = UserRole.KITCHEN \/ auth_role user = UserRole.ADMIN ->
      In status [OrderStatus.PENDING; OrderStatus.IN_PROGRESS;
                 OrderStatus.COMPLETED; OrderStatus.CANCELLED] ->
      forall o, findOrder db (byId orderId) = Some o ->
        exists o',
          response out = Ok (hydrate false (store out) o')
          /\ findOrder (store out) (byId orderId) = Some o'
          /\ Order.status o' = status
          /\ sameButStatus o o').
Proof.
  intros Hauth out. subst out. unfold updateOrderStatus. rewrite Hauth. split.
  - intros Hk Ha. rewrite (requireKitchenOrAdmin_refuses user Hk Ha).
    repeat split.
  - intros Hrole Hin o Hfind. rewrite (requireKitchenOrAdmin_allows user Hrole).
    destruct (setStatus_stored now orderId status db o Hin Hfind) as [db' [Hs Hu]].
    rewrite Hs. exists (withStatus o status now). simpl.
    destruct (order_update_some now orderId status db o Hfind) as [db2 [Hu2 [Hf _]]].
    rewrite Hu in Hu2. inversion Hu2; subst db2.
    repeat split. exact Hf.
Qed.


End Routes.

(** ** Reading orders *)

Lemma matches_visibleTo (user : AuthUser) (w : OrderWhere) (o : Order.t) :
  matches (visibleTo user w) o = true ->
  matches_opt Z.eqb (where_id w) (Order.id o) = true
  /\ (auth_role user = UserRole.CUSTOMER -> Order.userId o = auth_id user).
Proof.
  unfold visibleTo, matches.
  destruct (String.eqb (auth_role user) UserRole.CUSTOMER) eqn:E; simpl; intros H.
  - apply andb_true_iff in H. destruct H as [H _].
    apply andb_true_iff in H. destruct H as [H _].
    apply andb_true_iff in H. destruct H as [Hid Hu].
    split; [exact Hid |]. intros _. apply Z.eqb_eq. exact Hu.
  - apply String.eqb_neq in E.
    apply andb_true_iff in H. destruct H as [H _].
    apply andb_true_iff in H. destruct H as [H _].
    apply andb_true_iff in H. destruct H as [Hid _].
    split; [exact Hid |]. intros Hc. congruence.
Qed.

Lemma findOrder_visibleTo_none (user : AuthUser) (db : DB) (orderId : Z) :
  findOrder db (byId orderId) = None -> findOrder db (visibleTo user (byId orderId)) = None.
Proof.
  unfold findOrder. intros Hnone.
  destruct (find (matches (visibleTo user (byId orderId))) (orders db)) as [o |] eqn:E;
    [| reflexivity].
  apply find_some in E. destruct E as [Hin Hm].
  apply matches_visibleTo in Hm. destruct Hm as [Hid _]. simpl in Hid.
  assert (matches (byId orderId) o = true) as Hb by (rewrite matches_byId; exact Hid).
  rewrite (find_none _ _ Hnone o Hin) in Hb. discriminate.
Qed.

Lemma insert_desc_In (o x : Order.t) (l : list Order.t) :
  In x (insert_desc o l) -> x = o \/ In x l.
Proof.
  induction l as [| y l IH]; simpl.
  - intros [H | []]. left. congruence.
  - destruct (Order.createdAt y <=? Order.createdAt o); simpl.
    + intros [H | H]; [left; congruence | right; exact H].
    + intros [H | H]; [right; left; exact H |].
      destruct (IH H) as [H' | H']; [left; exact H' | right; right; exact H'].
Qed.

Lemma orderBy_createdAt_desc_In (x : Order.t) (l : list Order.t) :
  In x (orderBy_createdAt_desc l) -> In x l.
Proof.
  unfold orderBy_createdAt_desc. induction l as [| y l IH]; simpl; [tauto |].
  intros H. apply insert_desc_In in H. destruct H as [H | H]; [left; congruence |].
  right. apply IH. exact H.
Qed.

Lemma firstn_skipn_In (A : Type) (n m : nat) (l : list A) (x : A) :
  In x (firstn n (skipn m l)) -> In x l.
Proof.
  intros H. rewrite <- (firstn_skipn m l). apply in_or_app. right.
  rewrite <- (firstn_skipn n (skipn m l)). apply in_or_app. left. exact H.
Qed.

Lemma paginate_In (A : Type) (skip take : Z) (rows page : list A) (x : A) :
  paginate skip take rows = Ok page -> In x page -> In x rows.
Proof.
  unfold paginate. destruct (skip <? 0); [discriminate |].
  destruct (take <? 0); intros H; inversion H; subst page; intros Hin.
  - apply in_rev, firstn_skipn_In in Hin. apply in_rev. exact Hin.
  - apply firstn_skipn_In in Hin. exact Hin.
Qed.

(** The rows of [findMany] satisfy its [where] clause. *)
Lemma findManyOrders_matches (db : DB) (w : OrderWhere) (skip take : Z)
    (found : list Order.t) (o : Order.t) :
  findManyOrders db w skip take = Ok found -> In o found ->
  In o (orders db) /\ matches w o = true.
Proof.
  unfold findManyOrders. intros H Hin.
  apply (paginate_In _ _ _ _ _ _ H) in Hin.
  apply orderBy_createdAt_desc_In, filter_In in Hin. exact Hin.
Qed.

Section Reading.

Variable JWT_SECRET : option string.
Variable jwt_verify : string -> string -> option AuthUser.

(** A CUSTOMER who lists orders is shown only orders of their own. *)
Lemma getOrders_own (authorization : option string) (user : AuthUser)
    (q : OrdersQuery.t) (db : DB) (page : list HydratedOrder) (n : Z) :
  authenticateToken JWT_SECRET jwt_verify authorization = Ok user ->
  auth_role user = UserRole.CUSTOMER ->
  response (getOrders JWT_SECRET jwt_verify authorization q db) = Ok (page, n) ->
  Forall (fun h => Order.userId (order h) = auth_id user) page.
Proof.
  intros Hauth Hrole. unfold getOrders, listOrders. rewrite Hauth.
  match goal with
  | |- context [findManyOrders db ?w ?s ?t] =>
      destruct (findManyOrders db w s t) as [found | e] eqn:E
  end; simpl; intros H; inversion H; subst.
  apply Forall_forall. intros h Hh. apply in_map_iff in Hh.
  destruct Hh as [o [Ho Hin]]. subst h. simpl.
  destruct (findManyOrders_matches _ _ _ _ _ _ E Hin) as [_ Hm].
  apply matches_visibleTo in Hm. apply Hm. exact Hrole.
Qed.

(** A CUSTOMER who fetches an order is shown it only when it is their own. *)
Lemma getOrder_own (authorization : option string) (user : AuthUser)
    (orderId : Z) (db : DB) (h : HydratedOrder) :
  authenticateToken JWT_SECRET jwt_verify authorization = Ok user ->
  auth_role user = UserRole.CUSTOMER ->
  response (getOrder JWT_SECRET jwt_verify authorization orderId db) = Ok h ->
  Order.userId (order h) = auth_id user /\ Order.id (order h) = orderId.
Proof.
  intros Hauth Hrole. unfold getOrder, fetchOrder. rewrite Hauth.
  destruct (findOrder db (visibleTo user (byId orderId))) as [o |] eqn:E;
    simpl; intros H; inversion H; subst. simpl.
  unfold findOrder in E. apply find_some in E. destruct E as [_ Hm].
  apply matches_visibleTo in Hm. destruct Hm as [Hid Hown]. simpl in Hid.
  split; [apply Hown; exact Hrole | apply Z.eqb_eq; exact Hid].
Qed.

(** Fetching an id that no order has is OrderNotFound. *)
Lemma getOrder_missing (authorization : option string) (user : AuthUser)
    (orderId : Z) (db : DB) :
  authenticateToken JWT_SECRET jwt_verify authorization = Ok user ->
  findOrder db (byId orderId) = None ->
  getOrder JWT_SECRET jwt_verify authorization orderId db = (Err OrderNotFound, db, []).
Proof.
  intros Hauth Hnone. unfold getOrder, fetchOrder. rewrite Hauth.
  rewrite (findOrder_visibleTo_none user db orderId Hnone). reflexivity.
Qed.

(** Cancelling an id that no order has is OrderNotFound. *)
Lemma cancelOrder_missing (now : Z) (authorization : option string) (user : AuthUser)
    (orderId : Z) (db : DB) :
  authenticateToken JWT_SECRET jwt_verify authorization = Ok user ->
  findOrder db (byId orderId) = None ->
  cancelOrder JWT_SECRET jwt_verify now authorization orderId db = (Err OrderNotFound, db, []).
Proof.
  intros Hauth Hnone. unfold cancelOrder, cancel. rewrite Hauth, Hnone. reflexivity.
Qed.

(** Set-status on an id that no order has: the handler makes no lookup of
    its own, and what it throws is the rejection of [prisma.order.update]. *)
Lemma updateOrderStatus_missing (now : Z) (authorization : option string) (user : AuthUser)
    (orderId : Z) (status : string) (db : DB) :
  authenticateToken JWT_SECRET jwt_verify authorization = Ok user ->
  auth_role user = UserRole.KITCHEN \/ auth_role user = UserRole.ADMIN ->
  In status [OrderStatus.PENDING; OrderStatus.IN_PROGRESS;
             OrderStatus.COMPLETED; OrderStatus.CANCELLED] ->
  findOrder db (byId orderId) = None ->
  updateOrderStatus JWT_SECRET jwt_verify now authorization orderId status db
  = (Err PrismaRecordNotFound, db, []).
Proof.
  intros Hauth Hrole Hin Hnone. unfold updateOrderStatus, setStatus. rewrite Hauth.
  rewrite (requireKitchenOrAdmin_allows user Hrole).
  apply includes_In in Hin. rewrite Hin. simpl.
  rewrite (order_update_none now orderId status db Hnone). reflexivity.
Qed.

End Reading.

(** C7.  With no order 99 in the store, a KITCHEN caller who sets the status
    of order 99 does not get OrderNotFound: the route throws the rejection
    of [prisma.order.update], which carries no 404, where fetch and cancel
    of the same id throw OrderNotFound. *)
Theorem set_status_unknown_order :
  findOrder Sample.db (byId 99) = None
  /\ updateOrderStatus Sample.secret Sample.verify 100 Sample.asKit 99
       OrderStatus.COMPLETED Sample.db
     = (Err PrismaRecordNotFound, Sample.db, [])
  /\ statusCode PrismaRecordNotFound <> statusCode OrderNotFound
  /\ getOrder Sample.secret Sample.verify Sample.asKit 99 Sample.db
     = (Err OrderNotFound, Sample.db, [])
  /\ cancelOrder Sample.secret Sample.verify 100 Sample.asKit 99 Sample.db
     = (Err OrderNotFound, Sample.db, []).
Proof.
  repeat split; try reflexivity. discriminate.
Qed.

(** ** Pricing a cart *)

Lemma mapi_from_pointwise (A B : Type) (f : nat -> A -> B) (g : A -> B) (l : list A) (i : nat) :
  (forall j x, In x l -> f j x = g x) -> mapi_from i f l = map g l.
Proof.
  revert i. induction l as [| x l IH]; intros i H; simpl; [reflexivity |].
  rewrite (H i x (or_introl eq_refl)). f_equal. apply IH.
  intros j y Hy. apply H. right. exact Hy.
Qed.

Lemma In_mapi_from (A B : Type) (f : nat -> A -> B) (l : list A) (i : nat) (y : B) :
  In y (mapi_from i f l) -> exists j x, In x l /\ y = f j x.
Proof.
  revert i. induction l as [| x l IH]; intros i; simpl; [tauto |].
  intros [H | H].
  - exists i, x. split; [left; reflexivity | symmetry; exact H].
  - destruct (IH _ H) as [j [x' [Hin Heq]]]. exists j, x'. split; [right; exact Hin | exact Heq].
Qed.

Lemma mapi_from_In (A B : Type) (f : nat -> A -> B) (l : list A) (i : nat) (x : A) :
  In x l -> exists j, In (f j x) (mapi_from i f l).
Proof.
  revert i. induction l as [| x' l IH]; intros i; simpl; [tauto |].
  intros [H | H].
  - subst x'. exists i. left. reflexivity.
  - destruct (IH (S i) H) as [j Hj]. exists j. right. exact Hj.
Qed.

Lemma hasCustomizations_false (it : CartItem.t) :
  hasCustomizations it = false -> customizationList it = [].
Proof.
  unfold hasCustomizations, customizationList.
  destruct (CartItem.customizations it) as [[| c cs] |]; try reflexivity. discriminate.
Qed.

Lemma priceCustomization_found (db : DB) (c : CartCustomization.t) :
  isSome (findCustomization db (CartCustomization.customizationId c)) = true ->
  priceCustomization db c = Ok (customizationUnitPrice db c * effectiveQuantity c).
Proof.
  unfold priceCustomization, customizationUnitPrice, effectiveQuantity.
  destruct (findCustomization db (CartCustomization.customizationId c));
    [reflexivity | discriminate].
Qed.

(** An entry that resolves is priced at the figure of the specification,
    whatever the order in which its customization lookups settle. *)
Lemma priceItem_resolves (sched : list nat) (db : DB) (locationId : Z) (it : CartItem.t) :
  entryResolves db locationId it = true ->
  exists m,
    findAvailableMenu db (CartItem.menuId it) = Some m
    /\ Menu.locationId m = locationId
    /\ priceItem sched db locationId it = Ok (mkPricedItem it m (spec_entryTotal db it)).
Proof.
  unfold entryResolves, priceItem, spec_entryTotal, unitPrice.
  destruct (findAvailableMenu db (CartItem.menuId it)) as [m |]; [| discriminate].
  intros H. apply andb_true_iff in H. destruct H as [Hloc Hcs].
  exists m. split; [reflexivity |]. split; [apply Z.eqb_eq; exact Hloc |].
  rewrite Hloc. simpl.
  destruct (hasCustomizations it) eqn:Ehas.
  - replace (map (priceCustomization db) (customizationList it))
      with (map (@Ok Z)
              (map (fun c => customizationUnitPrice db c * effectiveQuantity c)
                   (customizationList it))).
    + rewrite Promise_all_fulfilled. simpl. rewrite reduce_sum_sum. reflexivity.
    + rewrite map_map. apply map_ext_in. intros c Hc. symmetry.
      apply priceCustomization_found.
      rewrite forallb_forall in Hcs. apply Hcs. exact Hc.
  - rewrite (hasCustomizations_false it Ehas). simpl. f_equal. f_equal. lia.
Qed.

(** The rejection of an entry whose menu item is found available at another
    location. *)
Lemma priceItem_mismatch (sched : list nat) (db : DB) (locationId : Z) (it : CartItem.t) :
  entryMismatches db locationId it = true ->
  exists m,
    findAvailableMenu db (CartItem.menuId it) = Some m
    /\ priceItem sched db locationId it = Err (LocationMismatch (Menu.title m)).
Proof.
  unfold entryMismatches, priceItem.
  destruct (findAvailableMenu db (CartItem.menuId it)) as [m |]; [| discriminate].
  intros H. exists m. rewrite H. split; reflexivity.
Qed.

(** The pricing phase of a valid cart: every callback is fulfilled and the
    accumulated total is the cart total of the specification, whatever the
    schedule. *)
Lemma pricing_valid (sched : Schedule) (db : DB) (body : CreateOrderBody.t) :
  forallb (entryResolves db (CreateOrderBody.locationId body)) (CreateOrderBody.items body)
  = true ->
  exists priced,
    mapi (fun i it => priceItem (inner sched i) db (CreateOrderBody.locationId body) it)
         (CreateOrderBody.items body)
    = map Ok priced
    /\ map item priced = CreateOrderBody.items body
    /\ Forall (fun p => findAvailableMenu db (CartItem.menuId (item p)) = Some (menuItem p)
                        /\ itemTotal p = spec_entryTotal db (item p)) priced.
Proof.
  intros Hall. rewrite forallb_forall in Hall.
  set (loc := CreateOrderBody.locationId body) in *.
  set (pick := fun it => match findAvailableMenu db (CartItem.menuId it) with
                         | Some m => mkPricedItem it m (spec_entryTotal db it)
                         | None => mkPricedItem it (Menu.mk 0 EmptyString 0 false 0) 0
                         end).
  exists (map pick (CreateOrderBody.items body)). split; [| split].
  - unfold mapi. rewrite map_map. apply mapi_from_pointwise.
    intros j it Hit.
    destruct (priceItem_resolves (inner sched j) db loc it (Hall it Hit)) as [m [Hm [_ Hp]]].
    rewrite Hp. unfold pick. rewrite Hm. reflexivity.
  - rewrite map_map. rewrite <- (map_id (CreateOrderBody.items body)) at 2.
    apply map_ext. intros it. unfold pick.
    destruct (findAvailableMenu db (CartItem.menuId it)); reflexivity.
  - apply Forall_forall. intros p Hp. apply in_map_iff in Hp.
    destruct Hp as [it [Hp Hit]]. subst p.
    destruct (priceItem_resolves [] db loc it (Hall it Hit)) as [m [Hm _]].
    unfold pick. rewrite Hm. simpl. split; [exact Hm | reflexivity].
Qed.

Lemma sum_map_ext_Forall (A : Type) (f g : A -> Z) (l : list A) :
  Forall (fun x => f x = g x) l -> sum (map f l) = sum (map g l).
Proof.
  induction 1 as [| x l Hx _ IH]; simpl; [reflexivity | rewrite Hx, IH; reflexivity].
Qed.

(** ** The creation transaction *)

Lemma autoincrement_fresh (ids : list Z) (x : Z) : In x ids -> x < autoincrement ids.
Proof.
  unfold autoincrement. induction ids as [| y ids IH]; cbn [fold_right In]; [tauto |].
  intros [H | H]; [subst; lia | specialize (IH H); lia].
Qed.

Lemma referential_integrity_spec (db : DB) :
  referential_integrity db = true ->
  linesBelongToOrders db /\ customizationsBelongToLines db.
Proof.
  unfold referential_integrity. intros H. apply andb_true_iff in H.
  destruct H as [H1 H2]. rewrite forallb_forall in H1, H2. split.
  - intros i Hi. specialize (H1 i Hi). apply existsb_exists in H1.
    destruct H1 as [o [Ho Heq]]. exists o. split; [exact Ho | apply Z.eqb_eq; exact Heq].
  - intros c Hc. specialize (H2 c Hc). apply existsb_exists in H2.
    destruct H2 as [i [Hi Heq]]. exists i. split; [exact Hi | apply Z.eqb_eq; exact Heq].
Qed.

Lemma findCustomization_stored (db : DB) (id : Z) :
  isSome (findCustomization db id) = true ->
  existsb (fun c => Customization.id c =? id) (customizations db) = true.
Proof.
  unfold findCustomization.
  destruct (find (fun c => Customization.id c =? id) (customizations db)) as [c |] eqn:E;
    [| discriminate].
  intros _. apply find_some in E. apply existsb_exists. exists c. exact E.
Qed.

Lemma findAvailableMenu_stored (db : DB) (id : Z) (m : Menu.t) :
  findAvailableMenu db id = Some m ->
  existsb (fun x => Menu.id x =? id) (menus db) = true.
Proof.
  unfold findAvailableMenu. intros E. apply find_some in E. destruct E as [Hin Hm].
  apply andb_true_iff in Hm. apply existsb_exists. exists m. tauto.
Qed.

(** The customization rows of one order line: every reference of the cart
    entry gets its snapshot row, all under the line's id. *)
Lemma createCustomizationRows_ok (orderItemId : Z) (cs : list CartCustomization.t) :
  forall db,
    existsb (fun i => OrderItem.id i =? orderItemId) (orderItems db) = true ->
    forallb (fun c => isSome (findCustomization db (CartCustomization.customizationId c))) cs
    = true ->
    exists rows,
      createCustomizationRows orderItemId cs db
      = Ok (set_orderItemCustomizations db (orderItemCustomizations db ++ rows))
      /\ Forall2 (customizationSnapshot db) cs rows
      /\ Forall (fun r => OrderItemCustomization.orderItemId r = orderItemId) rows.
Proof.
  induction cs as [| c cs IH]; intros db Hline Hcs; simpl.
  - exists []. rewrite app_nil_r. destruct db. repeat split; constructor.
  - simpl in Hcs. apply andb_true_iff in Hcs. destruct Hcs as [Hc Hcs].
    pose proof (findCustomization_stored db _ Hc) as Hstored.
    unfold customizationSnapshot, customizationUnitPrice, effectiveQuantity in *.
    destruct (findCustomization db (CartCustomization.customizationId c)) as [ci |] eqn:Eci;
      [| discriminate].
    unfold orderItemCustomization_create. rewrite Hstored, Hline. simpl.
    match goal with
    | |- context [createCustomizationRows _ _ ?d] =>
        destruct (IH d Hline Hcs) as [rows [Hrun [Hsnap Hids]]]
    end.
    rewrite Hrun. eexists (_ :: rows). split; [| split].
    + simpl. rewrite <- app_assoc. reflexivity.
    + constructor; [| exact Hsnap]. simpl. rewrite Eci. repeat split.
    + constructor; [reflexivity | exact Hids].
Qed.

Lemma filter_none (A : Type) (f : A -> bool) (l : list A) :
  (forall x, In x l -> f x = false) -> filter f l = [].
Proof.
  induction l as [| x l IH]; intros H; simpl; [reflexivity |].
  rewrite (H x (or_introl eq_refl)). apply IH. intros y Hy. apply H. right. exact Hy.
Qed.

Lemma filter_all (A : Type) (f : A -> bool) (l : list A) :
  (forall x, In x l -> f x = true) -> filter f l = l.
Proof.
  induction l as [| x l IH]; intros H; simpl; [reflexivity |].
  rewrite (H x (or_introl eq_refl)). f_equal. apply IH. intros y Hy. apply H. right. exact Hy.
Qed.

(** The customization rows written for one line, in either branch of
    [if (item.customizations && item.customizations.length > 0)]. *)
Lemma customizationRows_of_item (it : CartItem.t) (orderItemId : Z) (db : DB) :
  existsb (fun i => OrderItem.id i =? orderItemId) (orderItems db) = true ->
  forallb (fun c => isSome (findCustomization db (CartCustomization.customizationId c)))
          (customizationList it) = true ->
  exists rows,
    (if hasCustomizations it
     then createCustomizationRows orderItemId (customizationList it) db
     else Ok db)
    = Ok (set_orderItemCustomizations db (orderItemCustomizations db ++ rows))
    /\ Forall2 (customizationSnapshot db) (customizationList it) rows
    /\ Forall (fun r => OrderItemCustomization.orderItemId r = orderItemId) rows.
Proof.
  intros Hline Hcs. destruct (hasCustomizations it) eqn:E.
  - apply createCustomizationRows_ok; assumption.
  - exists []. rewrite (hasCustomizations_false it E), app_nil_r.
    destruct db. repeat split; constructor.
Qed.

Lemma createItemRows_ok (now orderId : Z) (ps : list PricedItem) :
  forall db,
    existsb (fun o => Order.id o =? orderId) (orders db) = true ->
    customizationsBelongToLines db ->
    Forall (fun p =>
              findAvailableMenu db (CartItem.menuId (item p)) = Some (menuItem p)
              /\ forallb (fun c => isSome (findCustomization db
                                             (CartCustomization.customizationId c)))
                         (customizationList (item p)) = true) ps ->
    exists db' newLines,
      createItemRows now orderId ps db = Ok db'
      /\ users db' = users db /\ locations db' = locations db /\ menus db' = menus db
      /\ customizations db' = customizations db /\ orders db' = orders db
      /\ customizationsBelongToLines db'
      /\ (forall i, In i (orderItems db') ->
            In i (orderItems db) \/ OrderItem.orderId i = orderId)
      /\ map (hydrateItem true db') (itemsOf db' orderId)
         = map (hydrateItem true db) (itemsOf db orderId) ++ newLines
      /\ Forall2 (fun p h => lineSnapshot db (item p) h) ps newLines.
Proof.
  induction ps as [| p ps IH]; intros db Horder Hint Hps.
  - exists db, []. simpl. rewrite app_nil_r. repeat split; auto.
  - inversion Hps as [| p' ps' [Hmenu Hcs] Hrest]; subst.
    simpl. unfold orderItem_create.
    rewrite (findAvailableMenu_stored db _ _ Hmenu), Horder. simpl.
    set (i := OrderItem.mk (autoincrement (map OrderItem.id (orderItems db)))
                (CartItem.quantity (item p)) (Menu.price (menuItem p))
                (CartItem.menuId (item p)) orderId now).
    set (db1 := set_orderItems db (orderItems db ++ [i])).
    assert (existsb (fun x => OrderItem.id x =? OrderItem.id i) (orderItems db1) = true)
      as Hi.
    { apply existsb_exists. exists i. split; [| apply Z.eqb_refl].
      simpl. apply in_or_app. right. left. reflexivity. }
    destruct (customizationRows_of_item (item p) (OrderItem.id i) db1 Hi Hcs)
      as [rows [Hrows [Hsnap Hids]]].
    change (autoincrement (map OrderItem.id (orderItems db))) with (OrderItem.id i).
    rewrite Hrows. cbn [bind].
    set (db2 := set_orderItemCustomizations db1 (orderItemCustomizations db1 ++ rows)).
    assert (forall x, In x (orderItems db) -> OrderItem.id x <> OrderItem.id i) as Hfresh.
    { intros x Hx. pose proof (autoincrement_fresh (map OrderItem.id (orderItems db))
                                 (OrderItem.id x) (in_map _ _ _ Hx)).
      simpl. lia. }
    assert (customizationsBelongToLines db2) as Hint2.
    { intros c Hc. simpl in Hc. apply in_app_or in Hc. destruct Hc as [Hc | Hc].
      - destruct (Hint c Hc) as [x [Hx Hid]]. exists x. split; [| exact Hid].
        simpl. apply in_or_app. left. exact Hx.
      - exists i. split.
        + simpl. apply in_or_app. right. left. reflexivity.
        + rewrite Forall_forall in Hids. symmetry. apply Hids. exact Hc. }
    destruct (IH db2 Horder Hint2 Hrest)
      as [db' [newLines [Hrun [Hu [Hl [Hm [Hc [Ho [Hint' [Hnew [Hhyd Hsnaps]]]]]]]]]]].
    exists db', (mkHydratedItem i (Some rows) :: newLines).
    rewrite Hrun. repeat split; try assumption.
    + intros x Hx. destruct (Hnew x Hx) as [Hx' | Hx']; [| right; exact Hx'].
      simpl in Hx'. apply in_app_or in Hx'. destruct Hx' as [Hx' | [Hx' | []]].
      * left. exact Hx'.
      * right. subst x. reflexivity.
    + rewrite Hhyd.
      replace (map (hydrateItem true db2) (itemsOf db2 orderId))
        with (map (hydrateItem true db) (itemsOf db orderId)
              ++ [mkHydratedItem i (Some rows)]).
      { rewrite <- app_assoc. reflexivity. }
      unfold itemsOf. change (orderItems db2) with (orderItems db ++ [i]).
      rewrite filter_app, map_app. f_equal.
      * apply map_ext_in. intros j Hj. apply filter_In in Hj. destruct Hj as [Hj _].
        unfold hydrateItem, customizationsOf. f_equal. f_equal.
        change (orderItemCustomizations db2) with (orderItemCustomizations db ++ rows).
        rewrite filter_app.
        rewrite (filter_none _ _ rows); [rewrite app_nil_r; reflexivity |].
        intros r Hr. rewrite Forall_forall in Hids. rewrite (Hids r Hr).
        apply Z.eqb_neq. intros Heq. apply (Hfresh j Hj). symmetry. exact Heq.
      * cbn [filter]. change (OrderItem.orderId i) with orderId. rewrite Z.eqb_refl.
        cbn [map]. unfold hydrateItem, customizationsOf. f_equal. f_equal. f_equal.
        change (orderItemCustomizations db2) with (orderItemCustomizations db ++ rows).
        rewrite filter_app.
        rewrite (filter_none _ _ (orderItemCustomizations db)).
        -- rewrite (filter_all _ _ rows); [reflexivity |].
           intros r Hr. rewrite Forall_forall in Hids. rewrite (Hids r Hr).
           apply Z.eqb_refl.
        -- intros c Hc0. destruct (Hint c Hc0) as [x [Hx Hid]].
           apply Z.eqb_neq. rewrite <- Hid. apply Hfresh. exact Hx.
    + constructor; [| exact Hsnaps].
      unfold lineSnapshot, unitPrice. simpl. rewrite Hmenu. repeat split.
      exists rows. split; [reflexivity | exact Hsnap].
Qed.

Lemma find_app (A : Type) (f : A -> bool) (l1 l2 : list A) :
  find f (l1 ++ l2) = match find f l1 with
                      | Some x => Some x
                      | None => find f l2
                      end.
Proof.
  induction l1 as [| x l1 IH]; simpl; [reflexivity |].
  destruct (f x); [reflexivity | exact IH].
Qed.

Lemma find_none_iff (A : Type) (f : A -> bool) (l : list A) :
  (forall x, In x l -> f x = false) -> find f l = None.
Proof.
  induction l as [| x l IH]; intros H; simpl; [reflexivity |].
  rewrite (H x (or_introl eq_refl)). apply IH. intros y Hy. apply H. right. exact Hy.
Qed.

Lemma findActiveLocation_stored (db : DB) (id : Z) :
  isSome (findActiveLocation db id) = true ->
  existsb (fun l => Location.id l =? id) (locations db) = true.
Proof.
  unfold findActiveLocation.
  destruct (find (fun l => (Location.id l =? id) && Location.isActive l) (locations db))
    as [l |] eqn:E; [| discriminate].
  intros _. apply find_some in E. destruct E as [Hin Hl].
  apply andb_true_iff in Hl. apply existsb_exists. exists l. tauto.
Qed.

(** The transaction of a creation whose cart was priced: it commits, adds
    one order row and the snapshot rows of the cart, and touches nothing
    else. *)
Lemma persistOrder_ok (now locationId userId total : Z) (ps : list PricedItem) (db : DB) :
  existsb (fun u => User.id u =? userId) (users db) = true ->
  existsb (fun l => Location.id l =? locationId) (locations db) = true ->
  linesBelongToOrders db -> customizationsBelongToLines db ->
  Forall (fun p =>
            findAvailableMenu db (CartItem.menuId (item p)) = Some (menuItem p)
            /\ forallb (fun c => isSome (findCustomization db
                                           (CartCustomization.customizationId c)))
                       (customizationList (item p)) = true) ps ->
  let newOrder := Order.mk (autoincrement (map Order.id (orders db)))
                           OrderStatus.PENDING total locationId userId now now in
  exists db',
    persistOrder now locationId userId total ps db = Ok (newOrder, db')
    /\ users db' = users db /\ locations db' = locations db /\ menus db' = menus db
    /\ customizations db' = customizations db
    /\ orders db' = orders db ++ [newOrder]
    /\ findOrder db' (byId (Order.id newOrder)) = Some newOrder
    /\ linesBelongToOrders db' /\ customizationsBelongToLines db'
    /\ Forall2 (fun p h => lineSnapshot db (item p) h) ps (items (hydrate true db' newOrder)).
Proof.
  intros Huser Hloc Hlines Hcusts Hps newOrder.
  unfold persistOrder, order_create. rewrite Huser, Hloc. cbn [andb bind fst snd].
  fold newOrder.
  set (db0 := set_orders db (orders db ++ [newOrder])).
  assert (existsb (fun o => Order.id o =? Order.id newOrder) (orders db0) = true) as Hnew.
  { apply existsb_exists. exists newOrder. split; [| apply Z.eqb_refl].
    simpl. apply in_or_app. right. left. reflexivity. }
  assert (forall o, In o (orders db) -> Order.id o <> Order.id newOrder) as Hfresh.
  { intros o Ho. pose proof (autoincrement_fresh (map Order.id (orders db))
                               (Order.id o) (in_map _ _ _ Ho)).
    simpl. lia. }
  destruct (createItemRows_ok now (Order.id newOrder) ps db0 Hnew Hcusts Hps)
    as [db' [newLines [Hrun [Hu [Hl [Hm [Hc [Ho [Hint' [Hnewrows [Hhyd Hsnaps]]]]]]]]]]].
  exists db'. rewrite Hrun. cbn [bind]. repeat split; try assumption.
  - rewrite findOrder_byId, Ho. change (orders db0) with (orders db ++ [newOrder]).
    rewrite find_app. rewrite (find_none_iff _ _ (orders db)).
    + simpl. rewrite Z.eqb_refl. reflexivity.
    + intros o Hin. apply Z.eqb_neq. apply Hfresh. exact Hin.
  - intros i Hi. rewrite Ho. change (orders db0) with (orders db ++ [newOrder]).
    destruct (Hnewrows i Hi) as [Hold | Hmine].
    + destruct (Hlines i Hold) as [o [Hin Hid]]. exists o.
      split; [apply in_or_app; left; exact Hin | exact Hid].
    + exists newOrder. split; [apply in_or_app; right; left; reflexivity |].
      symmetry. exact Hmine.
  - unfold hydrate. cbn [items]. rewrite Hhyd.
    replace (itemsOf db0 (Order.id newOrder)) with (@nil OrderItem.t); [exact Hsnaps |].
    symmetry. unfold itemsOf. apply filter_none. intros i Hi.
    destruct (Hlines i Hi) as [o [Hin Hid]]. apply Z.eqb_neq. rewrite <- Hid.
    apply Hfresh. exact Hin.
Qed.



Lemma Forall2_map_l (A B C : Type) (R : B -> C -> Prop) (f : A -> B) (l : list A) (l' : list C) :
  Forall2 (fun x y => R (f x) y) l l' -> Forall2 R (map f l) l'.
Proof.
  induction 1; simpl; constructor; assumption.
Qed.


(** Order creation with a valid cart, by a stored user, on a store whose
    foreign keys hold: whatever the schedule, the order is created PENDING
    with the cart total of the specification, its lines are the snapshots of
    the cart entries, and it is pushed to the location room as [newOrder]
    and to the caller's room as [orderCreated]. *)
Lemma placeOrder_ok (sched : Schedule) (now : Z) (user : AuthUser)
    (body : CreateOrderBody.t) (db : DB) :
  validCart db body = true ->
  storedUser db user = true ->
  referential_integrity db = true ->
  let newOrder := Order.mk (autoincrement (map Order.id (orders db)))
                           OrderStatus.PENDING (spec_cartTotal db body)
                           (CreateOrderBody.locationId body) (auth_id user) now now in
  exists db',
    placeOrder sched now user body db
    = (Ok (Some (hydrate true db' newOrder)), db',
       [ mkEmit (io_to (location_room (CreateOrderBody.locationId body))) "newOrder"
                (OrderPayload (Some (hydrate true db' newOrder)));
         mkEmit (io_to (user_room (auth_id user))) "orderCreated"
                (OrderPayload (Some (hydrate true db' newOrder))) ])
    /\ users db' = users db /\ locations db' = locations db /\ menus db' = menus db
    /\ customizations db' = customizations db
    /\ orders db' = orders db ++ [newOrder]
    /\ findOrder db' (byId (Order.id newOrder)) = Some newOrder
    /\ linesBelongToOrders db' /\ customizationsBelongToLines db'
    /\ Forall2 (lineSnapshot db) (CreateOrderBody.items body)
               (items (hydrate true db' newOrder)).
Proof.
  intros Hvalid Huser Hint newOrder.
  unfold validCart in Hvalid. apply andb_true_iff in Hvalid. destruct Hvalid as [Hvalid Hres].
  apply andb_true_iff in Hvalid. destruct Hvalid as [Hshape Hloc].
  destruct (referential_integrity_spec db Hint) as [Hlines Hcusts].
  destruct (pricing_valid sched db body Hres) as [priced [Hout [Hitems Hpriced]]].
  unfold placeOrder. rewrite Hshape. cbn [negb].
  destruct (findActiveLocation db (CreateOrderBody.locationId body)) as [l |] eqn:El;
    [| discriminate].
  assert (existsb (fun l => Location.id l =? CreateOrderBody.locationId body) (locations db)
          = true) as Hfk.
  { apply findActiveLocation_stored. rewrite El. reflexivity. }
  rewrite Hout, Promise_all_fulfilled, accumulate_total_fulfilled.
  assert (sum (map itemTotal priced) = spec_cartTotal db body) as Htotal.
  { unfold spec_cartTotal. rewrite <- Hitems, map_map. apply sum_map_ext_Forall.
    eapply Forall_impl; [| exact Hpriced]. intros p [_ Hp]. exact Hp. }
  rewrite Htotal. unfold transaction.
  assert (Forall (fun p =>
            findAvailableMenu db (CartItem.menuId (item p)) = Some (menuItem p)
            /\ forallb (fun c => isSome (findCustomization db
                                           (CartCustomization.customizationId c)))
                       (customizationList (item p)) = true) priced) as Hps.
  { apply Forall_forall. intros p Hp. rewrite Forall_forall in Hpriced.
    destruct (Hpriced p Hp) as [Hm _]. split; [exact Hm |].
    rewrite forallb_forall in Hres.
    assert (In (item p) (CreateOrderBody.items body)) as Hin.
    { rewrite <- Hitems. apply in_map. exact Hp. }
    specialize (Hres _ Hin). unfold entryResolves in Hres. rewrite Hm in Hres.
    apply andb_true_iff in Hres. tauto. }
  destruct (persistOrder_ok now (CreateOrderBody.locationId body) (auth_id user)
              (spec_cartTotal db body) priced db Huser Hfk Hlines Hcusts Hps)
    as [db' [Hrun [Hu [Hl [Hm [Hc [Ho [Hfind [Hlines' [Hcusts' Hsnaps]]]]]]]]]].
  fold newOrder in Hrun, Ho, Hfind, Hsnaps.
  exists db'. rewrite Hrun, Hfind. cbn [option_map].
  repeat split; try assumption.
  rewrite <- Hitems. apply Forall2_map_l. exact Hsnaps.
Qed.

(** ** Creating orders *)

Lemma map_Ok_inv (A B : Type) (f : A -> Result B) (l : list A) (vs : list B) :
  map f l = map Ok vs -> forall x, In x l -> exists v, f x = Ok v.
Proof.
  revert vs. induction l as [| a l IH]; intros vs H x Hx; [contradiction |].
  destruct vs as [| v vs]; [discriminate |]. simpl in H. inversion H.
  destruct Hx as [<- | Hx]; [exists v; assumption | eapply IH; eassumption].
Qed.

Lemma mapi_from_Ok_inv (A B : Type) (f : nat -> A -> Result B) (l : list A) :
  forall (i : nat) (vs : list B),
    mapi_from i f l = map Ok vs -> forall x, In x l -> exists j v, f j x = Ok v.
Proof.
  induction l as [| a l IH]; intros i vs H x Hx; [contradiction |].
  destruct vs as [| v vs]; [discriminate |]. simpl in H. inversion H.
  destruct Hx as [<- | Hx]; [exists i, v; assumption | eapply IH; eassumption].
Qed.

(** An entry whose callback is fulfilled resolves. *)
Lemma priceItem_Ok (sched : list nat) (db : DB) (locationId : Z) (it : CartItem.t)
    (p : PricedItem) :
  priceItem sched db locationId it = Ok p -> entryResolves db locationId it = true.
Proof.
  unfold priceItem, entryResolves.
  destruct (findAvailableMenu db (CartItem.menuId it)) as [m |]; [| discriminate].
  destruct (Menu.locationId m =? locationId); cbn [negb andb]; [| discriminate].
  destruct (hasCustomizations it) eqn:Ehas.
  - destruct (Promise_all sched (map (priceCustomization db) (customizationList it)))
      as [costs |] eqn:Eall; [| discriminate].
    intros _. apply Promise_all_Ok in Eall. apply forallb_forall. intros c Hc.
    destruct (map_Ok_inv _ _ _ _ _ Eall c Hc) as [v Hv].
    unfold priceCustomization in Hv.
    destruct (findCustomization db (CartCustomization.customizationId c));
      [reflexivity | discriminate].
  - intros _. rewrite (hasCustomizations_false it Ehas). reflexivity.
Qed.

(** A creation that answers had a valid cart and a stored caller. *)
Lemma placeOrder_Ok_valid (sched : Schedule) (now : Z) (user : AuthUser)
    (body : CreateOrderBody.t) (db : DB) (completeOrder : option HydratedOrder) :
  response (placeOrder sched now user body db) = Ok completeOrder ->
  validCart db body = true /\ storedUser db user = true.
Proof.
  unfold placeOrder, validCart.
  destruct (validCreateBody body); cbn [negb andb]; [| discriminate].
  destruct (findActiveLocation db (CreateOrderBody.locationId body)); [| discriminate].
  cbn [isSome].
  destruct (Promise_all _ _) as [menuItems |] eqn:Eall; [| discriminate].
  unfold transaction, persistOrder, order_create, storedUser.
  destruct (existsb (fun u => User.id u =? auth_id user) (users db));
    cbn [andb bind]; [| discriminate].
  intros _. split; [| reflexivity].
  apply Promise_all_Ok in Eall. apply forallb_forall. intros it Hit.
  destruct (mapi_from_Ok_inv _ _ _ _ _ _ Eall it Hit) as [j [p Hp]].
  apply (priceItem_Ok _ _ _ _ _ Hp).
Qed.

(** The writes of the transaction touch the three order tables only. *)
Lemma createCustomizationRows_frame (orderItemId : Z) (cs : list CartCustomization.t) :
  forall db db',
    createCustomizationRows orderItemId cs db = Ok db' ->
    users db' = users db /\ locations db' = locations db /\ menus db' = menus db
    /\ customizations db' = customizations db /\ orders db' = orders db
    /\ orderItems db' = orderItems db.
Proof.
  induction cs as [| c cs IH]; intros db db' H; simpl in H.
  - inversion H; subst. repeat split.
  - destruct (findCustomization db (CartCustomization.customizationId c)); [| discriminate].
    unfold orderItemCustomization_create in H.
    destruct (_ && _); [| discriminate]. cbn [bind snd] in H.
    apply IH in H. exact H.
Qed.

Lemma createItemRows_frame (now orderId : Z) (ps : list PricedItem) :
  forall db db',
    createItemRows now orderId ps db = Ok db' ->
    users db' = users db /\ locations db' = locations db /\ menus db' = menus db
    /\ customizations db' = customizations db /\ orders db' = orders db.
Proof.
  induction ps as [| p ps IH]; intros db db' H; simpl in H.
  - inversion H; subst. repeat split.
  - unfold orderItem_create in H.
    destruct (_ && _); [| discriminate]. cbn [bind fst snd] in H.
    destruct (hasCustomizations (item p)).
    + match type of H with
      | context [createCustomizationRows ?i ?cs ?d] =>
          destruct (createCustomizationRows i cs d) as [db1 |] eqn:E; [| discriminate]
      end.
      cbn [bind] in H. apply IH in H.
      apply createCustomizationRows_frame in E. simpl in E. intuition congruence.
    + cbn [bind] in H. apply IH in H. exact H.
Qed.

(** A transaction that commits appended one order row, of status PENDING,
    under a fresh id. *)
Lemma persistOrder_frame (now locationId userId total : Z) (ps : list PricedItem)
    (db db' : DB) (newOrder : Order.t) :
  persistOrder now locationId userId total ps db = Ok (newOrder, db') ->
  newOrder = Order.mk (autoincrement (map Order.id (orders db)))
                      OrderStatus.PENDING total locationId userId now now
  /\ users db' = users db /\ locations db' = locations db /\ menus db' = menus db
  /\ customizations db' = customizations db
  /\ orders db' = orders db ++ [newOrder]
  /\ findOrder db' (byId (Order.id newOrder)) = Some newOrder.
Proof.
  unfold persistOrder, order_create.
  destruct (_ && _); [| discriminate]. cbn [bind fst snd].
  match goal with
  | |- context [createItemRows ?n ?i ?l ?d] =>
      destruct (createItemRows n i l d) as [db1 |] eqn:E; [| discriminate]
  end.
  cbn [bind]. intros H. inversion H; subst. clear H.
  apply createItemRows_frame in E. simpl in E.
  destruct E as [Hu [Hl [Hm [Hc Ho]]]].
  repeat split; try assumption.
  rewrite findOrder_byId, Ho, find_app. rewrite (find_none_iff _ _ (orders db)).
  - simpl. rewrite Z.eqb_refl. reflexivity.
  - intros o Hin. apply Z.eqb_neq.
    pose proof (autoincrement_fresh (map Order.id (orders db)) (Order.id o)
                  (in_map _ _ _ Hin)).
    simpl. lia.
Qed.

(** The order a creation answers with is the stored order read back. *)
Lemma placeOrder_Ok_stored (sched : Schedule) (now : Z) (user : AuthUser)
    (body : CreateOrderBody.t) (db : DB) (completeOrder : option HydratedOrder) :
  response (placeOrder sched now user body db) = Ok completeOrder ->
  exists o,
    completeOrder = Some (hydrate true (store (placeOrder sched now user body db)) o)
    /\ findOrder (store (placeOrder sched now user body db)) (byId (Order.id o)) = Some o
    /\ orders (store (placeOrder sched now user body db)) = orders db ++ [o]
    /\ Order.status o = OrderStatus.PENDING
    /\ Order.userId o = auth_id user
    /\ Order.locationId o = CreateOrderBody.locationId body.
Proof.
  unfold placeOrder.
  destruct (validCreateBody body); cbn [negb]; [| discriminate].
  destruct (findActiveLocation db (CreateOrderBody.locationId body)); [| discriminate].
  destruct (Promise_all _ _) as [menuItems |]; [| discriminate].
  unfold transaction.
  match goal with
  | |- context [persistOrder ?n ?l ?u ?t ?ps ?d] =>
      destruct (persistOrder n l u t ps d) as [[o db'] |] eqn:E; [| discriminate]
  end.
  cbn [response store fst snd]. intros H. inversion H; subst. clear H.
  destruct (persistOrder_frame _ _ _ _ _ _ _ _ E) as [Hnew [_ [_ [_ [_ [Ho Hfind]]]]]].
  exists o. rewrite Hfind. cbn [option_map].
  repeat split; try assumption; rewrite Hnew; reflexivity.
Qed.

Lemma NoDup_map_eq (A B : Type) (f : A -> B) (l : list A) (x y : A) :
  NoDup (map f l) -> In x l -> In y l -> f x = f y -> x = y.
Proof.
  induction l as [| a l IH]; simpl; [tauto |].
  intros Hnd Hx Hy Heq. inversion Hnd as [| b l' Hnotin Hnd']; subst.
  destruct Hx as [Hx | Hx]; destruct Hy as [Hy | Hy].
  - congruence.
  - subst a. exfalso. apply Hnotin. rewrite Heq. apply in_map. exact Hy.
  - subst a. exfalso. apply Hnotin. rewrite <- Heq. apply in_map. exact Hx.
  - apply IH; assumption.
Qed.

(** With [Menu.id] a primary key, the entry of another location either is
    not found available or is found at that other location: its callback
    is rejected. *)
Lemma priceItem_other_location (sched : list nat) (db : DB) (locationId : Z) (it : CartItem.t) :
  menuIdsUnique db ->
  entryOfOtherLocation db locationId it = true ->
  exists e, priceItem sched db locationId it = Err e
            /\ (entryResolves db locationId it = false).
Proof.
  unfold menuIdsUnique, entryOfOtherLocation, priceItem, entryResolves.
  intros Huniq Hother.
  destruct (findMenu db (CartItem.menuId it)) as [m |] eqn:Em; [| discriminate].
  destruct (findAvailableMenu db (CartItem.menuId it)) as [m' |] eqn:Em'.
  - assert (m' = m) as Heq.
    { unfold findMenu in Em. unfold findAvailableMenu in Em'.
      apply find_some in Em. apply find_some in Em'.
      destruct Em as [Hin Hid]. destruct Em' as [Hin' Hid'].
      apply andb_true_iff in Hid'. destruct Hid' as [Hid' _].
      apply (NoDup_map_eq _ _ Menu.id (menus db)); try assumption.
      apply Z.eqb_eq in Hid, Hid'. congruence. }
    subst m'. rewrite Hother. simpl.
    apply negb_true_iff in Hother. rewrite Hother.
    eexists. split; reflexivity.
  - eexists. split; reflexivity.
Qed.

(** A creation one of whose pricing callbacks is rejected is rejected
    before anything is written: by the validation chain, by the location
    lookup, or with the rejection of one of the callbacks. *)
Lemma placeOrder_rejected (sched : Schedule) (now : Z) (user : AuthUser)
    (body : CreateOrderBody.t) (db : DB) (it : CartItem.t) :
  In it (CreateOrderBody.items body) ->
  (forall s, exists e, priceItem s db (CreateOrderBody.locationId body) it = Err e) ->
  exists e,
    placeOrder sched now user body db = (Err e, db, [])
    /\ ((validCreateBody body = false /\ e = ValidationFailed)
        \/ (findActiveLocation db (CreateOrderBody.locationId body) = None
            /\ e = LocationNotFound)
        \/ exists s it', In it' (CreateOrderBody.items body)
                         /\ priceItem s db (CreateOrderBody.locationId body) it' = Err e).
Proof.
  intros Hin Hrej. unfold placeOrder.
  destruct (validCreateBody body); cbn [negb];
    [| exists ValidationFailed; split; [reflexivity | left; split; reflexivity]].
  destruct (findActiveLocation db (CreateOrderBody.locationId body));
    [| exists LocationNotFound; split; [reflexivity | right; left; split; reflexivity]].
  set (outcomes := mapi (fun i it0 => priceItem (inner sched i) db
                                         (CreateOrderBody.locationId body) it0)
                        (CreateOrderBody.items body)).
  assert (exists e, In (Err e) outcomes) as [e0 He0].
  { destruct (mapi_from_In _ _
                (fun i it0 => priceItem (inner sched i) db
                                (CreateOrderBody.locationId body) it0)
                (CreateOrderBody.items body) 0%nat it Hin) as [j Hj].
    destruct (Hrej (inner sched j)) as [e He]. exists e.
    cbv beta in Hj. rewrite He in Hj. exact Hj. }
  destruct (Promise_all_rejected _ (outer sched) outcomes e0 He0) as [e [Hall He]].
  rewrite Hall. exists e. split; [reflexivity |]. right. right.
  apply In_mapi_from in He. destruct He as [j [it' [Hit' Heq]]].
  exists (inner sched j), it'. split; [exact Hit' | symmetry; exact Heq].
Qed.

(** An entry whose id names no menu item, or only unavailable ones, is
    rejected with ItemNotFound. *)
Lemma priceItem_unavailable (sched : list nat) (db : DB) (locationId : Z) (it : CartItem.t) :
  (forall m, In m (menus db) -> Menu.id m = CartItem.menuId it ->
             Menu.isAvailable m = false) ->
  priceItem sched db locationId it = Err (ItemNotFound (CartItem.menuId it)).
Proof.
  intros H. unfold priceItem, findAvailableMenu.
  rewrite find_none_iff; [reflexivity |].
  intros m Hm. destruct (Menu.id m =? CartItem.menuId it) eqn:E; [| reflexivity].
  apply Z.eqb_eq in E. rewrite (H m Hm E). reflexivity.
Qed.

Section Creation.

Variable JWT_SECRET : option string.
Variable jwt_verify : string -> string -> option AuthUser.


(** C2 (amended).  With [Menu.id] a primary key, a cart with an entry whose
    menu item belongs to another location than the target is always
    rejected, nothing is written and nothing is pushed.  The rejection is
    LocationMismatch when the request passes the validation chain, the
    target location is active, and every entry either resolves or has its
    menu item available at another location. *)
Theorem other_location_item_rejected
    (sched : Schedule) (now : Z) (authorization : option string)
    (body : CreateOrderBody.t) (db : DB) :
  menuIdsUnique db ->
  existsb (entryOfOtherLocation db (CreateOrderBody.locationId body))
          (CreateOrderBody.items body) = true ->
  let out := createOrder JWT_SECRET jwt_verify sched now authorization body db in
  (exists e, response out = Err e)
  /\ store out = db /\ pushes out = []
  /\ (isOk (authenticateToken JWT_SECRET jwt_verify authorization) = true ->
      validCreateBody body = true ->
      isSome (findActiveLocation db (CreateOrderBody.locationId body)) = true ->
      forallb (fun it => entryResolves db (CreateOrderBody.locationId body) it
                         || entryMismatches db (CreateOrderBody.locationId body) it)
              (CreateOrderBody.items body) = true ->
      exists title, response out = Err (LocationMismatch title)).
Proof.
  intros Huniq Hother out. subst out.
  apply existsb_exists in Hother. destruct Hother as [it [Hin Hit]].
  unfold createOrder.
  destruct (authenticateToken JWT_SECRET jwt_verify authorization) as [user | e0].
  - assert (forall s, exists e,
              priceItem s db (CreateOrderBody.locationId body) it = Err e) as Hrej.
    { intros s. destruct (priceItem_other_location s db _ it Huniq Hit) as [e [He _]].
      exists e. exact He. }
    destruct (placeOrder_rejected sched now user body db it Hin Hrej) as [e [Hrun Hwhy]].
    rewrite Hrun. cbn [response store pushes fst snd].
    split; [exists e; reflexivity |]. split; [reflexivity |]. split; [reflexivity |].
    intros _ Hshape Hloc Hall.
    destruct Hwhy as [[Hbad _] | [[Hnone _] | [s [it' [Hin' He]]]]].
    + congruence.
    + rewrite Hnone in Hloc. discriminate.
    + rewrite forallb_forall in Hall. specialize (Hall it' Hin').
      apply orb_true_iff in Hall. destruct Hall as [Hres | Hmis].
      * destruct (priceItem_resolves s db _ it' Hres) as [m [_ [_ Hok]]]. congruence.
      * destruct (priceItem_mismatch s db _ it' Hmis) as [m [_ Hm]].
        exists (Menu.title m). congruence.
  - cbn [response store pushes reject fst snd].
    split; [exists e0; reflexivity |]. split; [reflexivity |]. split; [reflexivity |].
    intros H. discriminate.
Qed.

(** C5 (amended).  Resolving a cart entry fails with the one error
    ItemNotFound (status 404) both when no menu item has the entry's id and
    when the menu item with that id has its availability flag false; a cart
    made of that entry alone, well-formed and for an active location, is
    rejected with that error and nothing is written. *)
Theorem unavailable_item_not_found
    (sched : Schedule) (now : Z) (authorization : option string) (user : AuthUser)
    (locationId : Z) (it : CartItem.t) (db : DB) :
  (forall m, In m (menus db) -> Menu.id m = CartItem.menuId it ->
             Menu.isAvailable m = false) ->
  (forall s loc, priceItem s db loc it = Err (ItemNotFound (CartItem.menuId it)))
  /\ statusCode (ItemNotFound (CartItem.menuId it)) = Some 404
  /\ (authenticateToken JWT_SECRET jwt_verify authorization = Ok user ->
      (1 <= CartItem.quantity it) ->
      isSome (findActiveLocation db locationId) = true ->
      createOrder JWT_SECRET jwt_verify sched now authorization
                  (CreateOrderBody.mk locationId [it]) db
      = (Err (ItemNotFound (CartItem.menuId it)), db, [])).
Proof.
  intros Hnone. split; [| split].
  - intros s loc. apply priceItem_unavailable. exact Hnone.
  - reflexivity.
  - intros Hauth Hq Hloc. unfold createOrder. rewrite Hauth.
    set (body := CreateOrderBody.mk locationId [it]).
    assert (forall s, exists e,
              priceItem s db (CreateOrderBody.locationId body) it = Err e) as Hrej.
    { intros s. eexists. apply priceItem_unavailable. exact Hnone. }
    destruct (placeOrder_rejected sched now user body db it (or_introl eq_refl) Hrej)
      as [e [Hrun Hwhy]].
    rewrite Hrun. destruct Hwhy as [[Hbad _] | [[Hno _] | [s [it' [Hin' He]]]]].
    + unfold validCreateBody in Hbad. simpl in Hbad.
      apply Z.leb_le in Hq. rewrite Hq in Hbad. discriminate.
    + simpl in Hno. rewrite Hno in Hloc. discriminate.
    + destruct Hin' as [<- | []].
      rewrite (priceItem_unavailable s db _ it Hnone) in He. congruence.
Qed.

End Creation.

(** ** Customization quantities *)




Section Pushes.

Variable JWT_SECRET : option string.
Variable jwt_verify : string -> string -> option AuthUser.


(** C8 (amended).  The pushes of the order routes.  A creation that
    answers pushes [newOrder] to the room of the order's location and
    [orderCreated] to the room of the caller, who owns the order, both with
    the stored order read back with its lines and their customization
    lines.  A set-status that answers pushes [orderStatusUpdated], and a
    cancel that answers pushes [orderCancelled], to the room of the order's
    location and to the room of its owner, with the updated order read back
    with its lines.  A request that is rejected pushes nothing.  The socket
    handlers push two relays and nothing else: [orderStatusUpdated] with
    the order id, the status and the sender's email, to a location room on
    behalf of a KITCHEN or ADMIN socket, and [userTyping] to the other
    sockets of a location room. *)
Theorem order_pushes
    (sched : Schedule) (now : Z) (authorization : option string)
    (body : CreateOrderBody.t) (orderId : Z) (status : string) (db : DB) :
  let created := createOrder JWT_SECRET jwt_verify sched now authorization body db in
  let updated := updateOrderStatus JWT_SECRET jwt_verify now authorization orderId status db in
  let cancelled := cancelOrder JWT_SECRET jwt_verify now authorization orderId db in
  (forall completeOrder, response created = Ok completeOrder ->
     exists user o,
       authenticateToken JWT_SECRET jwt_verify authorization = Ok user
       /\ completeOrder = Some (hydrate true (store created) o)
       /\ findOrder (store created) (byId (Order.id o)) = Some o
       /\ Order.locationId o = CreateOrderBody.locationId body
       /\ Order.userId o = auth_id user
       /\ pushes created
          = [ mkEmit (io_to (location_room (Order.locationId o))) "newOrder"
                     (OrderPayload completeOrder);
              mkEmit (io_to (user_room (auth_id user))) "orderCreated"
                     (OrderPayload completeOrder) ])
  /\ (forall h, response updated = Ok h ->
        h = hydrate false (store updated) (order h)
        /\ pushes updated
           = [ mkEmit (io_to (location_room (Order.locationId (order h)))) "orderStatusUpdated"
                      (OrderPayload (Some h));
               mkEmit (io_to (user_room (Order.userId (order h)))) "orderStatusUpdated"
                      (OrderPayload (Some h)) ])
  /\ (forall h, response cancelled = Ok h ->
        h = hydrate false (store cancelled) (order h)
        /\ pushes cancelled
           = [ mkEmit (io_to (location_room (Order.locationId (order h)))) "orderCancelled"
                      (OrderPayload (Some h));
               mkEmit (io_to (user_room (Order.userId (order h)))) "orderCancelled"
                      (OrderPayload (Some h)) ])
  /\ (forall e, response created = Err e -> pushes created = [])
  /\ (forall e, response updated = Err e -> pushes updated = [])
  /\ (forall e, response cancelled = Err e -> pushes cancelled = [])
  /\ (forall socket ev p, In p (snd (socketEvent socket ev)) ->
        (exists id st locationId,
           ev = on_updateOrderStatus id st locationId
           /\ (auth_role (socket_user socket) = UserRole.KITCHEN
               \/ auth_role (socket_user socket) = UserRole.ADMIN)
           /\ p = mkEmit (io_to (location_room locationId)) "orderStatusUpdated"
                         (StatusRelay id st (auth_email (socket_user socket))))
        \/ (exists locationId isTyping,
              ev = on_typing locationId isTyping
              /\ p = mkEmit (socket_to (location_room locationId)) "userTyping"
                            (TypingRelay (auth_id (socket_user socket))
                                         (auth_email (socket_user socket)) isTyping))).
Proof.
  intros created updated cancelled. subst created updated cancelled.
  assert (forall socket ev p, In p (snd (socketEvent socket ev)) ->
            (exists id st locationId,
               ev = on_updateOrderStatus id st locationId
               /\ (auth_role (socket_user socket) = UserRole.KITCHEN
                   \/ auth_role (socket_user socket) = UserRole.ADMIN)
               /\ p = mkEmit (io_to (location_room locationId)) "orderStatusUpdated"
                             (StatusRelay id st (auth_email (socket_user socket))))
            \/ (exists locationId isTyping,
                  ev = on_typing locationId isTyping
                  /\ p = mkEmit (socket_to (location_room locationId)) "userTyping"
                                (TypingRelay (auth_id (socket_user socket))
                                             (auth_email (socket_user socket)) isTyping)))
    as Hsocket.
  { intros socket ev p. destruct ev as [l | l | id st l | l t | n |]; simpl; try tauto.
    - destruct (String.eqb (auth_role (socket_user socket)) UserRole.KITCHEN) eqn:Ek;
        [| destruct (String.eqb (auth_role (socket_user socket)) UserRole.ADMIN) eqn:Ea];
        simpl; try tauto.
      + intros [<- | []]. left. exists id, st, l.
        apply String.eqb_eq in Ek. repeat split. left. exact Ek.
      + intros [<- | []]. left. exists id, st, l.
        apply String.eqb_eq in Ea. repeat split. right. exact Ea.
    - intros [<- | []]. right. exists l, t. split; reflexivity. }
  unfold createOrder, updateOrderStatus, cancelOrder.
  destruct (authenticateToken JWT_SECRET jwt_verify authorization) as [user | e0].
  - split; [| split; [| split; [| split; [| split; [| split; [| exact Hsocket]]]]]].
    + intros c Hresp.
      destruct (placeOrder_Ok_stored sched now user body db c Hresp)
        as [o [Hc [Hfind [_ [_ [Huser Hloc]]]]]].
      exists user, o. repeat split; try assumption.
      rewrite Hloc. clear Hc Hfind. revert Hresp. unfold placeOrder.
      destruct (validCreateBody body); cbn [negb]; [| discriminate].
      destruct (findActiveLocation db (CreateOrderBody.locationId body)); [| discriminate].
      destruct (Promise_all _ _); [| discriminate].
      destruct (transaction _ db) as [[o1 db'] | e]; [| discriminate].
      cbn [response pushes fst snd]. intros H. inversion H; subst. reflexivity.
    + intros h. destruct (requireKitchenOrAdmin (Some user)); [| discriminate].
      unfold setStatus. destruct (negb _); [discriminate |].
      destruct (order_update now orderId status db) as [[o db'] | e]; [| discriminate].
      cbn [response pushes store fst snd]. intros H. inversion H; subst.
      split; reflexivity.
    + intros h. unfold cancel.
      destruct (findOrder db (byId orderId)) as [o |]; [| discriminate].
      destruct (_ && _); [discriminate |].
      destruct (negb _); [discriminate |].
      destruct (order_update now orderId OrderStatus.CANCELLED db) as [[o' db'] | e];
        [| discriminate].
      cbn [response pushes store fst snd]. intros H. inversion H; subst.
      split; reflexivity.
    + intros e. unfold placeOrder.
      destruct (validCreateBody body); cbn [negb]; [| reflexivity].
      destruct (findActiveLocation db (CreateOrderBody.locationId body)); [| reflexivity].
      destruct (Promise_all _ _); [| reflexivity].
      destruct (transaction _ db) as [[o db'] | e1]; [discriminate | reflexivity].
    + intros e. destruct (requireKitchenOrAdmin (Some user)); [| reflexivity].
      unfold setStatus. destruct (negb _); [reflexivity |].
      destruct (order_update now orderId status db) as [[o db'] | e1];
        [discriminate | reflexivity].
    + intros e. unfold cancel.
      destruct (findOrder db (byId orderId)) as [o |]; [| reflexivity].
      destruct (_ && _); [reflexivity |].
      destruct (negb _); [reflexivity |].
      destruct (order_update now orderId OrderStatus.CANCELLED db) as [[o' db'] | e1];
        [discriminate | reflexivity].
  - cbn [response pushes reject fst snd].
    split; [| split; [| split; [| split; [| split; [| split; [| exact Hsocket]]]]]];
      try reflexivity; intros; discriminate.
Qed.

End Pushes.

(** ** Registration *)

Section Registration.

Variable JWT_SECRET : option string.
Variable jwt_sign : AuthUser -> string -> string.
Variable bcrypt_hash : string -> string.
Variable isEmail : string -> bool.
Variable normalizeEmail : string -> string.
Variable trim : string -> string.

(** C9.  Register reads no credential: its outcome is the same with any
    [Authorization] header or none.  A well-formed request with an unused
    email and a role among CUSTOMER, WAITER, KITCHEN, ADMIN stores a user
    with exactly that role, and with role CUSTOMER when the field is
    absent; when the signing secret is configured the answer carries that
    user and a token signed for that role. *)
Theorem register_any_role
    (now : Z) (authorization : option string) (body : RegisterBody.t) (db : DB) :
  isEmail (RegisterBody.email body) = true ->
  (6 <= String.length (RegisterBody.password body))%nat ->
  findUserByEmail db (normalizeEmail (RegisterBody.email body)) = None ->
  (RegisterBody.role body = None
   \/ exists r, RegisterBody.role body = Some r
                /\ In r [UserRole.CUSTOMER; UserRole.WAITER;
                         UserRole.KITCHEN; UserRole.ADMIN]) ->
  let out := register JWT_SECRET jwt_sign bcrypt_hash isEmail normalizeEmail trim
                      now authorization body db in
  let role := match RegisterBody.role body with
              | Some r => r
              | None => UserRole.CUSTOMER
              end in
  out = register JWT_SECRET jwt_sign bcrypt_hash isEmail normalizeEmail trim
                 now None body db
  /\ exists u,
       users (snd out) = users db ++ [u]
       /\ User.role u = role
       /\ User.email u = normalizeEmail (RegisterBody.email body)
       /\ findUserByEmail (snd out) (normalizeEmail (RegisterBody.email body)) = Some u
       /\ (forall secret, JWT_SECRET = Some secret ->
             fst out = Ok (u, jwt_sign (mkAuthUser (User.id u) (User.email u) role) secret)).
Proof.
  intros Hemail Hpw Hunused Hrole out role. subst out role.
  split; [reflexivity |].
  unfold register.
  assert (validRegisterBody isEmail body = true) as Hvalid.
  { unfold validRegisterBody. rewrite Hemail. apply Nat.leb_le in Hpw. rewrite Hpw. cbn [andb].
    destruct Hrole as [Hnone | [r [Hr Hin]]].
    - rewrite Hnone. reflexivity.
    - rewrite Hr. apply includes_In. exact Hin. }
  rewrite Hvalid, Hunused. cbn [negb].
  eexists. split; [| split; [| split; [| split]]].
  - destruct JWT_SECRET; reflexivity.
  - reflexivity.
  - reflexivity.
  - unfold findUserByEmail in *.
    replace (users (snd _)) with
      (users db ++ [User.mk (autoincrement (map User.id (users db)))
                            (normalizeEmail (RegisterBody.email body))
                            (bcrypt_hash (RegisterBody.password body))
                            (option_map trim (RegisterBody.firstName body))
                            (option_map trim (RegisterBody.lastName body))
                            (option_map trim (RegisterBody.phone body))
                            match RegisterBody.role body with
                            | Some r => r
                            | None => UserRole.CUSTOMER
                            end 0 now now])
      by (destruct JWT_SECRET; reflexivity).
    rewrite find_app, Hunused. simpl. rewrite String.eqb_refl. reflexivity.
  - intros secret Hs. rewrite Hs. reflexivity.
Qed.

(** A role outside the four is refused by the validation chain and nothing
    is stored. *)
Lemma register_other_role_refused
    (now : Z) (authorization : option string) (body : RegisterBody.t) (db : DB) (r : string) :
  RegisterBody.role body = Some r ->
  ~ In r [UserRole.CUSTOMER; UserRole.WAITER; UserRole.KITCHEN; UserRole.ADMIN] ->
  register JWT_SECRET jwt_sign bcrypt_hash isEmail normalizeEmail trim
           now authorization body db
  = (Err ValidationFailed, db).
Proof.
  intros Hr Hnot. unfold register, validRegisterBody. rewrite Hr.
  destruct (includes [UserRole.CUSTOMER; UserRole.WAITER; UserRole.KITCHEN; UserRole.ADMIN] r)
    eqn:E.
  - apply includes_In in E. contradiction.
  - rewrite andb_false_r. reflexivity.
Qed.

End Registration.

(** ** Orders once terminal *)

Lemma isTerminal_not_pending (status : string) :
  isTerminal status = true -> String.eqb status OrderStatus.PENDING = false.
Proof.
  unfold isTerminal. intros H. apply orb_true_iff in H.
  destruct H as [H | H]; apply String.eqb_eq in H; subst; reflexivity.
Qed.

(** What an update of the order [id'] leaves of the order [id]. *)
Lemma order_update_preserves (now id' : Z) (status : string) (db db' : DB) (u : Order.t)
    (id : Z) (o : Order.t) :
  order_update now id' status db = Ok (u, db') ->
  findOrder db (byId id) = Some o ->
  orderItems db' = orderItems db
  /\ orderItemCustomizations db' = orderItemCustomizations db
  /\ exists o', findOrder db' (byId id) = Some o' /\ sameButStatus o o'
                /\ (id' <> id -> o' = o)
                /\ (id' = id -> o' = withStatus o status now).
Proof.
  intros Hup Hfind.
  destruct (findOrder db (byId id')) as [x |] eqn:Ex.
  - destruct (order_update_some now id' status db x Ex)
      as [db2 [Hu [Hf [Hother [_ [_ [_ [_ [Hi Hc]]]]]]]]].
    rewrite Hu in Hup. inversion Hup; subst u db2.
    split; [exact Hi |]. split; [exact Hc |].
    destruct (Z.eq_dec id' id) as [Heq | Hne].
    + subst id'. rewrite Ex in Hfind. inversion Hfind; subst x.
      exists (withStatus o status now). split; [exact Hf |].
      split; [apply sameButStatus_withStatus |]. split; [congruence | reflexivity].
    + exists o. split.
      * rewrite (Hother id (not_eq_sym Hne)). exact Hfind.
      * split; [apply sameButStatus_refl |]. split; [reflexivity | congruence].
  - rewrite (order_update_none now id' status db Ex) in Hup. discriminate.
Qed.

Section Terminal.

Variable JWT_SECRET : option string.
Variable jwt_verify : string -> string -> option AuthUser.

(** One request on stored orders: what it leaves of the order [orderId]. *)
Lemma handle_preserves (r : Request) (db : DB) (orderId : Z) (o : Order.t) :
  findOrder db (byId orderId) = Some o ->
  orderItems (handle JWT_SECRET jwt_verify r db) = orderItems db
  /\ orderItemCustomizations (handle JWT_SECRET jwt_verify r db) = orderItemCustomizations db
  /\ exists o',
       findOrder (handle JWT_SECRET jwt_verify r db) (byId orderId) = Some o'
       /\ sameButStatus o o'
       /\ (isTerminal (Order.status o) = true ->
           (forall s, req_op r <> OpSetStatus orderId s) -> o' = o).
Proof.
  intros Hfind.
  assert (orderItems db = orderItems db
          /\ orderItemCustomizations db = orderItemCustomizations db
          /\ exists o', findOrder db (byId orderId) = Some o' /\ sameButStatus o o'
                        /\ (isTerminal (Order.status o) = true ->
                            (forall s, req_op r <> OpSetStatus orderId s) -> o' = o))
    as Hsame.
  { split; [reflexivity |]. split; [reflexivity |]. exists o.
    split; [exact Hfind |]. split; [apply sameButStatus_refl | reflexivity]. }
  unfold handle. destruct (req_op r) as [q | id' | id' status | id'] eqn:Eop.
  - unfold getOrders, listOrders.
    destruct (authenticateToken _ _ _); [| exact Hsame].
    destruct (findManyOrders _ _ _ _); exact Hsame.
  - unfold getOrder, fetchOrder.
    destruct (authenticateToken _ _ _); [| exact Hsame].
    destruct (findOrder db (visibleTo _ _)); exact Hsame.
  - unfold updateOrderStatus, setStatus.
    destruct (authenticateToken _ _ _); [| exact Hsame].
    destruct (requireKitchenOrAdmin _); [| exact Hsame].
    destruct (negb _); [exact Hsame |].
    destruct (order_update (req_time r) id' status db) as [[u db'] |] eqn:Eup;
      [| exact Hsame].
    cbn [store fst snd].
    destruct (order_update_preserves _ _ _ _ _ _ orderId o Eup Hfind)
      as [Hi [Hc [o' [Hf [Hs [Hne _]]]]]].
    split; [exact Hi |]. split; [exact Hc |]. exists o'.
    split; [exact Hf |]. split; [exact Hs |].
    intros _ Hno. apply Hne. intros Heq. subst id'. apply (Hno status). reflexivity.
  - unfold cancelOrder, cancel.
    destruct (authenticateToken _ _ _); [| exact Hsame].
    destruct (findOrder db (byId id')) as [x |] eqn:Ex; [| exact Hsame].
    destruct (_ && _); [exact Hsame |].
    destruct (negb (String.eqb (Order.status x) OrderStatus.PENDING)) eqn:Epending;
      [exact Hsame |].
    destruct (order_update (req_time r) id' OrderStatus.CANCELLED db) as [[u db'] |] eqn:Eup;
      [| exact Hsame].
    cbn [store fst snd].
    destruct (order_update_preserves _ _ _ _ _ _ orderId o Eup Hfind)
      as [Hi [Hc [o' [Hf [Hs [Hne _]]]]]].
    split; [exact Hi |]. split; [exact Hc |]. exists o'.
    split; [exact Hf |]. split; [exact Hs |].
    intros Hterm _. apply Hne. intros Heq. subst id'.
    rewrite Ex in Hfind. inversion Hfind; subst x.
    rewrite (isTerminal_not_pending _ Hterm) in Epending. discriminate.
Qed.

(** A sequence of requests on stored orders: what it leaves of the order
    [orderId]. *)
Lemma run_preserves (reqs : list Request) :
  forall (db : DB) (orderId : Z) (o : Order.t),
    findOrder db (byId orderId) = Some o ->
    orderItems (run JWT_SECRET jwt_verify reqs db) = orderItems db
    /\ orderItemCustomizations (run JWT_SECRET jwt_verify reqs db)
       = orderItemCustomizations db
    /\ exists o',
         findOrder (run JWT_SECRET jwt_verify reqs db) (byId orderId) = Some o'
         /\ sameButStatus o o'
         /\ (isTerminal (Order.status o) = true ->
             Forall (fun r => forall s, req_op r <> OpSetStatus orderId s) reqs ->
             o' = o).
Proof.
  induction reqs as [| r reqs IH]; intros db orderId o Hfind.
  - simpl. split; [reflexivity |]. split; [reflexivity |]. exists o.
    split; [exact Hfind |]. split; [apply sameButStatus_refl | reflexivity].
  - change (run JWT_SECRET jwt_verify (r :: reqs) db)
      with (run JWT_SECRET jwt_verify reqs (handle JWT_SECRET jwt_verify r db)).
    destruct (handle_preserves r db orderId o Hfind) as [Hi [Hc [o1 [Hf1 [Hs1 Hkeep1]]]]].
    destruct (IH _ orderId o1 Hf1) as [Hi' [Hc' [o' [Hf' [Hs' Hkeep']]]]].
    split; [rewrite Hi'; exact Hi |]. split; [rewrite Hc'; exact Hc |]. exists o'.
    split; [exact Hf' |]. split; [eapply sameButStatus_trans; eassumption |].
    intros Hterm Hall. inversion Hall as [| r' rs' Hr Hrest]; subst.
    assert (o1 = o) as Heq by (apply Hkeep1; assumption).
    subst o1. apply Hkeep'; assumption.
Qed.

(** C6 (amended).  Through any sequence of list, fetch, set-status and
    cancel requests a stored order keeps its id, total, location, owner and
    creation time, and the order lines and customization lines in the store
    stay as they were.  An order that is COMPLETED or CANCELLED is left
    exactly as it was by every list, fetch and cancel request and by
    set-status on other orders.  A set-status request on the order itself,
    by a KITCHEN or ADMIN caller and for a status of the enumeration,
    rewrites its status and its update time whatever its status was,
    COMPLETED and CANCELLED included. *)
Theorem terminal_order_kept (reqs : list Request) (db : DB) (orderId : Z) (o : Order.t) :
  findOrder db (byId orderId) = Some o ->
  let db' := run JWT_SECRET jwt_verify reqs db in
  (orderItems db' = orderItems db
   /\ orderItemCustomizations db' = orderItemCustomizations db
   /\ exists o',
        findOrder db' (byId orderId) = Some o'
        /\ sameButStatus o o'
        /\ (isTerminal (Order.status o) = true ->
            Forall (fun r => forall s, req_op r <> OpSetStatus orderId s) reqs ->
            o' = o))
  /\ forall now authorization user status,
       authenticateToken JWT_SECRET jwt_verify authorization = Ok user ->
       auth_role user = UserRole.KITCHEN \/ auth_role user = UserRole.ADMIN ->
       In status [OrderStatus.PENDING; OrderStatus.IN_PROGRESS;
                  OrderStatus.COMPLETED; OrderStatus.CANCELLED] ->
       findOrder (handle JWT_SECRET jwt_verify
                         (mkRequest now authorization (OpSetStatus orderId status)) db)
                 (byId orderId)
       = Some (withStatus o status now).
Proof.
  intros Hfind db'. subst db'. split.
  - apply run_preserves. exact Hfind.
  - intros now authorization user status Hauth Hrole Hin.
    unfold handle. cbn [req_op req_time req_authorization].
    unfold updateOrderStatus. rewrite Hauth.
    rewrite (requireKitchenOrAdmin_allows user Hrole).
    destruct (setStatus_stored now orderId status db o Hin Hfind) as [db2 [Hs Hu]].
    rewrite Hs. cbn [store fst snd].
    destruct (order_update_some now orderId status db o Hfind) as [db3 [Hu3 [Hf _]]].
    rewrite Hu in Hu3. inversion Hu3; subst db3. exact Hf.
Qed.

End Terminal.

(** ** The foreign keys are kept *)

Lemma referential_integrity_intro (db : DB) :
  linesBelongToOrders db -> customizationsBelongToLines db ->
  referential_integrity db = true.
Proof.
  intros Hl Hc. unfold referential_integrity. apply andb_true_iff. split.
  - apply forallb_forall. intros i Hi. destruct (Hl i Hi) as [o [Ho Hid]].
    apply existsb_exists. exists o. split; [exact Ho | apply Z.eqb_eq; exact Hid].
  - apply forallb_forall. intros c Hc'. destruct (Hc c Hc') as [i [Hi Hid]].
    apply existsb_exists. exists i. split; [exact Hi | apply Z.eqb_eq; exact Hid].
Qed.

Lemma update_status_ids (now id : Z) (status : string) (os os' : list Order.t) (u : Order.t) :
  update_status now id status os = Some (u, os') -> map Order.id os' = map Order.id os.
Proof.
  revert os' u. induction os as [| o os IH]; intros os' u; simpl; [discriminate |].
  destruct (Order.id o =? id).
  - intros H. inversion H; subst. reflexivity.
  - destruct (update_status now id status os) as [[u' rest'] |]; [| discriminate].
    intros H. inversion H; subst. simpl. f_equal. eapply IH. reflexivity.
Qed.

Lemma order_update_integrity (now id : Z) (status : string) (db db' : DB) (u : Order.t) :
  order_update now id status db = Ok (u, db') ->
  referential_integrity db = true -> referential_integrity db' = true.
Proof.
  unfold order_update.
  destruct (update_status now id status (orders db)) as [[u' os'] |] eqn:E; [| discriminate].
  intros H Hint. inversion H; subst. clear H.
  apply update_status_ids in E.
  destruct (referential_integrity_spec db Hint) as [Hl Hc].
  apply referential_integrity_intro.
  - intros i Hi. destruct (Hl i Hi) as [o [Ho Hid]].
    assert (In (Order.id o) (map Order.id os')) as Hin.
    { rewrite E. apply in_map. exact Ho. }
    apply in_map_iff in Hin. destruct Hin as [o' [Hid' Ho']].
    exists o'. split; [exact Ho' | congruence].
  - exact Hc.
Qed.

Section Integrity.

Variable JWT_SECRET : option string.
Variable jwt_verify : string -> string -> option AuthUser.

(** The foreign keys of the order tables hold after every order route when
    they held before it: the stores the properties above are stated for are
    the ones the routes produce. *)
Lemma referential_integrity_kept
    (sched : Schedule) (now : Z) (authorization : option string)
    (body : CreateOrderBody.t) (r : Request) (db : DB) :
  referential_integrity db = true ->
  referential_integrity
    (store (createOrder JWT_SECRET jwt_verify sched now authorization body db)) = true
  /\ referential_integrity (handle JWT_SECRET jwt_verify r db) = true.
Proof.
  intros Hint. split.
  - unfold createOrder.
    destruct (authenticateToken JWT_SECRET jwt_verify authorization) as [user |];
      [| exact Hint].
    destruct (response (placeOrder sched now user body db)) as [c | e] eqn:E.
    + destruct (placeOrder_Ok_valid sched now user body db c E) as [Hvalid Huser].
      destruct (placeOrder_ok sched now user body db Hvalid Huser Hint)
        as [db' [Hrun [_ [_ [_ [_ [_ [_ [Hl [Hc _]]]]]]]]]].
      rewrite Hrun. apply referential_integrity_intro; assumption.
    + revert E. unfold placeOrder.
      destruct (validCreateBody body); cbn [negb]; [| intros _; exact Hint].
      destruct (findActiveLocation db (CreateOrderBody.locationId body));
        [| intros _; exact Hint].
      destruct (Promise_all _ _); [| intros _; exact Hint].
      destruct (transaction _ db) as [[o db'] | e1]; [discriminate | intros _; exact Hint].
  - unfold handle. destruct (req_op r) as [q | id | id status | id].
    + unfold getOrders, listOrders.
      destruct (authenticateToken _ _ _); [| exact Hint].
      destruct (findManyOrders _ _ _ _); exact Hint.
    + unfold getOrder, fetchOrder.
      destruct (authenticateToken _ _ _); [| exact Hint].
      destruct (findOrder db (visibleTo _ _)); exact Hint.
    + unfold updateOrderStatus, setStatus.
      destruct (authenticateToken _ _ _); [| exact Hint].
      destruct (requireKitchenOrAdmin _); [| exact Hint].
      destruct (negb _); [exact Hint |].
      destruct (order_update (req_time r) id status db) as [[u db'] |] eqn:E;
        [| exact Hint].
      exact (order_update_integrity _ _ _ _ _ _ E Hint).
    + unfold cancelOrder, cancel.
      destruct (authenticateToken _ _ _); [| exact Hint].
      destruct (findOrder db (byId id)); [| exact Hint].
      destruct (_ && _); [exact Hint |].
      destruct (negb _); [exact Hint |].
      destruct (order_update (req_time r) id OrderStatus.CANCELLED db) as [[u db'] |] eqn:E;
        [| exact Hint].
      exact (order_update_integrity _ _ _ _ _ _ E Hint).
Qed.

End Integrity.

(** ** The properties on the sample store *)

(** The end-to-end scenarios of the specification, run on the sample
    store. *)

(** Two burgers at 1000 with one cheese at 200 each, for location 1: the
    order is created PENDING with total 2 × 1000 + 1 × 200 × 2. *)
Example scenario_total :
  option_map (fun h => (Order.status (order h), Order.total (order h)))
    match response (createOrder Sample.secret Sample.verify Sample.inOrder 100
                                Sample.asAnn Sample.cart Sample.db) with
    | Ok completeOrder => completeOrder
    | Err _ => None
    end
  = Some (OrderStatus.PENDING, 2400).
Proof. reflexivity. Qed.

(** The same cart for location 2, where the burger is not sold: refused,
    and no order row is created. *)
Example scenario_other_location :
  createOrder Sample.secret Sample.verify Sample.inOrder 100 Sample.asAnn
              (CreateOrderBody.mk 2 (CreateOrderBody.items Sample.cart)) Sample.db
  = (Err (LocationMismatch "Burger"), Sample.db, []).
Proof. reflexivity. Qed.

(** Ann cancels her pending order 2: it becomes CANCELLED, and a second
    cancel is refused. *)
Example scenario_cancel_twice :
  let once := cancelOrder Sample.secret Sample.verify 100 Sample.asAnn 2 Sample.db in
  let twice := cancelOrder Sample.secret Sample.verify 101 Sample.asAnn 2 (store once) in
  option_map Order.status (findOrder (store once) (byId 2)) = Some OrderStatus.CANCELLED
  /\ response twice = Err InvalidTransition
  /\ store twice = store once.
Proof. repeat split; reflexivity. Qed.


(** The soup is stored, unavailable, at location 1. *)
Lemma unavailable_item_not_found_witness :
  (forall m, In m (menus Sample.db) -> Menu.id m = 3 -> Menu.isAvailable m = false)
  /\ createOrder Sample.secret Sample.verify Sample.inOrder 100 Sample.asAnn
                 (CreateOrderBody.mk 1 [CartItem.mk 3 1 None]) Sample.db
     = (Err (ItemNotFound 3), Sample.db, []).
Proof.
  assert (forall m, In m (menus Sample.db) -> Menu.id m = 3 -> Menu.isAvailable m = false)
    as H.
  { intros m Hin Hid. simpl in Hin.
    destruct Hin as [<- | [<- | [<- | [<- | [<- | []]]]]]; try reflexivity; discriminate. }
  split; [exact H |].
  apply (unavailable_item_not_found Sample.secret Sample.verify Sample.inOrder 100
           Sample.asAnn Sample.ann 1 (CartItem.mk 3 1 None) Sample.db H).
  - reflexivity.
  - simpl. lia.
  - reflexivity.
Defined.

(** C5, refuted as stated: the soup exists with its availability flag
    false, no menu item has id 9, and ordering either is rejected with the
    same error, ItemNotFound with status 404. *)
Lemma unavailable_item_same_error :
  (exists m, findMenu Sample.db 3 = Some m /\ Menu.isAvailable m = false)
  /\ findMenu Sample.db 9 = None
  /\ response (createOrder Sample.secret Sample.verify Sample.inOrder 100 Sample.asAnn
                 (CreateOrderBody.mk 1 [CartItem.mk 3 1 None]) Sample.db)
     = Err (ItemNotFound 3)
  /\ response (createOrder Sample.secret Sample.verify Sample.inOrder 100 Sample.asAnn
                 (CreateOrderBody.mk 1 [CartItem.mk 9 1 None]) Sample.db)
     = Err (ItemNotFound 9)
  /\ statusCode (ItemNotFound 3) = statusCode (ItemNotFound 9).
Proof.
  split; [eexists; split; reflexivity |]. repeat split; reflexivity.
Qed.

(** The pizza is sold at location 2; a cart for location 1 that holds it is
    rejected with LocationMismatch and nothing is written. *)
Lemma other_location_item_rejected_witness :
  menuIdsUnique Sample.db
  /\ existsb (entryOfOtherLocation Sample.db 1) [CartItem.mk 1 1 None; CartItem.mk 2 1 None]
     = true
  /\ store (createOrder Sample.secret Sample.verify Sample.inOrder 100 Sample.asAnn
              (CreateOrderBody.mk 1 [CartItem.mk 1 1 None; CartItem.mk 2 1 None]) Sample.db)
     = Sample.db
  /\ exists title,
       response (createOrder Sample.secret Sample.verify Sample.inOrder 100 Sample.asAnn
                   (CreateOrderBody.mk 1 [CartItem.mk 1 1 None; CartItem.mk 2 1 None])
                   Sample.db)
       = Err (LocationMismatch title).
Proof.
  assert (menuIdsUnique Sample.db) as Huniq.
  { unfold menuIdsUnique. simpl.
    repeat constructor; simpl; intros H;
      repeat (destruct H as [H | H]; [discriminate |]); exact H. }
  split; [exact Huniq |]. split; [reflexivity |].
  destruct (other_location_item_rejected Sample.secret Sample.verify Sample.inOrder 100
              Sample.asAnn
              (CreateOrderBody.mk 1 [CartItem.mk 1 1 None; CartItem.mk 2 1 None])
              Sample.db Huniq eq_refl)
    as [_ [Hstore [_ Hkind]]].
  split; [exact Hstore |].
  apply Hkind; reflexivity.
Defined.

(** C2, refuted as stated: the stew belongs to location 2 and is not
    available; a cart for location 1 that holds it is rejected with
    ItemNotFound.  And a cart for location 1 that names an unknown item
    before the pizza of location 2 is rejected with ItemNotFound too when
    its lookups settle in list order, and with LocationMismatch when the
    lookup of the pizza settles first. *)
Lemma other_location_not_always_mismatch :
  existsb (entryOfOtherLocation Sample.db 1) [CartItem.mk 4 1 None] = true
  /\ response (createOrder Sample.secret Sample.verify Sample.inOrder 100 Sample.asAnn
                 (CreateOrderBody.mk 1 [CartItem.mk 4 1 None]) Sample.db)
     = Err (ItemNotFound 4)
  /\ existsb (entryOfOtherLocation Sample.db 1) [CartItem.mk 9 1 None; CartItem.mk 2 1 None]
     = true
  /\ response (createOrder Sample.secret Sample.verify Sample.inOrder 100 Sample.asAnn
                 (CreateOrderBody.mk 1 [CartItem.mk 9 1 None; CartItem.mk 2 1 None])
                 Sample.db)
     = Err (ItemNotFound 9)
  /\ response (createOrder Sample.secret Sample.verify Sample.lastFirst 100 Sample.asAnn
                 (CreateOrderBody.mk 1 [CartItem.mk 9 1 None; CartItem.mk 2 1 None])
                 Sample.db)
     = Err (LocationMismatch "Pizza")
  /\ forall id title, ItemNotFound id <> LocationMismatch title.
Proof.
  repeat split; try reflexivity. intros id title. discriminate.
Qed.

(** Kit, of the kitchen, sets the completed order 1 back to PENDING; Bob, a
    customer, is refused. *)
Lemma set_status_role_gate_witness :
  authenticateToken Sample.secret Sample.verify Sample.asBob = Ok Sample.bob
  /\ response (updateOrderStatus Sample.secret Sample.verify 100 Sample.asBob 1
                 OrderStatus.PENDING Sample.db)
     = Err InsufficientPermissions
  /\ store (updateOrderStatus Sample.secret Sample.verify 100 Sample.asBob 1
              OrderStatus.PENDING Sample.db)
     = Sample.db.
Proof.
  split; [reflexivity |].
  destruct (set_status_role_gate Sample.secret Sample.verify 100 Sample.asBob Sample.bob 1
              OrderStatus.PENDING Sample.db eq_refl)
    as [Hrefused _].
  destruct Hrefused as [Hr [_ [Hs _]]]; [discriminate | discriminate |].
  split; assumption.
Defined.


(** Ann's completed order 1 through a cancel by Ann, a cancel by Wes the
    waiter, a fetch, a listing, and a set-status on order 2: it is still
    exactly the row it was. *)
Lemma terminal_order_kept_witness :
  findOrder Sample.db (byId 1) = Some (Order.mk 1 OrderStatus.COMPLETED 1000 1 1 10 20)
  /\ isTerminal OrderStatus.COMPLETED = true
  /\ findOrder
       (run Sample.secret Sample.verify
            [ mkRequest 100 Sample.asAnn (OpCancel 1);
              mkRequest 101 Sample.asWes (OpCancel 1);
              mkRequest 102 Sample.asAnn (OpFetch 1);
              mkRequest 103 Sample.asAnn (OpList (OrdersQuery.mk None None None None));
              mkRequest 104 Sample.asKit (OpSetStatus 2 OrderStatus.COMPLETED) ]
            Sample.db)
       (byId 1)
     = Some (Order.mk 1 OrderStatus.COMPLETED 1000 1 1 10 20).
Proof.
  split; [reflexivity |]. split; [reflexivity |].
  destruct (terminal_order_kept Sample.secret Sample.verify
              [ mkRequest 100 Sample.asAnn (OpCancel 1);
                mkRequest 101 Sample.asWes (OpCancel 1);
                mkRequest 102 Sample.asAnn (OpFetch 1);
                mkRequest 103 Sample.asAnn (OpList (OrdersQuery.mk None None None None));
                mkRequest 104 Sample.asKit (OpSetStatus 2 OrderStatus.COMPLETED) ]
              Sample.db 1 (Order.mk 1 OrderStatus.COMPLETED 1000 1 1 10 20) eq_refl)
    as [[_ [_ [o' [Hfind [_ Hkeep]]]]] _].
  rewrite Hfind. f_equal. apply Hkeep; [reflexivity |].
  repeat constructor; intros s H; discriminate.
Defined.

(** C6, refuted as stated: order 1 is COMPLETED; Kit sets its status to
    PENDING and the stored order is PENDING again, with a new [updatedAt];
    Ann can then cancel it. *)
Lemma terminal_order_reopened :
  (exists o, findOrder Sample.db (byId 1) = Some o
             /\ Order.status o = OrderStatus.COMPLETED)
  /\ (exists o',
        findOrder (handle Sample.secret Sample.verify
                     (mkRequest 100 Sample.asKit (OpSetStatus 1 OrderStatus.PENDING))
                     Sample.db) (byId 1) = Some o'
        /\ Order.status o' = OrderStatus.PENDING
        /\ Order.updatedAt o' = 100)
  /\ (exists o'',
        findOrder (run Sample.secret Sample.verify
                     [ mkRequest 100 Sample.asKit (OpSetStatus 1 OrderStatus.PENDING);
                       mkRequest 101 Sample.asAnn (OpCancel 1) ]
                     Sample.db) (byId 1) = Some o''
        /\ Order.status o'' = OrderStatus.CANCELLED).
Proof.
  split; [| split]; eexists; repeat split; reflexivity.
Qed.

(** The pushes of Ann's creation, of Kit's set-status and of Ann's cancel
    on the sample store. *)
Lemma order_pushes_witness :
  map (fun p => (audience p, event p))
      (pushes (createOrder Sample.secret Sample.verify Sample.inOrder 100
                           Sample.asAnn Sample.cart Sample.db))
  = [ (io_to (location_room 1), "newOrder"%string);
      (io_to (user_room 1), "orderCreated"%string) ]
  /\ map (fun p => (audience p, event p))
         (pushes (updateOrderStatus Sample.secret Sample.verify 100 Sample.asKit 3
                                    OrderStatus.COMPLETED Sample.db))
     = [ (io_to (location_room 1), "orderStatusUpdated"%string);
         (io_to (user_room 3), "orderStatusUpdated"%string) ]
  /\ map (fun p => (audience p, event p))
         (pushes (cancelOrder Sample.secret Sample.verify 100 Sample.asAnn 2 Sample.db))
     = [ (io_to (location_room 1), "orderCancelled"%string);
         (io_to (user_room 1), "orderCancelled"%string) ].
Proof.
  destruct (order_pushes Sample.secret Sample.verify Sample.inOrder 100 Sample.asAnn
              Sample.cart 2 OrderStatus.COMPLETED Sample.db)
    as [Hcreated [_ [Hcancelled _]]].
  destruct (order_pushes Sample.secret Sample.verify Sample.inOrder 100 Sample.asKit
              Sample.cart 3 OrderStatus.COMPLETED Sample.db)
    as [_ [Hupdated _]].
  split; [| split].
  - destruct (Hcreated _ eq_refl) as [user [o [Hu [_ [_ [Hl [_ Hp]]]]]]]. rewrite Hp, Hl.
    inversion Hu; subst user. reflexivity.
  - destruct (Hupdated _ eq_refl) as [_ Hp]. rewrite Hp. reflexivity.
  - destruct (Hcancelled _ eq_refl) as [_ Hp]. rewrite Hp. reflexivity.
Defined.

(** C8, refuted as stated: the push of a creation to the caller's room is
    named [orderCreated], which is none of [newOrder], [orderStatusUpdated],
    [orderCancelled]; no [newOrder] goes to that room; and the
    [orderStatusUpdated] that a kitchen socket relays carries no order. *)
Lemma order_created_push :
  (exists p,
     In p (snd (socketEvent (mkSocket Sample.kit [user_room 2])
                            (on_updateOrderStatus 1 OrderStatus.COMPLETED 1)))
     /\ event p = "orderStatusUpdated"%string
     /\ forall o, payload p <> OrderPayload o)
  /\ (exists p,
     In p (pushes (createOrder Sample.secret Sample.verify Sample.inOrder 100
                               Sample.asAnn Sample.cart Sample.db))
     /\ audience p = io_to (user_room 1)
     /\ event p = "orderCreated"%string
     /\ ~ In (event p) ["newOrder"; "orderStatusUpdated"; "orderCancelled"]%string)
  /\ forall p,
       In p (pushes (createOrder Sample.secret Sample.verify Sample.inOrder 100
                                 Sample.asAnn Sample.cart Sample.db)) ->
       audience p = io_to (user_room 1) -> event p <> "newOrder"%string.
Proof.
  split; [| split].
  - eexists. split; [left; reflexivity |]. split; [reflexivity |].
    intros o H. discriminate.
  - eexists. split; [right; left; reflexivity |].
    split; [reflexivity |]. split; [reflexivity |].
    simpl. intros [H | [H | [H | []]]]; discriminate.
  - intros p [<- | [<- | []]]; simpl; intros H; discriminate.
Qed.

(** An unauthenticated request registers an ADMIN on the sample store. *)
Lemma register_any_role_witness :
  Sample.anyEmail "eve@example.com" = true
  /\ (6 <= String.length "letmein")%nat
  /\ findUserByEmail Sample.db (Sample.sameString "eve@example.com") = None
  /\ exists u,
       users (snd (register Sample.secret Sample.sign Sample.hash Sample.anyEmail
                            Sample.sameString Sample.sameString 100 None
                            (RegisterBody.mk "eve@example.com" "letmein" None None None
                                             (Some UserRole.ADMIN))
                            Sample.db))
       = users Sample.db ++ [u]
       /\ User.role u = UserRole.ADMIN.
Proof.
  split; [reflexivity |]. split; [simpl; lia |]. split; [reflexivity |].
  destruct (register_any_role Sample.secret Sample.sign Sample.hash Sample.anyEmail
              Sample.sameString Sample.sameString 100 None
              (RegisterBody.mk "eve@example.com" "letmein" None None None
                               (Some UserRole.ADMIN))
              Sample.db)
    as [_ [u [Hu [Hr _]]]].
  - reflexivity.
  - simpl. lia.
  - reflexivity.
  - right. exists UserRole.ADMIN. split; [reflexivity |]. simpl. tauto.
  - exists u. split; assumption.
Defined.


(** * Properties of the other routes *)

(** ** The Authorization header *)

Lemma split_no_space (s : string) : hasSpace s = false -> split " " s = [s].
Proof.
  induction s as [| c s IH]; simpl; [reflexivity |].
  intros H. apply orb_false_iff in H. destruct H as [Hc Hs].
  rewrite Hc, (IH Hs). reflexivity.
Qed.

Lemma split_first_word (word rest : string) :
  hasSpace word = false ->
  split " " (word ++ String " " rest)%string = word :: split " " rest.
Proof.
  induction word as [| c w IH]; simpl.
  - reflexivity.
  - intros H. apply orb_false_iff in H. destruct H as [Hc Hw].
    rewrite Hc, (IH Hw). reflexivity.
Qed.

Lemma bearerToken_second_word (word rest : string) :
  hasSpace word = false ->
  bearerToken (Some (word ++ String " " rest)%string)
  = match split " " rest with
    | EmptyString :: _ => None
    | token :: _ => Some token
    | [] => None
    end.
Proof.
  intros H. unfold bearerToken.
  rewrite (split_first_word word rest H).
  destruct word; simpl; destruct (split " " rest) as [| [| c t] l]; reflexivity.
Qed.

Section Header.

Variable JWT_SECRET : option string.
Variable jwt_verify : string -> string -> option AuthUser.

(** X1.  A request with no Authorization header, or with a header that has
    no space in it (a bare token, say), is answered AccessTokenRequired
    (401) whatever the token would verify to. *)
Theorem token_required_without_space (header : string) :
  hasSpace header = false ->
  authenticateToken JWT_SECRET jwt_verify (Some header) = Err AccessTokenRequired
  /\ authenticateToken JWT_SECRET jwt_verify None = Err AccessTokenRequired
  /\ statusCode AccessTokenRequired = Some 401.
Proof.
  intros H. split; [| split; reflexivity].
  unfold authenticateToken, bearerToken.
  rewrite (split_no_space header H). destruct header; reflexivity.
Qed.

(** X2.  The word before the first space of the header is never looked at:
    any scheme in place of Bearer gives the same answer, and what is verified
    is the text between the first space and the next. *)
Theorem scheme_ignored (scheme token : string) :
  hasSpace scheme = false ->
  (forall rest : string,
     authenticateToken JWT_SECRET jwt_verify (Some (scheme ++ " " ++ rest)%string)
     = authenticateToken JWT_SECRET jwt_verify (Some ("Bearer " ++ rest)%string))
  /\ (hasSpace token = false -> token <> EmptyString ->
      authenticateToken JWT_SECRET jwt_verify (Some (scheme ++ " " ++ token)%string)
      = match JWT_SECRET with
        | Some secret =>
            match jwt_verify token secret with
            | Some decoded => Ok decoded
            | None => Err InvalidToken
            end
        | None => Err InvalidToken
        end).
Proof.
  intros Hs. split.
  - intros rest. unfold authenticateToken.
    change (" " ++ rest)%string with (String " " rest).
    change ("Bearer " ++ rest)%string with ("Bearer" ++ String " " rest)%string.
    rewrite (bearerToken_second_word scheme rest Hs).
    rewrite (bearerToken_second_word "Bearer" rest eq_refl). reflexivity.
  - intros Ht Hne. unfold authenticateToken.
    change (" " ++ token)%string with (String " " token).
    rewrite (bearerToken_second_word scheme token Hs), (split_no_space token Ht).
    destruct token as [| c t]; [congruence | reflexivity].
Qed.

End Header.

(** ** Sorted results *)

Lemma insert_desc_perm (o : Order.t) (l : list Order.t) : Permutation (o :: l) (insert_desc o l).
Proof.
  induction l as [| x l IH]; simpl; [apply Permutation_refl |].
  destruct (Order.createdAt x <=? Order.createdAt o); [apply Permutation_refl |].
  eapply Permutation_trans; [apply perm_swap |]. apply perm_skip. exact IH.
Qed.

Lemma orderBy_createdAt_desc_perm (l : list Order.t) : Permutation l (orderBy_createdAt_desc l).
Proof.
  induction l as [| x l IH]; simpl; [apply Permutation_refl |].
  eapply Permutation_trans; [apply perm_skip; exact IH |]. apply insert_desc_perm.
Qed.

Lemma insert_desc_sorted (o : Order.t) (l : list Order.t) :
  StronglySorted notOlder l -> StronglySorted notOlder (insert_desc o l).
Proof.
  induction l as [| x l IH]; simpl; intros H.
  - constructor; [constructor | constructor].
  - apply StronglySorted_inv in H. destruct H as [Hl Hx].
    destruct (Order.createdAt x <=? Order.createdAt o) eqn:E.
    + apply Z.leb_le in E. constructor.
      * constructor; assumption.
      * constructor; [exact E |].
        eapply Forall_impl; [| exact Hx]. unfold notOlder. intros a Ha. lia.
    + apply Z.leb_gt in E. constructor; [apply IH; exact Hl |].
      apply Forall_forall. intros y Hy.
      apply (Permutation_in _ (Permutation_sym (insert_desc_perm o l))) in Hy.
      destruct Hy as [Hy | Hy].
      * subst y. unfold notOlder. lia.
      * rewrite Forall_forall in Hx. apply Hx. exact Hy.
Qed.

Lemma orderBy_createdAt_desc_sorted (l : list Order.t) :
  StronglySorted notOlder (orderBy_createdAt_desc l).
Proof.
  induction l as [| x l IH]; simpl; [constructor |]. apply insert_desc_sorted. exact IH.
Qed.

Lemma StronglySorted_skipn (A : Type) (R : A -> A -> Prop) (n : nat) (l : list A) :
  StronglySorted R l -> StronglySorted R (skipn n l).
Proof.
  revert l. induction n as [| n IH]; intros l H; [exact H |].
  destruct l as [| x l]; [exact H |]. simpl.
  apply IH. apply StronglySorted_inv in H. apply H.
Qed.

Lemma Forall_firstn_of (A : Type) (P : A -> Prop) (n : nat) (l : list A) :
  Forall P l -> Forall P (firstn n l).
Proof.
  revert l. induction n as [| n IH]; intros l H; [constructor |].
  destruct l as [| x l]; [constructor |]. simpl. inversion H; subst.
  constructor; [assumption | apply IH; assumption].
Qed.

Lemma StronglySorted_firstn (A : Type) (R : A -> A -> Prop) (n : nat) (l : list A) :
  StronglySorted R l -> StronglySorted R (firstn n l).
Proof.
  revert l. induction n as [| n IH]; intros l H; [constructor |].
  destruct l as [| x l]; [constructor |]. simpl.
  apply StronglySorted_inv in H. destruct H as [Hl Hx].
  constructor; [apply IH; exact Hl | apply Forall_firstn_of; exact Hx].
Qed.

Lemma StronglySorted_map (A B : Type) (R : B -> B -> Prop) (f : A -> B) (l : list A) :
  StronglySorted (fun a b => R (f a) (f b)) l -> StronglySorted R (map f l).
Proof.
  induction 1 as [| x l Hl IH Hx]; simpl; constructor; [exact IH |].
  apply Forall_forall. intros y Hy. apply in_map_iff in Hy.
  destruct Hy as [a [Ha Hin]]. subst y. rewrite Forall_forall in Hx. apply Hx. exact Hin.
Qed.

Lemma paginate_sorted (A : Type) (R : A -> A -> Prop) (skip take : Z) (rows page : list A) :
  StronglySorted R rows -> paginate skip take rows = Ok page -> StronglySorted R page.
Proof.
  intros Hs. unfold paginate.
  destruct (skip <? 0); [discriminate |].
  destruct (take <? 0); intros H; inversion H; subst; clear H.
  - rewrite skipn_rev, firstn_rev, rev_involutive.
    apply StronglySorted_skipn. apply StronglySorted_firstn. exact Hs.
  - apply StronglySorted_firstn. apply StronglySorted_skipn. exact Hs.
Qed.

Lemma filter_length_le (A : Type) (f g : A -> bool) (l : list A) :
  (forall x, f x = true -> g x = true) ->
  (List.length (filter f l) <= List.length (filter g l))%nat.
Proof.
  intros H. induction l as [| x l IH]; simpl; [lia |].
  destruct (f x) eqn:Ef.
  - rewrite (H x Ef). simpl. lia.
  - destruct (g x); simpl; lia.
Qed.

Section Listing.

Variable JWT_SECRET : option string.
Variable jwt_verify : string -> string -> option AuthUser.

(** X3.  What a CUSTOMER is listed are stored orders of their own, and the
    total of the pagination counts no order of anyone else: it is at most
    the number of the caller's orders, and is that number when the query
    filters on neither status nor location. *)
Theorem customer_list_confined (authorization : option string) (user : AuthUser)
    (q : OrdersQuery.t) (db : DB) (page : list HydratedOrder) (n : Z) :
  authenticateToken JWT_SECRET jwt_verify authorization = Ok user ->
  auth_role user = UserRole.CUSTOMER ->
  response (getOrders JWT_SECRET jwt_verify authorization q db) = Ok (page, n) ->
  let own := filter (fun o => Order.userId o =? auth_id user) (orders db) in
  Forall (fun h => In (order h) own) page
  /\ n <= Z.of_nat (List.length own)
  /\ (truthy_string (OrdersQuery.status q) = None -> OrdersQuery.locationId q = None ->
      n = Z.of_nat (List.length own)).
Proof.
  intros Hauth Hrole Hres own.
  assert (Forall (fun h => In (order h) own) page) as Hpage.
  { pose proof (getOrders_own JWT_SECRET jwt_verify authorization user q db page n
                  Hauth Hrole Hres) as Hown.
    revert Hres. unfold getOrders, listOrders. rewrite Hauth.
    match goal with
    | |- context [findManyOrders db ?w ?s ?t] =>
        destruct (findManyOrders db w s t) as [found | e] eqn:E
    end; simpl; intros H; inversion H; subst.
    apply Forall_forall. intros h Hh.
    rewrite Forall_forall in Hown. specialize (Hown h Hh).
    apply in_map_iff in Hh. destruct Hh as [o [Ho Hin]]. subst h. simpl in *.
    destruct (findManyOrders_matches _ _ _ _ _ _ E Hin) as [Hstored _].
    apply filter_In. split; [exact Hstored | apply Z.eqb_eq; exact Hown]. }
  split; [exact Hpage |].
  revert Hres. unfold getOrders, listOrders. rewrite Hauth.
  match goal with
  | |- context [findManyOrders db ?w ?s ?t] =>
      destruct (findManyOrders db w s t) as [found | e] eqn:E
  end; simpl; intros H; inversion H; subst. clear H.
  unfold countOrders, visibleTo. apply String.eqb_eq in Hrole. rewrite Hrole.
  split.
  - apply inj_le. subst own. apply filter_length_le. intros o. unfold matches.
    cbn [where_id where_userId where_status where_locationId matches_opt].
    intros H. apply andb_true_iff in H. destruct H as [H _].
    apply andb_true_iff in H. destruct H as [H _].
    apply andb_true_iff in H. apply H.
  - intros Hst Hloc. rewrite Hst, Hloc. f_equal. subst own. f_equal.
    apply filter_ext. intros o. unfold matches.
    cbn [where_id where_userId where_status where_locationId matches_opt].
    rewrite !andb_true_r. reflexivity.
Qed.

(** X4.  A CUSTOMER who fetches an order is shown it when it is their own
    and only then: for an id whose order belongs to someone else the answer
    is the OrderNotFound (404) of an id that no order has, and not a 403. *)
Theorem customer_fetch_own_only (authorization : option string) (user : AuthUser)
    (orderId : Z) (db : DB) :
  authenticateToken JWT_SECRET jwt_verify authorization = Ok user ->
  auth_role user = UserRole.CUSTOMER ->
  let out := getOrder JWT_SECRET jwt_verify authorization orderId db in
  (forall h, response out = Ok h ->
     In (order h) (orders db)
     /\ Order.id (order h) = orderId /\ Order.userId (order h) = auth_id user)
  /\ ((forall o, In o (orders db) -> Order.id o = orderId ->
         Order.userId o <> auth_id user) ->
      out = (Err OrderNotFound, db, []) /\ statusCode OrderNotFound = Some 404).
Proof.
  intros Hauth Hrole out. subst out. split.
  - intros h Hres.
    destruct (getOrder_own JWT_SECRET jwt_verify authorization user orderId db h
                Hauth Hrole Hres) as [Hown Hid].
    split; [| split; assumption].
    revert Hres. unfold getOrder, fetchOrder. rewrite Hauth.
    destruct (findOrder db (visibleTo user (byId orderId))) as [o |] eqn:E;
      simpl; intros H; inversion H; subst. simpl.
    unfold findOrder in E. apply find_some in E. apply E.
  - intros Hother. split; [| reflexivity].
    unfold getOrder, fetchOrder. rewrite Hauth.
    replace (findOrder db (visibleTo user (byId orderId))) with (@None Order.t);
      [reflexivity |].
    symmetry. unfold findOrder. apply find_none_iff. intros o Ho.
    unfold visibleTo. apply String.eqb_eq in Hrole. rewrite Hrole.
    unfold matches, byId.
    cbn [where_id where_userId where_status where_locationId matches_opt].
    rewrite !andb_true_r.
    destruct (Order.id o =? orderId) eqn:Eid; [| reflexivity]. simpl.
    apply Z.eqb_eq in Eid. apply Z.eqb_neq. apply Hother; assumption.
Qed.

(** X5.  Every answer of the list route is ordered newest first, whatever
    the page, the limit and the filters. *)
Theorem list_newest_first (authorization : option string) (q : OrdersQuery.t) (db : DB)
    (page : list HydratedOrder) (n : Z) :
  response (getOrders JWT_SECRET jwt_verify authorization q db) = Ok (page, n) ->
  StronglySorted (fun a b => notOlder (order a) (order b)) page.
Proof.
  unfold getOrders, listOrders.
  destruct (authenticateToken JWT_SECRET jwt_verify authorization) as [user | e];
    [| discriminate].
  match goal with
  | |- context [findManyOrders db ?w ?s ?t] =>
      destruct (findManyOrders db w s t) as [found | e] eqn:E
  end; simpl; intros H; inversion H; subst. clear H.
  apply StronglySorted_map with (f := hydrate true db) (R := fun a b => notOlder (order a) (order b)).
  simpl. unfold findManyOrders in E.
  eapply paginate_sorted; [| exact E]. apply orderBy_createdAt_desc_sorted.
Qed.

(** X6.  The filters of the list route.  Every order listed is a stored
    order with the status asked for, when one is asked for (an empty status
    asks for none), and of the location asked for, when one is; and for a
    caller who is not a CUSTOMER the total counts every stored order that
    passes the filters, whoever owns it. *)
Theorem list_filters (authorization : option string) (user : AuthUser)
    (q : OrdersQuery.t) (db : DB) (page : list HydratedOrder) (n : Z) :
  authenticateToken JWT_SECRET jwt_verify authorization = Ok user ->
  response (getOrders JWT_SECRET jwt_verify authorization q db) = Ok (page, n) ->
  Forall (fun h =>
            In (order h) (orders db)
            /\ (forall s, truthy_string (OrdersQuery.status q) = Some s ->
                  Order.status (order h) = s)
            /\ (forall l, OrdersQuery.locationId q = Some l ->
                  Order.locationId (order h) = l)) page
  /\ (auth_role user <> UserRole.CUSTOMER ->
      n = Z.of_nat
            (List.length
               (filter (fun o =>
                          match truthy_string (OrdersQuery.status q) with
                          | Some s => String.eqb (Order.status o) s
                          | None => true
                          end
                          && match OrdersQuery.locationId q with
                             | Some l => Order.locationId o =? l
                             | None => true
                             end) (orders db)))).
Proof.
  intros Hauth. unfold getOrders, listOrders. rewrite Hauth.
  match goal with
  | |- context [findManyOrders db ?w ?s ?t] =>
      destruct (findManyOrders db w s t) as [found | e] eqn:E
  end; simpl; intros H; inversion H; subst. clear H. split.
  - apply Forall_forall. intros h Hh. apply in_map_iff in Hh.
    destruct Hh as [o [Ho Hin]]. subst h. cbn [order hydrate].
    destruct (findManyOrders_matches _ _ _ _ _ _ E Hin) as [Hstored Hm].
    split; [exact Hstored |].
    assert (matches (mkWhere None None (truthy_string (OrdersQuery.status q))
                             (OrdersQuery.locationId q)) o = true) as Hm'.
    { revert Hm. unfold visibleTo. destruct (String.eqb (auth_role user) UserRole.CUSTOMER);
        [| trivial].
      unfold matches. cbn [where_id where_userId where_status where_locationId matches_opt].
      intros Hm. apply andb_true_iff in Hm. destruct Hm as [Hm Hl].
      apply andb_true_iff in Hm. destruct Hm as [_ Hs]. rewrite Hs, Hl. reflexivity. }
    unfold matches in Hm'.
    cbn [where_id where_userId where_status where_locationId matches_opt] in Hm'.
    apply andb_true_iff in Hm'. destruct Hm' as [Hs Hl]. split.
    + intros s Hq. rewrite Hq in Hs. apply String.eqb_eq. exact Hs.
    + intros l Hq. rewrite Hq in Hl. apply Z.eqb_eq. exact Hl.
  - intros Hrole. apply String.eqb_neq in Hrole. unfold visibleTo. rewrite Hrole.
    unfold countOrders. reflexivity.
Qed.

End Listing.
(** ** Pages *)

Lemma firstn_add_windows (A : Type) (a b : nat) (l : list A) :
  firstn (a + b) l = firstn a l ++ firstn b (skipn a l).
Proof.
  revert l. induction a as [| a IH]; intros l; simpl; [reflexivity |].
  destruct l as [| x l]; simpl.
  - rewrite firstn_nil. reflexivity.
  - rewrite IH. reflexivity.
Qed.

Lemma concat_windows (A : Type) (size : nat) (l : list A) (count : nat) :
  List.concat (map (fun j => firstn size (skipn (j * size) l)) (seq 0 count))
  = firstn (count * size) l.
Proof.
  induction count as [| k IH]; [reflexivity |].
  rewrite seq_S, map_app, concat_app, IH. cbn [map List.concat Nat.add]. rewrite app_nil_r.
  change (S k * size)%nat with (size + k * size)%nat.
  rewrite (Nat.add_comm size (k * size)). symmetry. apply firstn_add_windows.
Qed.

Lemma pages_ceiling (total limit : Z) :
  0 <= total -> 1 <= limit ->
  exists k, pages total limit = Some k /\ 0 <= k /\ total <= k * limit
            /\ (k - 1) * limit < total.
Proof.
  intros Ht Hl. unfold pages.
  destruct (limit =? 0) eqn:E; [apply Z.eqb_eq in E; lia |].
  exists (- (- total / limit)). split; [reflexivity |].
  pose proof (Z.div_mod (- total) limit ltac:(lia)) as Hdm.
  pose proof (Z.mod_pos_bound (- total) limit ltac:(lia)) as Hb.
  nia.
Qed.

Section Paging.

Variable JWT_SECRET : option string.
Variable jwt_verify : string -> string -> option AuthUser.

Lemma getOrders_window (authorization : option string) (user : AuthUser)
    (status : option string) (locationId : option Z) (page limit : Z) (db : DB) :
  authenticateToken JWT_SECRET jwt_verify authorization = Ok user ->
  1 <= page -> 0 <= limit ->
  let w := visibleTo user (mkWhere None None (truthy_string status) locationId) in
  let all := orderBy_createdAt_desc (filter (matches w) (orders db)) in
  response (getOrders JWT_SECRET jwt_verify authorization
              (OrdersQuery.mk status locationId (Some page) (Some limit)) db)
  = Ok (map (hydrate true db)
            (firstn (Z.to_nat limit) (skipn (Z.to_nat (page - 1) * Z.to_nat limit) all)),
        Z.of_nat (List.length all)).
Proof.
  intros Hauth Hp Hl w all. unfold getOrders, listOrders. rewrite Hauth.
  cbn [OrdersQuery.page OrdersQuery.limit OrdersQuery.status OrdersQuery.locationId or_default].
  fold w. unfold findManyOrders, paginate. fold all.
  replace ((page - 1) * limit <? 0) with false by (symmetry; apply Z.ltb_ge; nia).
  replace (limit <? 0) with false by (symmetry; apply Z.ltb_ge; lia).
  cbn [response fst]. f_equal. f_equal.
  - rewrite Z2Nat.inj_mul by lia. reflexivity.
  - unfold countOrders. fold w. f_equal. subst all.
    apply Permutation_length. apply orderBy_createdAt_desc_perm.
Qed.

(** X7.  The pages of the list route tile the result.  With [limit] at least
    1 and [whole] the answer that holds every order (page 1 with a limit of
    at least the total), the pages 1 to [pages] of the pagination object,
    one after the other, are [whole]; every page carries the same total;
    the pages before the last are full, the last is not empty and the pages
    after it are. *)
Theorem pages_tile (authorization : option string) (user : AuthUser)
    (status : option string) (locationId : option Z) (limit N total : Z) (db : DB)
    (whole : list HydratedOrder) :
  authenticateToken JWT_SECRET jwt_verify authorization = Ok user ->
  1 <= limit ->
  0 <= N -> total <= N ->
  response (getOrders JWT_SECRET jwt_verify authorization
              (OrdersQuery.mk status locationId (Some 1) (Some N)) db) = Ok (whole, total) ->
  let answer page := getOrders JWT_SECRET jwt_verify authorization
                       (OrdersQuery.mk status locationId (Some page) (Some limit)) db in
  exists k,
    pages total limit = Some k
    /\ List.concat (map (fun p => listed (answer (Z.of_nat p))) (seq 1 (Z.to_nat k))) = whole
    /\ forall page, 1 <= page ->
         exists found,
           response (answer page) = Ok (found, total)
           /\ (page < k -> List.length found = Z.to_nat limit)
           /\ (page = k -> found <> [])
           /\ (k < page -> found = []).
Proof.
  intros Hauth Hlimit HN Htotal Hwhole answer.
  rewrite (getOrders_window authorization user status locationId 1 N db Hauth) in Hwhole
    by lia.
  set (w := visibleTo user (mkWhere None None (truthy_string status) locationId)) in *.
  set (all := orderBy_createdAt_desc (filter (matches w) (orders db))) in *.
  cbv zeta in Hwhole. fold w in Hwhole. fold all in Hwhole.
  injection Hwhole as Hw Ht.
  change (Z.to_nat (1 - 1) * Z.to_nat N)%nat with 0%nat in Hw. cbn [skipn] in Hw.
  rewrite firstn_all2 in Hw by lia.
  destruct (pages_ceiling total limit ltac:(lia) Hlimit) as [k [Hk [Hk0 [Hup Hlow]]]].
  exists k. split; [exact Hk |].
  assert (forall page, 1 <= page ->
            response (answer page)
            = Ok (map (hydrate true db)
                      (firstn (Z.to_nat limit)
                              (skipn (Z.to_nat (page - 1) * Z.to_nat limit) all)), total))
    as Hpage.
  { intros page Hp. subst answer. cbv beta.
    rewrite (getOrders_window authorization user status locationId page limit db Hauth)
      by lia.
    cbv zeta. fold w. fold all. rewrite Ht. reflexivity. }
  split.
  - rewrite <- Hw.
    assert (all = firstn (Z.to_nat k * Z.to_nat limit) all) as Hall
      by (symmetry; apply firstn_all2; nia).
    rewrite Hall at 1.
    rewrite <- (concat_windows _ (Z.to_nat limit) all (Z.to_nat k)).
    rewrite concat_map, map_map, <- seq_shift, map_map.
    f_equal. apply map_ext. intros j. unfold listed.
    rewrite (Hpage (Z.of_nat (S j))) by lia.
    replace (Z.to_nat (Z.of_nat (S j) - 1)) with j by lia. reflexivity.
  - intros page Hp. eexists. split; [apply Hpage; exact Hp |].
    assert (Z.of_nat (Z.to_nat (page - 1) * Z.to_nat limit) = (page - 1) * limit) as Hskip
      by (rewrite Nat2Z.inj_mul, !Z2Nat.id by lia; reflexivity).
    assert (Z.of_nat (Z.to_nat limit) = limit) as Hlim by (apply Z2Nat.id; lia).
    remember (Z.to_nat (page - 1) * Z.to_nat limit)%nat as skipped.
    remember (Z.to_nat limit) as size.
    remember (List.length all) as count.
    rewrite length_map. split; [| split].
    + intros Hlt. rewrite length_firstn, length_skipn, <- Heqcount.
      assert (page * limit <= (k - 1) * limit) by nia. lia.
    + intros Heq Hnil. apply (f_equal (@List.length _)) in Hnil.
      rewrite length_map, length_firstn, length_skipn, <- Heqcount in Hnil.
      simpl in Hnil. subst page. lia.
    + intros Hgt. rewrite skipn_all2; [rewrite firstn_nil; reflexivity |].
      rewrite <- Heqcount. assert (k * limit <= (page - 1) * limit) by nia. lia.
Qed.

End Paging.
(** ** Requests that fail *)

Section Atomic.

Variable JWT_SECRET : option string.
Variable jwt_verify : string -> string -> option AuthUser.

(** X8.  An order route that answers with an error has written nothing and
    pushed nothing: the store is the one before the request, also when the
    creation transaction is what failed. *)
Theorem failed_order_request_writes_nothing
    (sched : Schedule) (now : Z) (authorization : option string)
    (body : CreateOrderBody.t) (q : OrdersQuery.t) (orderId : Z) (status : string)
    (db : DB) (e : HttpError) :
  (response (createOrder JWT_SECRET jwt_verify sched now authorization body db) = Err e ->
   createOrder JWT_SECRET jwt_verify sched now authorization body db = (Err e, db, []))
  /\ (response (getOrders JWT_SECRET jwt_verify authorization q db) = Err e ->
      getOrders JWT_SECRET jwt_verify authorization q db = (Err e, db, []))
  /\ (response (getOrder JWT_SECRET jwt_verify authorization orderId db) = Err e ->
      getOrder JWT_SECRET jwt_verify authorization orderId db = (Err e, db, []))
  /\ (response (updateOrderStatus JWT_SECRET jwt_verify now authorization orderId status db)
      = Err e ->
      updateOrderStatus JWT_SECRET jwt_verify now authorization orderId status db
      = (Err e, db, []))
  /\ (response (cancelOrder JWT_SECRET jwt_verify now authorization orderId db) = Err e ->
      cancelOrder JWT_SECRET jwt_verify now authorization orderId db = (Err e, db, [])).
Proof.
  repeat split.
  - unfold createOrder, placeOrder, reject.
    destruct (authenticateToken JWT_SECRET jwt_verify authorization) as [user | e0];
      [| simpl; intros H; inversion H; reflexivity].
    destruct (negb (validCreateBody body)); [simpl; intros H; inversion H; reflexivity |].
    destruct (findActiveLocation db (CreateOrderBody.locationId body));
      [| simpl; intros H; inversion H; reflexivity].
    destruct (Promise_all _ _); [| simpl; intros H; inversion H; reflexivity].
    destruct (transaction _ db) as [[o db'] | e1]; simpl; intros H; inversion H; reflexivity.
  - unfold getOrders, listOrders, reject.
    destruct (authenticateToken JWT_SECRET jwt_verify authorization) as [user | e0];
      [| simpl; intros H; inversion H; reflexivity].
    destruct (findManyOrders _ _ _ _); simpl; intros H; inversion H; reflexivity.
  - unfold getOrder, fetchOrder, reject.
    destruct (authenticateToken JWT_SECRET jwt_verify authorization) as [user | e0];
      [| simpl; intros H; inversion H; reflexivity].
    destruct (findOrder db _); simpl; intros H; inversion H; reflexivity.
  - unfold updateOrderStatus, setStatus, reject.
    destruct (authenticateToken JWT_SECRET jwt_verify authorization) as [user | e0];
      [| simpl; intros H; inversion H; reflexivity].
    destruct (requireKitchenOrAdmin _); [| simpl; intros H; inversion H; reflexivity].
    destruct (negb _); [simpl; intros H; inversion H; reflexivity |].
    destruct (order_update now orderId status db) as [[o db'] | e1];
      simpl; intros H; inversion H; reflexivity.
  - unfold cancelOrder, cancel, reject.
    destruct (authenticateToken JWT_SECRET jwt_verify authorization) as [user | e0];
      [| simpl; intros H; inversion H; reflexivity].
    destruct (findOrder db (byId orderId)); [| simpl; intros H; inversion H; reflexivity].
    destruct (_ && _); [simpl; intros H; inversion H; reflexivity |].
    destruct (negb _); [simpl; intros H; inversion H; reflexivity |].
    destruct (order_update now orderId OrderStatus.CANCELLED db) as [[o db'] | e1];
      simpl; intros H; inversion H; reflexivity.
Qed.

End Atomic.
(** ** What a creation adds *)

Lemma createCustomizationRows_appends (orderItemId : Z) (cs : list CartCustomization.t) :
  forall db db',
    createCustomizationRows orderItemId cs db = Ok db' ->
    exists rows,
      orderItemCustomizations db' = orderItemCustomizations db ++ rows
      /\ List.length rows = List.length cs
      /\ Forall (fun r => OrderItemCustomization.orderItemId r = orderItemId) rows.
Proof.
  induction cs as [| c cs IH]; intros db db' H; simpl in H.
  - inversion H; subst. exists []. rewrite app_nil_r. repeat split. constructor.
  - destruct (findCustomization db (CartCustomization.customizationId c)); [| discriminate].
    unfold orderItemCustomization_create in H.
    destruct (_ && _); [| discriminate]. cbn [bind snd] in H.
    apply IH in H. destruct H as [rows [Happ [Hlen Hall]]]. simpl in Happ.
    eexists (_ :: rows). rewrite Happ, <- app_assoc. simpl.
    repeat split; [congruence |]. constructor; [reflexivity | exact Hall].
Qed.

Lemma createItemRows_appends (now orderId : Z) (ps : list PricedItem) :
  forall db db',
    createItemRows now orderId ps db = Ok db' ->
    exists lines rows,
      orderItems db' = orderItems db ++ lines
      /\ List.length lines = List.length ps
      /\ Forall (fun i => OrderItem.orderId i = orderId) lines
      /\ orderItemCustomizations db' = orderItemCustomizations db ++ rows
      /\ Forall (fun r => exists i, In i lines
                                    /\ OrderItem.id i = OrderItemCustomization.orderItemId r)
                rows.
Proof.
  induction ps as [| p ps IH]; intros db db' H; simpl in H.
  - inversion H; subst. exists [], []. rewrite !app_nil_r. repeat split; constructor.
  - unfold orderItem_create in H.
    destruct (_ && _); [| discriminate]. cbn [bind fst snd] in H.
    match type of H with
    | context [OrderItem.mk ?a ?b ?c ?d ?e ?f] => set (newLine := OrderItem.mk a b c d e f) in *
    end.
    destruct (hasCustomizations (item p)).
    + match type of H with
      | context [createCustomizationRows ?i ?cs ?d] =>
          destruct (createCustomizationRows i cs d) as [db1 |] eqn:E; [| discriminate]
      end.
      cbn [bind] in H. apply IH in H.
      destruct H as [lines [rows [Hl [Hlen [Hall [Hr Hbelong]]]]]].
      destruct (createCustomizationRows_appends _ _ _ _ E) as [rows1 [Hr1 [_ Hall1]]].
      apply createCustomizationRows_frame in E.
      destruct E as [_ [_ [_ [_ [_ Hi]]]]]. simpl in Hi, Hr1.
      exists (newLine :: lines), (rows1 ++ rows).
      rewrite Hl, Hi, Hr, Hr1, <- !app_assoc. simpl.
      repeat split; [congruence | constructor; [reflexivity | exact Hall] |].
      apply Forall_app. split.
      * eapply Forall_impl; [| exact Hall1]. intros r Hr'. exists newLine.
        split; [left; reflexivity | symmetry; exact Hr'].
      * eapply Forall_impl; [| exact Hbelong]. intros r [i [Hin Hid]].
        exists i. split; [right; exact Hin | exact Hid].
    + cbn [bind] in H. apply IH in H.
      destruct H as [lines [rows [Hl [Hlen [Hall [Hr Hbelong]]]]]]. simpl in Hl, Hr.
      exists (newLine :: lines), rows.
      rewrite Hl, Hr, <- !app_assoc. simpl.
      repeat split; [congruence | constructor; [reflexivity | exact Hall] |].
      eapply Forall_impl; [| exact Hbelong]. intros r [i [Hin Hid]].
      exists i. split; [right; exact Hin | exact Hid].
Qed.

Lemma mapi_from_length (A B : Type) (f : nat -> A -> B) (l : list A) (i : nat) :
  List.length (mapi_from i f l) = List.length l.
Proof.
  revert i. induction l as [| x l IH]; intros i; simpl; [reflexivity |].
  rewrite IH. reflexivity.
Qed.

Lemma placeOrder_appends (sched : Schedule) (now : Z) (user : AuthUser)
    (body : CreateOrderBody.t) (db : DB) (completeOrder : option HydratedOrder) :
  let out := placeOrder sched now user body db in
  response out = Ok completeOrder ->
  exists o lines rows,
    orders (store out) = orders db ++ [o]
    /\ Order.status o = OrderStatus.PENDING
    /\ (forall x, In x (orders db) -> Order.id x < Order.id o)
    /\ orderItems (store out) = orderItems db ++ lines
    /\ List.length lines = List.length (CreateOrderBody.items body)
    /\ Forall (fun i => OrderItem.orderId i = Order.id o) lines
    /\ orderItemCustomizations (store out) = orderItemCustomizations db ++ rows
    /\ Forall (fun r => exists i, In i lines
                                  /\ OrderItem.id i = OrderItemCustomization.orderItemId r)
              rows
    /\ users (store out) = users db /\ locations (store out) = locations db
    /\ menus (store out) = menus db /\ customizations (store out) = customizations db.
Proof.
  intros out. subst out. unfold placeOrder.
  destruct (validCreateBody body); cbn [negb]; [| discriminate].
  destruct (findActiveLocation db (CreateOrderBody.locationId body)); [| discriminate].
  destruct (Promise_all _ _) as [menuItems |] eqn:Eall; [| discriminate].
  unfold transaction.
  match goal with
  | |- context [persistOrder ?n ?l ?u ?t ?ps ?d] =>
      destruct (persistOrder n l u t ps d) as [[o db'] |] eqn:E; [| discriminate]
  end.
  cbn [response store fst snd]. intros _.
  destruct (persistOrder_frame _ _ _ _ _ _ _ _ E) as [Hnew [Hu [Hl [Hm [Hc [Ho _]]]]]].
  revert E. unfold persistOrder, order_create.
  destruct (_ && _); [| discriminate]. cbn [bind fst snd].
  match goal with
  | |- context [createItemRows ?n ?i ?l ?d] =>
      destruct (createItemRows n i l d) as [db1 |] eqn:Erows; [| discriminate]
  end.
  cbn [bind]. intros H. injection H as Ho' Hdb. subst db1.
  destruct (createItemRows_appends _ _ _ _ _ Erows)
    as [lines [rows [Hlines [Hlen [Hall [Hrows Hbelong]]]]]].
  simpl in Hlines, Hrows.
  exists o, lines, rows.
  split; [exact Ho |]. split; [rewrite Hnew; reflexivity |]. split.
  { intros x Hx. rewrite Hnew. simpl.
    apply autoincrement_fresh. apply in_map. exact Hx. }
  split; [exact Hlines |]. split.
  { rewrite Hlen. apply Promise_all_Ok in Eall.
    apply (f_equal (@List.length _)) in Eall. rewrite length_map in Eall.
    rewrite <- Eall. apply mapi_from_length. }
  split.
  { eapply Forall_impl; [| exact Hall]. intros i Hi. rewrite Hi.
    rewrite Hnew. reflexivity. }
  repeat split; assumption.
Qed.

Lemma placeOrder_Err_store (sched : Schedule) (now : Z) (user : AuthUser)
    (body : CreateOrderBody.t) (db : DB) (e : HttpError) :
  response (placeOrder sched now user body db) = Err e ->
  placeOrder sched now user body db = (Err e, db, []).
Proof.
  unfold placeOrder, reject.
  destruct (negb (validCreateBody body)); [simpl; intros H; inversion H; reflexivity |].
  destruct (findActiveLocation db (CreateOrderBody.locationId body));
    [| simpl; intros H; inversion H; reflexivity].
  destruct (Promise_all _ _); [| simpl; intros H; inversion H; reflexivity].
  destruct (transaction _ db) as [[o db'] | e1]; simpl; intros H; inversion H; reflexivity.
Qed.

Section Appending.

Variable JWT_SECRET : option string.
Variable jwt_verify : string -> string -> option AuthUser.

(** X9.  A creation that answers only adds rows.  It appends one order,
    whose id is larger than the id of every order stored before, one order
    line for each cart entry, all of the new order, and customization lines
    that all belong to the new order lines; every row stored before is still
    there, in place, and the users, locations, menu items and customizations
    are untouched. *)
Theorem creation_only_appends
    (sched : Schedule) (now : Z) (authorization : option string)
    (body : CreateOrderBody.t) (db : DB) (completeOrder : option HydratedOrder) :
  let out := createOrder JWT_SECRET jwt_verify sched now authorization body db in
  response out = Ok completeOrder ->
  exists o lines rows,
    orders (store out) = orders db ++ [o]
    /\ (forall x, In x (orders db) -> Order.id x < Order.id o)
    /\ orderItems (store out) = orderItems db ++ lines
    /\ List.length lines = List.length (CreateOrderBody.items body)
    /\ Forall (fun i => OrderItem.orderId i = Order.id o) lines
    /\ orderItemCustomizations (store out) = orderItemCustomizations db ++ rows
    /\ Forall (fun r => exists i, In i lines
                                  /\ OrderItem.id i = OrderItemCustomization.orderItemId r)
              rows
    /\ users (store out) = users db /\ locations (store out) = locations db
    /\ menus (store out) = menus db /\ customizations (store out) = customizations db.
Proof.
  intros out. subst out. unfold createOrder.
  destruct (authenticateToken JWT_SECRET jwt_verify authorization) as [user | e];
    [| discriminate].
  intros H. destruct (placeOrder_appends sched now user body db completeOrder H)
    as [o [lines [rows [Ho [_ Hrest]]]]].
  exists o, lines, rows. split; [exact Ho | exact Hrest].
Qed.

(** X10.  Create, then fetch.  The order a creation answers with (the
    order row, its order lines and their customization lines) is what a
    fetch of its id by the same caller answers on the store the creation
    left.  The columns of the related menu items, location and user that
    each route selects for display are not part of the model. *)
Theorem create_then_fetch
    (sched : Schedule) (now : Z) (authorization : option string)
    (body : CreateOrderBody.t) (db : DB) (completeOrder : option HydratedOrder) :
  let out := createOrder JWT_SECRET jwt_verify sched now authorization body db in
  response out = Ok completeOrder ->
  exists created,
    completeOrder = Some created
    /\ getOrder JWT_SECRET jwt_verify authorization (Order.id (order created)) (store out)
       = (Ok created, store out, []).
Proof.
  intros out. subst out. unfold createOrder, getOrder.
  destruct (authenticateToken JWT_SECRET jwt_verify authorization) as [user | e];
    [| discriminate].
  intros H.
  destruct (placeOrder_Ok_stored sched now user body db completeOrder H)
    as [o [Hc [Hfind [_ [_ [Hown _]]]]]].
  exists (hydrate true (store (placeOrder sched now user body db)) o).
  split; [exact Hc |]. cbn [order hydrate]. unfold fetchOrder.
  replace (findOrder (store (placeOrder sched now user body db))
                     (visibleTo user (byId (Order.id o)))) with (Some o); [reflexivity |].
  symmetry. revert Hfind. unfold findOrder.
  generalize (orders (store (placeOrder sched now user body db))).
  intros os. induction os as [| x os IH]; simpl; [discriminate |].
  rewrite matches_byId.
  destruct (Order.id x =? Order.id o) eqn:Eid.
  - intros Hx. inversion Hx; subst x.
    replace (matches (visibleTo user (byId (Order.id o))) o) with true; [reflexivity |].
    symmetry. unfold visibleTo. destruct (String.eqb (auth_role user) UserRole.CUSTOMER);
      unfold matches, byId;
      cbn [where_id where_userId where_status where_locationId matches_opt];
      rewrite ?Hown, !Z.eqb_refl; reflexivity.
  - intros Hrest.
    replace (matches (visibleTo user (byId (Order.id o))) x) with false; [apply IH; exact Hrest |].
    symmetry. unfold visibleTo. destruct (String.eqb (auth_role user) UserRole.CUSTOMER);
      unfold matches, byId;
      cbn [where_id where_userId where_status where_locationId matches_opt];
      rewrite Eid; reflexivity.
Qed.

End Appending.
(** ** Invariants of the order tables *)

Lemma update_status_known (now id : Z) (status : string) (os os' : list Order.t) (u : Order.t) :
  update_status now id status os = Some (u, os') ->
  knownStatus status = true ->
  forallb (fun o => knownStatus (Order.status o)) os = true ->
  forallb (fun o => knownStatus (Order.status o)) os' = true.
Proof.
  revert os' u. induction os as [| o os IH]; intros os' u; simpl; [discriminate |].
  intros H Hk Hall. apply andb_true_iff in Hall. destruct Hall as [Ho Hos].
  destruct (Order.id o =? id).
  - inversion H; subst. cbn [forallb withStatus Order.status]. rewrite Hos, Hk. reflexivity.
  - destruct (update_status now id status os) as [[u' rest'] |] eqn:E; [| discriminate].
    inversion H; subst. cbn [forallb]. rewrite Ho. cbn [andb].
    eapply IH; [reflexivity | exact Hk | exact Hos].
Qed.

Section Invariants.

Variable JWT_SECRET : option string.
Variable jwt_verify : string -> string -> option AuthUser.

Lemma serveAll_invariant (P : DB -> Prop) :
  (forall r db, P db -> P (serve JWT_SECRET jwt_verify r db)) ->
  forall rs db, P db -> P (serveAll JWT_SECRET jwt_verify rs db).
Proof.
  intros Hstep rs. induction rs as [| r rs IH]; intros db H; [exact H |].
  simpl. apply IH. apply Hstep. exact H.
Qed.

(** What one request on stored orders does to the store: nothing, or one
    update of the status of one order, to a status of the enumeration. *)
Lemma handle_orders (r : Request) (db : DB) :
  handle JWT_SECRET jwt_verify r db = db
  \/ exists id status o,
       order_update (req_time r) id status db = Ok (o, handle JWT_SECRET jwt_verify r db)
       /\ knownStatus status = true.
Proof.
  unfold handle. destruct (req_op r) as [q | id | id status | id].
  - left. unfold getOrders, listOrders.
    destruct (authenticateToken _ _ _); [| reflexivity].
    destruct (findManyOrders _ _ _ _); reflexivity.
  - left. unfold getOrder, fetchOrder.
    destruct (authenticateToken _ _ _); [| reflexivity].
    destruct (findOrder db (visibleTo _ _)); reflexivity.
  - unfold updateOrderStatus, setStatus.
    destruct (authenticateToken _ _ _); [| left; reflexivity].
    destruct (requireKitchenOrAdmin _); [| left; reflexivity].
    destruct (includes _ status) eqn:Ek; cbn [negb]; [| left; reflexivity].
    destruct (order_update (req_time r) id status db) as [[u db'] |] eqn:E;
      [| left; reflexivity].
    cbn [store fst snd]. right. exists id, status, u. split; [exact E | exact Ek].
  - unfold cancelOrder, cancel.
    destruct (authenticateToken _ _ _); [| left; reflexivity].
    destruct (findOrder db (byId id)); [| left; reflexivity].
    destruct (_ && _); [left; reflexivity |].
    destruct (negb _); [left; reflexivity |].
    destruct (order_update (req_time r) id OrderStatus.CANCELLED db) as [[u db'] |] eqn:E;
      [| left; reflexivity].
    cbn [store fst snd]. right. exists id, OrderStatus.CANCELLED, u. split; [exact E | reflexivity].
Qed.

Lemma createOrder_store (sched : Schedule) (now : Z) (authorization : option string)
    (body : CreateOrderBody.t) (db : DB) :
  let db' := store (createOrder JWT_SECRET jwt_verify sched now authorization body db) in
  db' = db
  \/ exists o,
       orders db' = orders db ++ [o]
       /\ Order.status o = OrderStatus.PENDING
       /\ (forall x, In x (orders db) -> Order.id x < Order.id o).
Proof.
  intros db'. subst db'. unfold createOrder.
  destruct (authenticateToken JWT_SECRET jwt_verify authorization) as [user | e];
    [| left; reflexivity].
  destruct (response (placeOrder sched now user body db)) as [c | e] eqn:E.
  - right. destruct (placeOrder_appends sched now user body db c E)
      as [o [_ [_ [Ho [Hp [Hfresh _]]]]]].
    exists o. repeat split; assumption.
  - left. rewrite (placeOrder_Err_store _ _ _ _ _ _ E). reflexivity.
Qed.

(** X11.  Through any sequence of requests to the order routes, creations
    included, every order line belongs to a stored order and every
    customization line to a stored order line, when that was so before. *)
Theorem order_requests_keep_foreign_keys (rs : list OrderRequest) (db : DB) :
  referential_integrity db = true ->
  referential_integrity (serveAll JWT_SECRET jwt_verify rs db) = true.
Proof.
  apply (serveAll_invariant (fun d => referential_integrity d = true)).
  intros r d H. unfold serve. destruct (order_op r) as [sched body | op].
  - apply (referential_integrity_kept JWT_SECRET jwt_verify sched (order_time r)
             (order_authorization r) body
             (mkRequest 0 None (OpFetch 0)) d H).
  - apply (referential_integrity_kept JWT_SECRET jwt_verify
             (mkSchedule [] (fun _ => [])) 0 None (CreateOrderBody.mk 0 [])
             (mkRequest (order_time r) (order_authorization r) op) d H).
Qed.

(** X12.  The status column is text, and the routes keep it within the
    enumeration: through any sequence of requests to the order routes every
    stored order has one of the four statuses, when that was so before. *)
Theorem order_requests_keep_statuses_known (rs : list OrderRequest) (db : DB) :
  statusesKnown db = true ->
  statusesKnown (serveAll JWT_SECRET jwt_verify rs db) = true.
Proof.
  apply (serveAll_invariant (fun d => statusesKnown d = true)).
  intros r d H. unfold serve. destruct (order_op r) as [sched body | op].
  - destruct (createOrder_store sched (order_time r) (order_authorization r) body d)
      as [Hsame | [o [Ho [Hp _]]]].
    + rewrite Hsame. exact H.
    + unfold statusesKnown in *. rewrite Ho, forallb_app, H. simpl. rewrite Hp. reflexivity.
  - destruct (handle_orders (mkRequest (order_time r) (order_authorization r) op) d)
      as [Hsame | [id [status [o [Hup Hk]]]]].
    + rewrite Hsame. exact H.
    + revert Hup. unfold order_update. cbn [req_time].
      destruct (update_status (order_time r) id status (orders d))
        as [[u os'] |] eqn:E; [| discriminate].
      intros Hup. injection Hup as _ Hdb. rewrite <- Hdb.
      unfold statusesKnown in *. simpl.
      exact (update_status_known _ _ _ _ _ _ E Hk H).
Qed.

(** X13.  Order ids stay unique through any sequence of requests to the
    order routes: a creation takes an id above every stored one, and no
    other route adds, removes or renumbers an order. *)
Theorem order_requests_keep_ids_unique (rs : list OrderRequest) (db : DB) :
  orderIdsUnique db ->
  orderIdsUnique (serveAll JWT_SECRET jwt_verify rs db)
  /\ exists added,
       map Order.id (orders (serveAll JWT_SECRET jwt_verify rs db))
       = map Order.id (orders db) ++ added.
Proof.
  intros Hu.
  apply (serveAll_invariant
           (fun d => orderIdsUnique d
                     /\ exists added, map Order.id (orders d)
                                       = map Order.id (orders db) ++ added));
    [| split; [exact Hu | exists []; rewrite app_nil_r; reflexivity]].
  intros r d [H [added Hadded]]. unfold serve. destruct (order_op r) as [sched body | op].
  - destruct (createOrder_store sched (order_time r) (order_authorization r) body d)
      as [Hsame | [o [Ho [_ Hfresh]]]].
    + rewrite Hsame. split; [exact H | exists added; exact Hadded].
    + unfold orderIdsUnique in *. rewrite Ho, map_app. simpl. split.
      * apply Permutation_NoDup with (l := Order.id o :: map Order.id (orders d)).
        { apply Permutation_cons_append. }
        constructor; [| exact H].
        intros Hin. apply in_map_iff in Hin. destruct Hin as [x [Hid Hx]].
        specialize (Hfresh x Hx). lia.
      * exists (added ++ [Order.id o]). rewrite Hadded, app_assoc. reflexivity.
  - destruct (handle_orders (mkRequest (order_time r) (order_authorization r) op) d)
      as [Hsame | [id [status [o [Hup _]]]]].
    + rewrite Hsame. split; [exact H | exists added; exact Hadded].
    + revert Hup. unfold order_update. cbn [req_time].
      destruct (update_status (order_time r) id status (orders d))
        as [[u os'] |] eqn:E; [| discriminate].
      intros Hup. injection Hup as _ Hdb. rewrite <- Hdb.
      apply update_status_ids in E.
      unfold orderIdsUnique in *. simpl. rewrite E.
      split; [exact H | exists added; exact Hadded].
Qed.

End Invariants.
(** ** Accounts *)

Lemma update_row_spec (A : Type) (key : A -> Z) (id : Z) (data : A -> A) (rows : list A) :
  match update_row key id data rows with
  | Some (r', rows') =>
      exists before r after,
        rows = before ++ r :: after
        /\ rows' = before ++ data r :: after
        /\ r' = data r
        /\ key r = id
        /\ find (fun x => key x =? id) rows = Some r
  | None => find (fun x => key x =? id) rows = None
  end.
Proof.
  induction rows as [| x rows IH]; simpl; [reflexivity |].
  destruct (key x =? id) eqn:E.
  - exists [], x, rows. apply Z.eqb_eq in E. repeat split; assumption.
  - destruct (update_row key id data rows) as [[r' rows'] |].
    + destruct IH as [before [r [after [H1 [H2 [H3 [H4 H5]]]]]]].
      exists (x :: before), r, after. subst. repeat split; assumption.
    + exact IH.
Qed.

Lemma find_email_unique (u : User.t) (before after : list User.t) (u' : User.t) :
  NoDup (map User.email (before ++ u :: after)) ->
  User.email u' = User.email u ->
  find (fun x => String.eqb (User.email x) (User.email u)) (before ++ u' :: after) = Some u'.
Proof.
  intros Hnd He. rewrite find_app. rewrite (find_none_iff _ _ before).
  - simpl. rewrite He, String.eqb_refl. reflexivity.
  - intros x Hx. apply String.eqb_neq. intros Heq.
    rewrite map_app in Hnd. simpl in Hnd. apply NoDup_remove_2 in Hnd.
    apply Hnd. apply in_or_app. left. rewrite <- Heq. apply in_map. exact Hx.
Qed.

Section Accounts.

Variable JWT_SECRET : option string.
Variable jwt_verify : string -> string -> option AuthUser.
Variable jwt_sign : AuthUser -> string -> string.
Variable bcrypt_hash : string -> string.
Variable bcrypt_compare : string -> string -> bool.
Variable isEmail : string -> bool.
Variable normalizeEmail : string -> string.
Variable trim : string -> string.

Lemma register_store (now : Z) (authorization : option string) (body : RegisterBody.t)
    (db : DB) :
  let out := register JWT_SECRET jwt_sign bcrypt_hash isEmail normalizeEmail trim
                      now authorization body db in
  snd out = db
  \/ exists user,
       snd out = set_users db (users db ++ [user])
       /\ validRegisterBody isEmail body = true
       /\ findUserByEmail db (normalizeEmail (RegisterBody.email body)) = None
       /\ User.id user = autoincrement (map User.id (users db))
       /\ User.email user = normalizeEmail (RegisterBody.email body)
       /\ User.password user = bcrypt_hash (RegisterBody.password body)
       /\ (forall u token, fst out = Ok (u, token) ->
             u = user
             /\ exists secret,
                  JWT_SECRET = Some secret
                  /\ token = jwt_sign (mkAuthUser (User.id user) (User.email user)
                                                   (User.role user)) secret).
Proof.
  intros out. subst out. unfold register.
  destruct (validRegisterBody isEmail body) eqn:Ev; cbn [negb]; [| left; reflexivity].
  destruct (findUserByEmail db (normalizeEmail (RegisterBody.email body))) eqn:Ef;
    [left; reflexivity |].
  right. eexists. split; [destruct JWT_SECRET; reflexivity |].
  repeat split; try reflexivity.
  - destruct JWT_SECRET; simpl in H; inversion H; reflexivity.
  - destruct JWT_SECRET as [secret |]; simpl in H; inversion H.
    exists secret. split; reflexivity.
Qed.

(** X14.  Registering an email twice.  Whatever the first registration of
    a valid body answered (the new user, UserAlreadyExists, or the 500 of a
    missing JWT_SECRET, which is raised after the row is written), a second
    valid registration with the same email answers UserAlreadyExists (409)
    and writes nothing. *)
Theorem register_twice (now now' : Z) (authorization authorization' : option string)
    (body body' : RegisterBody.t) (db : DB) :
  validRegisterBody isEmail body = true ->
  validRegisterBody isEmail body' = true ->
  normalizeEmail (RegisterBody.email body') = normalizeEmail (RegisterBody.email body) ->
  let db1 := snd (register JWT_SECRET jwt_sign bcrypt_hash isEmail normalizeEmail trim
                           now authorization body db) in
  register JWT_SECRET jwt_sign bcrypt_hash isEmail normalizeEmail trim
           now' authorization' body' db1
  = (Err UserAlreadyExists, db1).
Proof.
  intros Hv Hv' He db1.
  assert (exists u, findUserByEmail db1 (normalizeEmail (RegisterBody.email body)) = Some u)
    as [u Hu].
  { subst db1. unfold register. rewrite Hv. cbn [negb].
    destruct (findUserByEmail db (normalizeEmail (RegisterBody.email body))) as [u |] eqn:Ef.
    - exists u. exact Ef.
    - eexists. destruct JWT_SECRET; cbn [snd]; unfold findUserByEmail; cbn [users set_users];
        rewrite find_app; unfold findUserByEmail in Ef; rewrite Ef; simpl;
        rewrite String.eqb_refl; reflexivity. }
  unfold register at 1. rewrite Hv'. cbn [negb]. rewrite He, Hu. reflexivity.
Qed.

Lemma authenticated (authorization : option string) :
  next [useAuthenticateToken JWT_SECRET jwt_verify] (incoming authorization)
  = match authenticateToken JWT_SECRET jwt_verify authorization with
    | Ok decoded => Ok (mkAuthRequest authorization (Some decoded))
    | Err e => Err e
    end.
Proof.
  unfold next, useAuthenticateToken, incoming. cbn [header_authorization].
  destruct (authenticateToken JWT_SECRET jwt_verify authorization); reflexivity.
Qed.

Lemma user_update_step (id : Z) (data : User.t -> User.t) (db : DB) :
  match user_update id data db with
  | Ok (u', db') =>
      exists before u after,
        users db = before ++ u :: after
        /\ db' = set_users db (before ++ data u :: after)
        /\ u' = data u
        /\ User.id u = id
        /\ findUserById db id = Some u
  | Err e => e = PrismaRecordNotFound /\ findUserById db id = None
  end.
Proof.
  unfold user_update, findUserById.
  pose proof (update_row_spec User.t User.id id data (users db)) as H.
  destruct (update_row User.id id data (users db)) as [[u' us'] |].
  - destruct H as [before [u [after [H1 [H2 [H3 [H4 H5]]]]]]].
    exists before, u, after. subst us'. repeat split; assumption.
  - split; [reflexivity | exact H].
Qed.

(** What one account request does to the users table. *)
Lemma account_step (r : AccountRequest) (db : DB) :
  let db' := account JWT_SECRET jwt_verify jwt_sign bcrypt_hash bcrypt_compare
                     isEmail normalizeEmail trim r db in
  db' = db
  \/ (exists user,
        db' = set_users db (users db ++ [user])
        /\ findUserByEmail db (User.email user) = None
        /\ User.id user = autoincrement (map User.id (users db)))
  \/ (exists before u after u',
        users db = before ++ u :: after
        /\ db' = set_users db (before ++ u' :: after)
        /\ identity u' = identity u).
Proof.
  intros db'. subst db'. unfold account. destruct (account_op r) as [body | body | | body | body].
  - destruct (register_store (account_time r) (account_authorization r) body db)
      as [Hsame | [user [Hdb [_ [Hnone [Hid [He _]]]]]]].
    + left. exact Hsame.
    + right. left. exists user. rewrite He. repeat split; assumption.
  - left. reflexivity.
  - left. reflexivity.
  - unfold updateProfile. rewrite authenticated.
    destruct (authenticateToken JWT_SECRET jwt_verify (account_authorization r))
      as [caller | e]; [| left; reflexivity].
    cbn [req_user].
    match goal with
    | |- context [user_update ?i ?d db] =>
        pose proof (user_update_step i d db) as H; destruct (user_update i d db) as [[u' db'] |]
    end; [| left; reflexivity].
    destruct H as [before [u [after [H1 [H2 [H3 _]]]]]].
    right. right. exists before, u, after, u'. cbn [snd].
    subst u'. split; [exact H1 |]. split; [exact H2 |]. reflexivity.
  - unfold changePassword. rewrite authenticated.
    destruct (authenticateToken JWT_SECRET jwt_verify (account_authorization r))
      as [caller | e]; [| left; reflexivity].
    cbn [req_user].
    destruct (negb _); [left; reflexivity |].
    destruct (findUserById db (auth_id caller)); [| left; reflexivity].
    destruct (negb _); [left; reflexivity |].
    match goal with
    | |- context [user_update ?i ?d db] =>
        pose proof (user_update_step i d db) as H; destruct (user_update i d db) as [[u' db'] |]
    end; [| left; reflexivity].
    destruct H as [before [u [after [H1 [H2 [H3 _]]]]]].
    right. right. exists before, u, after, u'. cbn [snd].
    subst u'. split; [exact H1 |]. split; [exact H2 |]. reflexivity.
Qed.

Lemma accounts_invariant (P : DB -> Prop) :
  (forall r db, P db -> P (account JWT_SECRET jwt_verify jwt_sign bcrypt_hash bcrypt_compare
                                   isEmail normalizeEmail trim r db)) ->
  forall rs db, P db ->
    P (accounts JWT_SECRET jwt_verify jwt_sign bcrypt_hash bcrypt_compare
                isEmail normalizeEmail trim rs db).
Proof.
  intros Hstep rs. induction rs as [| r rs IH]; intros db H; [exact H |].
  simpl. apply IH. apply Hstep. exact H.
Qed.

(** X15.  Emails stay unique through any sequence of requests to the
    account routes (register, login, profile, change-password): the one
    route that writes an email looks it up first. *)
Theorem accounts_keep_emails_unique (rs : list AccountRequest) (db : DB) :
  emailsUnique db ->
  emailsUnique (accounts JWT_SECRET jwt_verify jwt_sign bcrypt_hash bcrypt_compare
                         isEmail normalizeEmail trim rs db).
Proof.
  apply accounts_invariant. intros r d H.
  destruct (account_step r d)
    as [Hsame | [[user [Hdb [Hnone _]]] | [before [u [after [u' [Hus [Hdb Hid]]]]]]]].
  - rewrite Hsame. exact H.
  - rewrite Hdb. unfold emailsUnique in *. cbn [users set_users]. rewrite map_app. simpl.
    apply Permutation_NoDup with (l := User.email user :: map User.email (users d)).
    { apply Permutation_cons_append. }
    constructor; [| exact H].
    intros Hin. apply in_map_iff in Hin. destruct Hin as [x [He Hx]].
    unfold findUserByEmail in Hnone.
    apply (find_none _ _ Hnone) in Hx. rewrite He, String.eqb_refl in Hx. discriminate.
  - rewrite Hdb. unfold emailsUnique in *. cbn [users set_users].
    rewrite Hus in H. rewrite map_app in *. simpl in *.
    unfold identity in Hid. inversion Hid as [[H1 H2 H3 H4 H5]]. rewrite H2. exact H.
Qed.

(** X16.  No account route changes who a stored user is: through any
    sequence of requests to the account routes the users table keeps, row
    for row and in order, the id, email, role, loyalty points and creation
    time of every user it had, with the users registered since after them;
    and the other tables are as they were. *)
Theorem accounts_keep_identity (rs : list AccountRequest) (db : DB) :
  let db' := accounts JWT_SECRET jwt_verify jwt_sign bcrypt_hash bcrypt_compare
                      isEmail normalizeEmail trim rs db in
  (exists registered, map identity (users db') = map identity (users db) ++ registered)
  /\ locations db' = locations db /\ menus db' = menus db
  /\ customizations db' = customizations db /\ orders db' = orders db
  /\ orderItems db' = orderItems db
  /\ orderItemCustomizations db' = orderItemCustomizations db.
Proof.
  intros db'. subst db'.
  apply (accounts_invariant
           (fun d => (exists registered,
                        map identity (users d) = map identity (users db) ++ registered)
                     /\ locations d = locations db /\ menus d = menus db
                     /\ customizations d = customizations db /\ orders d = orders db
                     /\ orderItems d = orderItems db
                     /\ orderItemCustomizations d = orderItemCustomizations db));
    [| split; [exists []; rewrite app_nil_r; reflexivity | repeat split]].
  intros r d [[registered Hreg] Hrest].
  destruct (account_step r d)
    as [Hsame | [[user [Hdb _]] | [before [u [after [u' [Hus [Hdb Hid]]]]]]]];
    rewrite ?Hsame, ?Hdb; cbn [users locations menus customizations orders orderItems
                                orderItemCustomizations set_users].
  - split; [exists registered; exact Hreg | exact Hrest].
  - split; [| exact Hrest]. exists (registered ++ [identity user]).
    rewrite map_app, Hreg, app_assoc. reflexivity.
  - split; [| exact Hrest]. exists registered. rewrite <- Hreg, Hus, !map_app. simpl.
    rewrite Hid. reflexivity.
Qed.



(** X18.  Login answers only for a stored user: the user whose email is the
    normalised email of the body, when [bcrypt.compare] accepts the password
    against the stored hash, with a token signed for the id, email and role
    of that user.  A body that passes validation and does not log in is
    answered the same 401 whether the email is unknown or the password is
    wrong, unless JWT_SECRET is missing. *)
Theorem login_sound (body : LoginBody.t) (db : DB) :
  let out := login JWT_SECRET jwt_sign bcrypt_compare isEmail normalizeEmail body db in
  (forall view token, out = Replied (view, token) ->
     exists user secret,
       In user (users db)
       /\ User.email user = normalizeEmail (LoginBody.email body)
       /\ bcrypt_compare (LoginBody.password body) (User.password user) = true
       /\ view = viewOf user
       /\ JWT_SECRET = Some secret
       /\ token = jwt_sign (mkAuthUser (User.id user) (User.email user) (User.role user))
                           secret)
  /\ (isEmail (LoginBody.email body) = true -> notEmpty (LoginBody.password body) = true ->
      forall f, out = Failed f ->
        f = createError "Invalid email or password" 401
        \/ (JWT_SECRET = None /\ f = createError "JWT_SECRET is not configured" 500)).
Proof.
  intros out. subst out. unfold login. split.
  - intros view token.
    destruct (negb _); [discriminate |].
    destruct (findUserByEmail db (normalizeEmail (LoginBody.email body))) as [user |] eqn:Ef;
      [| discriminate].
    destruct (bcrypt_compare (LoginBody.password body) (User.password user)) eqn:Ec;
      cbn [negb]; [| discriminate].
    destruct JWT_SECRET as [secret |]; [| discriminate].
    intros H. inversion H; subst. exists user, secret.
    unfold findUserByEmail in Ef. apply find_some in Ef. destruct Ef as [Hin He].
    apply String.eqb_eq in He. repeat split; assumption.
  - intros Hmail Hpw f. rewrite Hmail, Hpw. cbn [andb negb].
    destruct (findUserByEmail db (normalizeEmail (LoginBody.email body))) as [user |];
      [| intros H; inversion H; left; reflexivity].
    destruct (negb _); [intros H; inversion H; left; reflexivity |].
    destruct JWT_SECRET; [discriminate |].
    intros H; inversion H. right. split; reflexivity.
Qed.

(** X19.  The orders of a profile are at most ten stored orders of the
    user, newest first. *)
Theorem profile_recent_orders (authorization : option string) (db : DB)
    (view : UserView) (recent : list ProfileOrder) :
  getProfile JWT_SECRET jwt_verify authorization db = Replied (view, recent) ->
  exists listed_orders,
    recent = map (profileOrder db) listed_orders
    /\ (List.length recent <= 10)%nat
    /\ Forall (fun o => In o (orders db) /\ Order.userId o = view_id view) listed_orders
    /\ StronglySorted notOlder listed_orders.
Proof.
  unfold getProfile. rewrite authenticated.
  destruct (authenticateToken JWT_SECRET jwt_verify authorization) as [caller |];
    [| discriminate].
  cbn [req_user].
  destruct (findUserById db (auth_id caller)) as [user |]; [| discriminate].
  intros H. inversion H; subst. clear H.
  exists (recentOrders db (User.id user)). split; [reflexivity |].
  split; [rewrite length_map; unfold recentOrders; rewrite length_firstn; lia |].
  unfold recentOrders. split.
  - apply Forall_firstn_of. apply Forall_forall. intros o Ho.
    apply orderBy_createdAt_desc_In in Ho. apply filter_In in Ho.
    destruct Ho as [Hin Hown]. split; [exact Hin | apply Z.eqb_eq; exact Hown].
  - apply StronglySorted_firstn. apply orderBy_createdAt_desc_sorted.
Qed.

(** X20.  Change the password, then log in.  After a change-password
    that answered, on a store with unique emails, a login with the email of
    the caller's row is decided by [bcrypt.compare] against the hash of the
    new password and by nothing else: it answers the caller's user when the
    password is accepted against that hash, and Invalid email or password
    (401) when not. *)
Theorem change_password_then_login (now : Z) (authorization : option string)
    (caller : AuthUser) (body : PasswordBody.t) (db db' : DB) (user : User.t)
    (attempt : LoginBody.t) :
  emailsUnique db ->
  authenticateToken JWT_SECRET jwt_verify authorization = Ok caller ->
  findUserById db (auth_id caller) = Some user ->
  changePassword JWT_SECRET jwt_verify bcrypt_hash bcrypt_compare now authorization body db
  = (Replied tt, db') ->
  isEmail (LoginBody.email attempt) = true ->
  normalizeEmail (LoginBody.email attempt) = User.email user ->
  notEmpty (LoginBody.password attempt) = true ->
  exists secret,
    JWT_SECRET = Some secret
    /\ login JWT_SECRET jwt_sign bcrypt_compare isEmail normalizeEmail attempt db'
       = if bcrypt_compare (LoginBody.password attempt)
                           (bcrypt_hash (PasswordBody.newPassword body))
         then Replied (viewOf user,
                       jwt_sign (mkAuthUser (User.id user) (User.email user) (User.role user))
                                secret)
         else Failed (createError "Invalid email or password" 401).
Proof.
  intros Hunique Hauth Hfind Hchange Hmail Hnorm Hpw.
  assert (exists secret, JWT_SECRET = Some secret) as [secret Hs].
  { revert Hauth. unfold authenticateToken. destruct (bearerToken authorization);
      [| discriminate]. destruct JWT_SECRET as [secret |]; [| discriminate].
    intros _. exists secret. reflexivity. }
  exists secret. split; [exact Hs |].
  revert Hchange. unfold changePassword. rewrite authenticated, Hauth. cbn [req_user].
  destruct (negb _); [discriminate |]. rewrite Hfind.
  destruct (negb _); [discriminate |].
  match goal with
  | |- context [user_update ?i ?d db] =>
      pose proof (user_update_step i d db) as H; destruct (user_update i d db) as [[u' db1] |]
  end; [| discriminate].
  destruct H as [before [u [after [H1 [H2 [H3 [H4 H5]]]]]]].
  intros H. injection H as Hdb. rewrite <- Hdb. clear Hdb.
  rewrite Hfind in H5. injection H5 as Hu. subst u.
  unfold login. rewrite Hmail, Hpw, Hnorm. cbn [andb negb].
  unfold findUserByEmail. rewrite H2. cbn [users set_users].
  unfold emailsUnique in Hunique. rewrite H1 in Hunique.
  rewrite (find_email_unique user before after
             (withPassword (bcrypt_hash (PasswordBody.newPassword body)) now user)
             Hunique eq_refl).
  cbn [withPassword User.password User.id User.email User.role].
  destruct (bcrypt_compare (LoginBody.password attempt)
                           (bcrypt_hash (PasswordBody.newPassword body)));
    cbn [negb]; [| reflexivity].
  rewrite Hs. reflexivity.
Qed.

(** X21.  A token that verifies for a user id that has no row.  The
    profile is answered User not found (404) and so is change-password,
    which look the user up; the profile update makes no lookup, and fails
    with the rejection of [prisma.user.update], which carries no status.
    None of the three writes anything. *)
Theorem token_of_unknown_user (now : Z) (authorization : option string) (caller : AuthUser)
    (profile : ProfileBody.t) (passwords : PasswordBody.t) (db : DB) :
  authenticateToken JWT_SECRET jwt_verify authorization = Ok caller ->
  findUserById db (auth_id caller) = None ->
  notEmpty (PasswordBody.currentPassword passwords) = true ->
  (6 <= String.length (PasswordBody.newPassword passwords))%nat ->
  getProfile JWT_SECRET jwt_verify authorization db
  = Failed (createError "User not found" 404)
  /\ changePassword JWT_SECRET jwt_verify bcrypt_hash bcrypt_compare now authorization
                    passwords db
     = (Failed (createError "User not found" 404), db)
  /\ updateProfile JWT_SECRET jwt_verify trim now authorization profile db
     = (Failed (Raised PrismaRecordNotFound), db)
  /\ failureStatus (Raised PrismaRecordNotFound) = None.
Proof.
  intros Hauth Hnone Hcur Hnew. repeat split.
  - unfold getProfile. rewrite authenticated, Hauth. cbn [req_user]. rewrite Hnone.
    reflexivity.
  - unfold changePassword. rewrite authenticated, Hauth. cbn [req_user].
    rewrite Hcur. apply Nat.leb_le in Hnew. rewrite Hnew. cbn [andb negb].
    rewrite Hnone. reflexivity.
  - unfold updateProfile. rewrite authenticated, Hauth. cbn [req_user].
    match goal with
    | |- context [user_update ?i ?d db] =>
        pose proof (user_update_step i d db) as H; destruct (user_update i d db) as [[u' db1] | e]
    end.
    + destruct H as [before [u [after [_ [_ [_ [_ H5]]]]]]]. congruence.
    + destruct H as [He _]. subst e. reflexivity.
Qed.

End Accounts.
(** ** Socket sessions *)







Section Sockets.

Variable JWT_SECRET : option string.
Variable jwt_verify : string -> string -> option AuthUser.



(** X24.  The socket handshake accepts the tokens the routes accept.  A
    token with no space in it opens a socket exactly when the Authorization
    header made of Bearer, a space and the token authenticates a request,
    and the socket is then the socket of the user the request would be the
    request of, in that user's personal room and in no other room. *)
Theorem handshake_as_bearer (token : string) :
  hasSpace token = false -> token <> EmptyString ->
  connect JWT_SECRET jwt_verify (Some token)
  = match authenticateToken JWT_SECRET jwt_verify (Some ("Bearer " ++ token)%string) with
    | Ok decoded => Some (mkSocket decoded [user_room (auth_id decoded)])
    | Err _ => None
    end.
Proof.
  intros Hs Hne. unfold authenticateToken.
  change ("Bearer " ++ token)%string with ("Bearer" ++ String " " token)%string.
  rewrite (bearerToken_second_word "Bearer" token eq_refl), (split_no_space token Hs).
  unfold connect. destruct token as [| c t]; [congruence |].
  destruct JWT_SECRET as [secret |]; [| reflexivity].
  destruct (jwt_verify (String c t) secret); reflexivity.
Qed.

End Sockets.
(** ** Ordered query results *)

Lemma string_leb_trans (s1 s2 s3 : string) :
  String.leb s1 s2 = true -> String.leb s2 s3 = true -> String.leb s1 s3 = true.
Proof.
  unfold String.leb. revert s2 s3.
  induction s1 as [| c1 s1 IH]; intros [| c2 s2] [| c3 s3]; simpl; try (intros; congruence).
  unfold Ascii.compare.
  destruct (N.compare_spec (N_of_ascii c1) (N_of_ascii c2)) as [H12 | H12 | H12];
    destruct (N.compare_spec (N_of_ascii c2) (N_of_ascii c3)) as [H23 | H23 | H23];
    destruct (N.compare_spec (N_of_ascii c1) (N_of_ascii c3)) as [H13 | H13 | H13];
    try (intros; congruence); try lia.
  apply IH.
Qed.

Lemma string_leb_refl (s : string) : String.leb s s = true.
Proof.
  destruct (String.leb_total s s); assumption.
Qed.

Lemma insert_by_perm (A : Type) (le : A -> A -> bool) (x : A) (l : list A) :
  Permutation (x :: l) (insert_by le x l).
Proof.
  induction l as [| y l IH]; simpl; [apply Permutation_refl |].
  destruct (le x y); [apply Permutation_refl |].
  eapply Permutation_trans; [apply perm_swap |]. apply perm_skip. exact IH.
Qed.

Lemma orderBy_perm (A : Type) (le : A -> A -> bool) (l : list A) :
  Permutation l (orderBy le l).
Proof.
  induction l as [| x l IH]; simpl; [apply Permutation_refl |].
  eapply Permutation_trans; [apply perm_skip; exact IH |]. apply insert_by_perm.
Qed.

Lemma orderBy_In (A : Type) (le : A -> A -> bool) (l : list A) (x : A) :
  In x (orderBy le l) <-> In x l.
Proof.
  split; apply Permutation_in; [apply Permutation_sym |]; apply orderBy_perm.
Qed.

Section Sorting.

Variable A : Type.
Variable le : A -> A -> bool.
Hypothesis le_total : forall a b, le a b = true \/ le b a = true.
Hypothesis le_trans : forall a b c, le a b = true -> le b c = true -> le a c = true.

Lemma insert_by_sorted (x : A) (l : list A) :
  StronglySorted (fun a b => le a b = true) l ->
  StronglySorted (fun a b => le a b = true) (insert_by le x l).
Proof.
  induction l as [| y l IH]; simpl; intros H.
  - constructor; [constructor | constructor].
  - apply StronglySorted_inv in H. destruct H as [Hl Hy].
    destruct (le x y) eqn:E.
    + constructor; [constructor; assumption |].
      constructor; [exact E |].
      eapply Forall_impl; [| exact Hy]. intros a Ha. eapply le_trans; eassumption.
    + constructor; [apply IH; exact Hl |].
      apply Forall_forall. intros z Hz.
      apply (Permutation_in _ (Permutation_sym (insert_by_perm A le x l))) in Hz.
      destruct Hz as [Hz | Hz].
      * subst z. destruct (le_total x y) as [H | H]; [congruence | exact H].
      * rewrite Forall_forall in Hy. apply Hy. exact Hz.
Qed.

Lemma orderBy_sorted (l : list A) : StronglySorted (fun a b => le a b = true) (orderBy le l).
Proof.
  induction l as [| x l IH]; simpl; [constructor |]. apply insert_by_sorted. exact IH.
Qed.

End Sorting.

Lemma StronglySorted_filter (A : Type) (R : A -> A -> Prop) (f : A -> bool) (l : list A) :
  StronglySorted R l -> StronglySorted R (filter f l).
Proof.
  induction 1 as [| x l Hl IH Hx]; simpl; [constructor |].
  destruct (f x); [| exact IH]. constructor; [exact IH |].
  apply Forall_forall. intros y Hy. apply filter_In in Hy.
  rewrite Forall_forall in Hx. apply Hx. apply Hy.
Qed.

Lemma distinct_In (l : list string) (x : string) : In x (distinct l) <-> In x l.
Proof.
  induction l as [| y l IH]; simpl; [reflexivity |]. split.
  - intros [H | H]; [left; exact H |]. apply filter_In in H. right. apply IH. apply H.
  - intros [H | H]; [left; exact H |].
    destruct (String.eqb y x) eqn:E.
    + left. apply String.eqb_eq. exact E.
    + right. apply filter_In. split; [apply IH; exact H | rewrite E; reflexivity].
Qed.

Lemma NoDup_filter_of (A : Type) (f : A -> bool) (l : list A) : NoDup l -> NoDup (filter f l).
Proof.
  induction 1 as [| x l Hx Hl IH]; simpl; [constructor |].
  destruct (f x); [| exact IH]. constructor; [| exact IH].
  intros Hin. apply filter_In in Hin. apply Hx. apply Hin.
Qed.

Lemma distinct_NoDup (l : list string) : NoDup (distinct l).
Proof.
  induction l as [| y l IH]; simpl; [constructor |]. constructor.
  - intros Hin. apply filter_In in Hin. destruct Hin as [_ H].
    rewrite String.eqb_refl in H. discriminate.
  - apply NoDup_filter_of. exact IH.
Qed.

Lemma distinct_sorted (R : string -> string -> Prop) (l : list string) :
  StronglySorted R l -> StronglySorted R (distinct l).
Proof.
  induction 1 as [| x l Hl IH Hx]; simpl; [constructor |].
  constructor; [apply StronglySorted_filter; exact IH |].
  apply Forall_forall. intros y Hy. apply filter_In in Hy. destruct Hy as [Hy _].
  rewrite Forall_forall in Hx. apply Hx. apply (proj1 (distinct_In l y)). exact Hy.
Qed.

Lemma byCategoryThenTitle_total (a b : Catalog.Menu.t) :
  byCategoryThenTitle a b = true \/ byCategoryThenTitle b a = true.
Proof.
  unfold byCategoryThenTitle. rewrite (String.eqb_sym (Catalog.Menu.category b)).
  destruct (String.eqb (Catalog.Menu.category a) (Catalog.Menu.category b));
    apply String.leb_total.
Qed.

Lemma byCategoryThenTitle_trans (a b c : Catalog.Menu.t) :
  byCategoryThenTitle a b = true -> byCategoryThenTitle b c = true ->
  byCategoryThenTitle a c = true.
Proof.
  unfold byCategoryThenTitle.
  destruct (String.eqb_spec (Catalog.Menu.category a) (Catalog.Menu.category b)) as [Eab | Eab];
    destruct (String.eqb_spec (Catalog.Menu.category b) (Catalog.Menu.category c)) as [Ebc | Ebc];
    destruct (String.eqb_spec (Catalog.Menu.category a) (Catalog.Menu.category c)) as [Eac | Eac];
    intros H1 H2; try congruence.
  all: try (eapply string_leb_trans; eassumption).
  all: try (rewrite <- Ebc; exact H1).
  all: try (rewrite Eab; exact H2).
  exfalso. apply Eab. apply String.leb_antisym; [exact H1 |]. rewrite Eac. exact H2.
Qed.

(** ** The catalogue *)

Lemma admin_gate_alone (authorization : option string) :
  next [useRequireAdmin] (incoming authorization) = Err AuthenticationRequired.
Proof. reflexivity. Qed.

Section CatalogWrites.

Variable isEmail : string -> bool.
Variable normalizeEmail : string -> string.
Variable trim : string -> string.
Variable isMobilePhone : string -> bool.
Variable isURL : string -> bool.

(** X25.  No request changes the catalogue.  The routes that create,
    update and delete locations, menu items and customizations run
    [requireAdmin] without [authenticateToken] before it, so [req.user] is
    never set when it is read: each of them answers AuthenticationRequired
    (401) whatever the Authorization header, the token of an ADMIN included,
    and writes nothing; and after any sequence of requests to the catalogue
    routes the catalogue is what it was. *)
Theorem catalogue_never_written (now : Z) (authorization : option string) (id : Z)
    (cat : Catalog.t) :
  (forall body, createLocation isEmail normalizeEmail trim isMobilePhone now authorization
                               body cat
                = (Failed (Raised AuthenticationRequired), cat))
  /\ (forall body, updateLocation isEmail normalizeEmail trim isMobilePhone now authorization
                                  id body cat
                   = (Failed (Raised AuthenticationRequired), cat))
  /\ deleteLocation now authorization id cat = (Failed (Raised AuthenticationRequired), cat)
  /\ (forall body, createMenuItem trim isURL now authorization body cat
                   = (Failed (Raised AuthenticationRequired), cat))
  /\ (forall body, updateMenuItem trim isURL now authorization id body cat
                   = (Failed (Raised AuthenticationRequired), cat))
  /\ deleteMenuItem now authorization id cat = (Failed (Raised AuthenticationRequired), cat)
  /\ (forall body, addCustomization trim now authorization id body cat
                   = (Failed (Raised AuthenticationRequired), cat))
  /\ (forall body, updateCustomization trim now authorization id body cat
                   = (Failed (Raised AuthenticationRequired), cat))
  /\ deleteCustomization authorization id cat = (Failed (Raised AuthenticationRequired), cat)
  /\ failureStatus (Raised AuthenticationRequired) = Some 401
  /\ forall rs, catalogs isEmail normalizeEmail trim isMobilePhone isURL rs cat = cat.
Proof.
  repeat split.
  intros rs. revert cat. induction rs as [| r rs IH]; intros cat; [reflexivity |].
  simpl. rewrite <- (IH cat) at 2. f_equal.
  unfold catalog. destruct (catalog_op r); reflexivity.
Qed.

End CatalogWrites.

(** X26.  The menu of a location holds the available items of that location
    and of the category asked for, each once for each stored row, by
    category and then by title; each with the customizations stored for it;
    no item that is not available, and no item of another location. *)
Theorem menu_of_location (locationId : Z) (category : option string) (cat : Catalog.t) :
  let listing := getMenu locationId category cat in
  Permutation (map menu_row listing)
              (filter (fun m => (Catalog.Menu.locationId m =? locationId)
                                && Catalog.Menu.isAvailable m
                                && match truthy_string category with
                                   | Some c => String.eqb (Catalog.Menu.category m) c
                                   | None => true
                                   end)
                      (Catalog.menus cat))
  /\ StronglySorted (fun a b => byCategoryThenTitle a b = true) (map menu_row listing)
  /\ Forall (fun v => Catalog.Menu.locationId (menu_row v) = locationId
                      /\ Catalog.Menu.isAvailable (menu_row v) = true
                      /\ forall c, In c (menu_customizations v)
                                   <-> In c (Catalog.customizations cat)
                                       /\ Catalog.Customization.menuId c
                                          = Catalog.Menu.id (menu_row v))
            listing.
Proof.
  intros listing. subst listing. unfold getMenu. rewrite map_map. cbn [menu_row viewMenu].
  rewrite map_id. split; [| split].
  - apply Permutation_sym. apply orderBy_perm.
  - apply orderBy_sorted; [apply byCategoryThenTitle_total | apply byCategoryThenTitle_trans].
  - apply Forall_forall. intros v Hv. apply in_map_iff in Hv.
    destruct Hv as [m [Hm Hin]]. subst v. cbn [menu_row menu_customizations viewMenu].
    apply orderBy_In in Hin. apply filter_In in Hin. destruct Hin as [_ Hon].
    unfold onMenu in Hon. apply andb_true_iff in Hon. destruct Hon as [Hon _].
    apply andb_true_iff in Hon. destruct Hon as [Hloc Hav].
    split; [apply Z.eqb_eq; exact Hloc |]. split; [exact Hav |].
    intros c. unfold customizationsOfItem. rewrite filter_In, Z.eqb_eq. reflexivity.
Qed.

(** X27.  The categories of a location are the categories of its menu:
    each category of an item on the menu of the location is listed, once,
    in ascending order, and nothing else is; and the menu asked with a
    category has items exactly when the category is listed. *)
Theorem categories_of_menu (locationId : Z) (cat : Catalog.t) :
  let categories := getCategories locationId cat in
  NoDup categories
  /\ StronglySorted (fun a b => String.leb a b = true) categories
  /\ (forall c, In c categories
                <-> exists v, In v (getMenu locationId None cat)
                              /\ Catalog.Menu.category (menu_row v) = c)
  /\ (forall c, c <> EmptyString ->
        (In c categories <-> getMenu locationId (Some c) cat <> [])).
Proof.
  intros categories. subst categories. unfold getCategories.
  assert (forall c,
            In c (distinct
                    (map Catalog.Menu.category
                       (orderBy (fun a b => String.leb (Catalog.Menu.category a)
                                                       (Catalog.Menu.category b))
                                (filter (onMenu locationId None) (Catalog.menus cat)))))
            <-> exists m, In m (filter (onMenu locationId None) (Catalog.menus cat))
                          /\ Catalog.Menu.category m = c) as Hin.
  { intros c. rewrite distinct_In, in_map_iff. split.
    - intros [m [Hc Hm]]. exists m. split; [apply orderBy_In in Hm; exact Hm | exact Hc].
    - intros [m [Hm Hc]]. exists m. split; [exact Hc | apply orderBy_In; exact Hm]. }
  split; [apply distinct_NoDup |]. split; [| split].
  - apply distinct_sorted. apply StronglySorted_map.
    apply (orderBy_sorted _ (fun a b => String.leb (Catalog.Menu.category a)
                                                   (Catalog.Menu.category b))).
    + intros a b. apply String.leb_total.
    + intros a b c. apply string_leb_trans.
  - intros c. rewrite Hin. unfold getMenu. split.
    + intros [m [Hm Hc]]. exists (viewMenu cat m). split; [| exact Hc].
      apply in_map. apply orderBy_In. exact Hm.
    + intros [v [Hv Hc]]. apply in_map_iff in Hv. destruct Hv as [m [Hvm Hm]].
      subst v. exists m. split; [apply orderBy_In in Hm; exact Hm | exact Hc].
  - intros c Hne. rewrite Hin. unfold getMenu. split.
    + intros [m [Hm Hc]] Hnil.
      assert (In (viewMenu cat m)
                 (map (viewMenu cat)
                      (orderBy byCategoryThenTitle
                               (filter (onMenu locationId (Some c)) (Catalog.menus cat)))))
        as Hv.
      { apply in_map. apply orderBy_In. apply filter_In in Hm. destruct Hm as [Hm Hon].
        apply filter_In. split; [exact Hm |]. revert Hon. unfold onMenu.
        destruct c; [congruence |]. cbn [truthy_string]. rewrite Hc, String.eqb_refl.
        rewrite !andb_true_r. trivial. }
      rewrite Hnil in Hv. destruct Hv.
    + intros Hnil.
      destruct (map (viewMenu cat)
                    (orderBy byCategoryThenTitle
                             (filter (onMenu locationId (Some c)) (Catalog.menus cat))))
        as [| v rest] eqn:E; [congruence |].
      assert (In v (v :: rest)) as Hv by (left; reflexivity).
      rewrite <- E in Hv. apply in_map_iff in Hv. destruct Hv as [m [_ Hm]].
      apply orderBy_In in Hm. apply filter_In in Hm. destruct Hm as [Hm Hon].
      exists m. revert Hon. unfold onMenu. destruct c; [congruence |].
      cbn [truthy_string]. intros Hon.
      apply andb_true_iff in Hon. destruct Hon as [Hon Hc].
      split; [| apply String.eqb_eq; exact Hc].
      apply filter_In. split; [exact Hm |]. rewrite Hon. reflexivity.
Qed.

Section CatalogReads.

Variable JWT_SECRET : option string.
Variable jwt_verify : string -> string -> option AuthUser.
Variable Date_parse : string -> option Z.

(** X28.  The locations a token holder can read are the active ones.  The
    list holds each active location once, oldest first, each with every menu
    row of the location, available or not; and a location is answered by id
    exactly when its id is in the list, the id of a location that is not
    active being answered Location not found (404) like an id that no
    location has. *)
Theorem locations_read_active_only (authorization : option string) (caller : AuthUser)
    (cat : Catalog.t) :
  authenticateToken JWT_SECRET jwt_verify authorization = Ok caller ->
  exists rows,
    getLocations JWT_SECRET jwt_verify authorization cat
    = Replied (map (viewLocation true cat) rows)
    /\ Permutation rows (filter Catalog.Location.isActive (Catalog.locations cat))
    /\ StronglySorted (fun a b => Catalog.Location.createdAt a <= Catalog.Location.createdAt b)
                      rows
    /\ Forall (fun l => forall m, In m (location_menu (viewLocation true cat l))
                                  <-> In m (Catalog.menus cat)
                                      /\ Catalog.Menu.locationId m = Catalog.Location.id l)
              rows
    /\ forall id,
         (In id (map Catalog.Location.id rows) ->
          exists l, In l rows /\ Catalog.Location.id l = id
                    /\ getLocation JWT_SECRET jwt_verify authorization id cat
                       = Replied (viewLocation false cat l))
         /\ (~ In id (map Catalog.Location.id rows) ->
             getLocation JWT_SECRET jwt_verify authorization id cat
             = Failed (createError "Location not found" 404)).
Proof.
  intros Hauth.
  set (le := fun a b => Catalog.Location.createdAt a <=? Catalog.Location.createdAt b).
  exists (orderBy le (filter Catalog.Location.isActive (Catalog.locations cat))).
  split; [| split; [| split; [| split]]].
  - unfold getLocations. rewrite authenticated, Hauth. reflexivity.
  - apply Permutation_sym. apply orderBy_perm.
  - assert (StronglySorted (fun a b => le a b = true)
              (orderBy le (filter Catalog.Location.isActive (Catalog.locations cat))))
      as Hs.
    { apply orderBy_sorted; unfold le.
      - intros a b. rewrite !Z.leb_le. lia.
      - intros a b c. rewrite !Z.leb_le. lia. }
    revert Hs. generalize (orderBy le (filter Catalog.Location.isActive
                                               (Catalog.locations cat))).
    induction 1 as [| x l Hl IH Hx]; constructor; [exact IH |].
    eapply Forall_impl; [| exact Hx]. unfold le. intros a Ha. apply Z.leb_le. exact Ha.
  - apply Forall_forall. intros l _ m. cbn [location_menu viewLocation].
    unfold menuOf. rewrite filter_In, Z.eqb_eq. reflexivity.
  - intros id. unfold getLocation. rewrite authenticated, Hauth.
    destruct (find (fun l => (Catalog.Location.id l =? id) && Catalog.Location.isActive l)
                   (Catalog.locations cat)) as [l |] eqn:E.
    + apply find_some in E. destruct E as [Hl Hm].
      apply andb_true_iff in Hm. destruct Hm as [Hid Hact]. apply Z.eqb_eq in Hid.
      assert (In l (orderBy le (filter Catalog.Location.isActive (Catalog.locations cat))))
        as Hrow by (apply orderBy_In; apply filter_In; split; assumption).
      split.
      * intros _. exists l. repeat split; assumption.
      * intros Hnot. exfalso. apply Hnot. rewrite <- Hid. apply in_map. exact Hrow.
    + split; [| reflexivity].
      intros Hin. exfalso. apply in_map_iff in Hin. destruct Hin as [l [Hid Hrow]].
      apply orderBy_In in Hrow. apply filter_In in Hrow. destruct Hrow as [Hl Hact].
      apply (find_none _ _ E) in Hl. rewrite Hid, Z.eqb_refl, Hact in Hl. discriminate.
Qed.

(** X29.  The analytics of a location.  An ADMIN who sends two dates that
    parse is answered the rows of that location dated from the first to the
    second, both included, each once, oldest first.  A caller who is not an
    ADMIN is answered InsufficientPermissions (403) before the dates are
    looked at, and an ADMIN who leaves a date out is answered 400. *)
Theorem analytics_of_location (authorization : option string) (caller : AuthUser)
    (locationId : Z) (startDate endDate : option string) (rows : list Analytics.t) :
  authenticateToken JWT_SECRET jwt_verify authorization = Ok caller ->
  let out := getLocationAnalytics JWT_SECRET jwt_verify Date_parse authorization locationId
                                  startDate endDate rows in
  (auth_role caller <> UserRole.ADMIN ->
   out = Failed (Raised InsufficientPermissions))
  /\ (auth_role caller = UserRole.ADMIN ->
      (truthy_string startDate = None \/ truthy_string endDate = None ->
       out = Failed (createError "Start date and end date are required" 400))
      /\ forall s e gte lte,
           truthy_string startDate = Some s -> truthy_string endDate = Some e ->
           Date_parse s = Some gte -> Date_parse e = Some lte ->
           exists found,
             out = Replied found
             /\ Permutation found
                  (filter (fun a => (Analytics.locationId a =? locationId)
                                    && (gte <=? Analytics.date a)
                                    && (Analytics.date a <=? lte)) rows)
             /\ StronglySorted (fun a b => Analytics.date a <= Analytics.date b) found
             /\ Forall (fun a => Analytics.locationId a = locationId
                                 /\ gte <= Analytics.date a <= lte) found).
Proof.
  intros Hauth out. subst out. unfold getLocationAnalytics.
  assert (next [useAuthenticateToken JWT_SECRET jwt_verify;
                useAuthenticateToken JWT_SECRET jwt_verify; useRequireAdmin]
               (incoming authorization)
          = if String.eqb (auth_role caller) UserRole.ADMIN
            then Ok (mkAuthRequest authorization (Some caller))
            else Err InsufficientPermissions) as Hchain.
  { unfold next, useAuthenticateToken, useRequireAdmin, useRequireRole, incoming, requireRole,
      includes.
    cbn [header_authorization bind]. rewrite Hauth. cbn [bind header_authorization req_user].
    rewrite Hauth. cbn [bind req_user existsb]. rewrite orb_false_r.
    destruct (String.eqb (auth_role caller) UserRole.ADMIN); reflexivity. }
  rewrite Hchain. split.
  - intros Hrole. apply String.eqb_neq in Hrole. rewrite Hrole. reflexivity.
  - intros Hrole. apply String.eqb_eq in Hrole. rewrite Hrole. split.
    + intros [H | H]; rewrite H; [reflexivity |].
      destruct (truthy_string startDate); reflexivity.
    + intros s e gte lte Hs He Hgte Hlte. rewrite Hs, He, Hgte, Hlte.
      set (le := fun a b => Analytics.date a <=? Analytics.date b).
      set (inWindow := fun a => (Analytics.locationId a =? locationId)
                                && (gte <=? Analytics.date a)
                                && (Analytics.date a <=? lte)).
      exists (orderBy le (filter inWindow rows)).
      split; [reflexivity |]. split; [apply Permutation_sym; apply orderBy_perm |]. split.
      * assert (StronglySorted (fun a b => le a b = true) (orderBy le (filter inWindow rows)))
          as Hsorted.
        { apply orderBy_sorted; unfold le.
          - intros a b. rewrite !Z.leb_le. lia.
          - intros a b c. rewrite !Z.leb_le. lia. }
        revert Hsorted. generalize (orderBy le (filter inWindow rows)).
        induction 1 as [| x l Hl IH Hx]; constructor; [exact IH |].
        eapply Forall_impl; [| exact Hx]. unfold le. intros a Ha. apply Z.leb_le. exact Ha.
      * apply Forall_forall. intros a Ha. apply orderBy_In in Ha. apply filter_In in Ha.
        destruct Ha as [_ Ha]. unfold inWindow in Ha.
        apply andb_true_iff in Ha. destruct Ha as [Ha H3].
        apply andb_true_iff in Ha. destruct Ha as [H1 H2].
        apply Z.eqb_eq in H1. apply Z.leb_le in H2. apply Z.leb_le in H3. lia.
Qed.

End CatalogReads.

(** ** The settling order of a creation *)



Section Settling.

Variable JWT_SECRET : option string.
Variable jwt_verify : string -> string -> option AuthUser.


End Settling.

(** ** The properties of the other routes on the samples *)

(** A bare token, sent without a scheme: refused before any verification. *)
Lemma token_required_without_space_witness :
  hasSpace "ann" = false
  /\ authenticateToken Sample.secret Sample.verify (Some "ann"%string)
     = Err AccessTokenRequired.
Proof.
  split; [reflexivity |].
  exact (proj1 (token_required_without_space Sample.secret Sample.verify "ann" eq_refl)).
Defined.

(** Ann's token under the scheme Basic is accepted as under Bearer. *)
Lemma scheme_ignored_witness :
  hasSpace "Basic" = false
  /\ authenticateToken Sample.secret Sample.verify (Some "Basic ann"%string) = Ok Sample.ann.
Proof.
  split; [reflexivity |].
  destruct (scheme_ignored Sample.secret Sample.verify "Basic" "ann" eq_refl) as [_ H].
  exact (H eq_refl ltac:(discriminate)).
Defined.

(** Ann lists the orders: she is shown her two, not Bob's, and the total
    is 2. *)
Lemma customer_list_confined_witness :
  authenticateToken Sample.secret Sample.verify Sample.asAnn = Ok Sample.ann
  /\ auth_role Sample.ann = UserRole.CUSTOMER
  /\ exists page,
       response (getOrders Sample.secret Sample.verify Sample.asAnn
                           (OrdersQuery.mk None None None None) Sample.db)
       = Ok (page, 2)
       /\ Forall (fun h => In (order h)
                              (filter (fun o => Order.userId o =? 1) (orders Sample.db)))
                 page.
Proof.
  split; [reflexivity |]. split; [reflexivity |].
  eexists. split; [reflexivity |].
  exact (proj1 (customer_list_confined Sample.secret Sample.verify Sample.asAnn Sample.ann
                  (OrdersQuery.mk None None None None) Sample.db _ 2
                  eq_refl eq_refl eq_refl)).
Defined.

(** Ann fetches Bob's order 3: OrderNotFound. *)
Lemma customer_fetch_own_only_witness :
  authenticateToken Sample.secret Sample.verify Sample.asAnn = Ok Sample.ann
  /\ auth_role Sample.ann = UserRole.CUSTOMER
  /\ (exists o, findOrder Sample.db (byId 3) = Some o /\ Order.userId o = 3)
  /\ getOrder Sample.secret Sample.verify Sample.asAnn 3 Sample.db
     = (Err OrderNotFound, Sample.db, []).
Proof.
  split; [reflexivity |]. split; [reflexivity |].
  split; [eexists; split; reflexivity |].
  destruct (customer_fetch_own_only Sample.secret Sample.verify Sample.asAnn Sample.ann 3
              Sample.db eq_refl eq_refl) as [_ H].
  apply H. intros o Ho Hid.
  simpl in Ho. destruct Ho as [Ho | [Ho | [Ho | []]]]; subst o; simpl in *;
    try discriminate; lia.
Defined.

(** Kit lists the orders: the three orders, the newest first. *)
Lemma list_newest_first_witness :
  exists page,
    response (getOrders Sample.secret Sample.verify Sample.asKit
                        (OrdersQuery.mk None None None None) Sample.db)
    = Ok (page, 3)
    /\ map (fun h => Order.id (order h)) page = [3; 2; 1]
    /\ StronglySorted (fun a b => notOlder (order a) (order b)) page.
Proof.
  eexists. split; [reflexivity |]. split; [reflexivity |].
  exact (list_newest_first Sample.secret Sample.verify Sample.asKit
           (OrdersQuery.mk None None None None) Sample.db _ 3 eq_refl).
Defined.

(** Kit lists the pending orders of location 1: order 2 alone, of three
    stored. *)
Lemma list_filters_witness :
  authenticateToken Sample.secret Sample.verify Sample.asKit = Ok Sample.kit
  /\ exists page,
       response (getOrders Sample.secret Sample.verify Sample.asKit
                           (OrdersQuery.mk (Some OrderStatus.PENDING) (Some 1) None None)
                           Sample.db)
       = Ok (page, 1)
       /\ map (fun h => Order.id (order h)) page = [2]
       /\ Forall (fun h => Order.status (order h) = OrderStatus.PENDING) page.
Proof.
  split; [reflexivity |]. eexists. split; [reflexivity |]. split; [reflexivity |].
  destruct (list_filters Sample.secret Sample.verify Sample.asKit Sample.kit
              (OrdersQuery.mk (Some OrderStatus.PENDING) (Some 1) None None) Sample.db _ 1
              eq_refl eq_refl) as [Hall _].
  eapply Forall_impl; [| exact Hall]. intros h [_ [Hs _]]. apply Hs. reflexivity.
Defined.

(** Kit reads the three orders two a page: two pages, a full one and a
    last one of one order, and nothing on page 3. *)
Lemma pages_tile_witness :
  authenticateToken Sample.secret Sample.verify Sample.asKit = Ok Sample.kit
  /\ pages 3 2 = Some 2
  /\ map (fun p => map (fun h => Order.id (order h))
                       (listed (getOrders Sample.secret Sample.verify Sample.asKit
                                          (OrdersQuery.mk None None (Some (Z.of_nat p)) (Some 2))
                                          Sample.db)))
         [1; 2; 3]%nat
     = [[3; 2]; [1]; []]
  /\ exists whole,
       response (getOrders Sample.secret Sample.verify Sample.asKit
                           (OrdersQuery.mk None None (Some 1) (Some 3)) Sample.db)
       = Ok (whole, 3)
       /\ List.concat
            (map (fun p => listed (getOrders Sample.secret Sample.verify Sample.asKit
                                             (OrdersQuery.mk None None (Some (Z.of_nat p))
                                                             (Some 2))
                                             Sample.db))
                 (seq 1 2))
          = whole.
Proof.
  split; [reflexivity |]. split; [reflexivity |]. split; [reflexivity |].
  eexists. split; [reflexivity |].
  destruct (pages_tile Sample.secret Sample.verify Sample.asKit Sample.kit None None
              2 3 3 Sample.db _ eq_refl ltac:(lia) ltac:(lia) ltac:(lia) eq_refl)
    as [k [Hk [Hconcat _]]].
  inversion Hk; subst k. exact Hconcat.
Defined.

(** Ann's cart of two burgers with extra cheese and three fries: one order
    (4), two order lines and one customization line are appended. *)
Lemma creation_only_appends_witness :
  exists completeOrder o lines rows,
    response (createOrder Sample.secret Sample.verify Sample.inOrder 100 Sample.asAnn
                          Sample.largerCart Sample.db)
    = Ok completeOrder
    /\ orders (store (createOrder Sample.secret Sample.verify Sample.inOrder 100 Sample.asAnn
                                  Sample.largerCart Sample.db))
       = orders Sample.db ++ [o]
    /\ Order.id o = 4
    /\ orderItems (store (createOrder Sample.secret Sample.verify Sample.inOrder 100
                                      Sample.asAnn Sample.largerCart Sample.db))
       = orderItems Sample.db ++ lines
    /\ List.length lines = 2%nat
    /\ orderItemCustomizations
         (store (createOrder Sample.secret Sample.verify Sample.inOrder 100 Sample.asAnn
                             Sample.largerCart Sample.db))
       = orderItemCustomizations Sample.db ++ rows.
Proof.
  eexists.
  destruct (creation_only_appends Sample.secret Sample.verify Sample.inOrder 100 Sample.asAnn
              Sample.largerCart Sample.db _ eq_refl)
    as [o [lines [rows [Ho [_ [Hl [Hn [_ [Hr _]]]]]]]]].
  exists o, lines, rows. split; [reflexivity |]. split; [exact Ho |]. split.
  - apply app_inj_tail in Ho. destruct Ho as [_ Ho]. rewrite <- Ho. reflexivity.
  - repeat split; assumption.
Defined.

(** Ann fetches the order she just created. *)
Lemma create_then_fetch_witness :
  exists created,
    response (createOrder Sample.secret Sample.verify Sample.inOrder 100 Sample.asAnn
                          Sample.largerCart Sample.db)
    = Ok (Some created)
    /\ Order.id (order created) = 4
    /\ response (getOrder Sample.secret Sample.verify Sample.asAnn 4
                          (store (createOrder Sample.secret Sample.verify Sample.inOrder 100
                                              Sample.asAnn Sample.largerCart Sample.db)))
       = Ok created.
Proof.
  destruct (create_then_fetch Sample.secret Sample.verify Sample.inOrder 100 Sample.asAnn
              Sample.largerCart Sample.db _ eq_refl) as [created [Hc Hfetch]].
  exists created. split; [rewrite <- Hc; reflexivity |].
  assert (Order.id (order created) = 4) as Hid.
  { vm_compute in Hc. inversion Hc. reflexivity. }
  split; [exact Hid |]. rewrite <- Hid, Hfetch. reflexivity.
Defined.

(** A creation by Ann, a cancel of it by Bob (refused), a set-status of it
    by Kit and a cancel of order 2 by Ann: the foreign keys hold on the store
    they leave. *)
Lemma order_requests_keep_foreign_keys_witness :
  referential_integrity Sample.db = true
  /\ referential_integrity
       (serveAll Sample.secret Sample.verify
          [ mkOrderRequest 100 Sample.asAnn (OpCreate Sample.inOrder Sample.largerCart);
            mkOrderRequest 101 Sample.asBob (OpStored (OpCancel 4));
            mkOrderRequest 102 Sample.asKit (OpStored (OpSetStatus 4 OrderStatus.COMPLETED));
            mkOrderRequest 103 Sample.asAnn (OpStored (OpCancel 2)) ]
          Sample.db)
     = true.
Proof.
  split; [reflexivity |].
  exact (order_requests_keep_foreign_keys Sample.secret Sample.verify _ Sample.db eq_refl).
Defined.

(** The same requests: every stored status is one of the four. *)
Lemma order_requests_keep_statuses_known_witness :
  statusesKnown Sample.db = true
  /\ map Order.status
         (orders (serveAll Sample.secret Sample.verify
                    [ mkOrderRequest 100 Sample.asAnn
                        (OpCreate Sample.inOrder Sample.largerCart);
                      mkOrderRequest 101 Sample.asBob (OpStored (OpCancel 4));
                      mkOrderRequest 102 Sample.asKit
                        (OpStored (OpSetStatus 4 OrderStatus.COMPLETED));
                      mkOrderRequest 103 Sample.asAnn (OpStored (OpCancel 2)) ]
                    Sample.db))
     = [OrderStatus.COMPLETED; OrderStatus.CANCELLED; OrderStatus.IN_PROGRESS;
        OrderStatus.COMPLETED]
  /\ statusesKnown
       (serveAll Sample.secret Sample.verify
          [ mkOrderRequest 100 Sample.asAnn (OpCreate Sample.inOrder Sample.largerCart);
            mkOrderRequest 101 Sample.asBob (OpStored (OpCancel 4));
            mkOrderRequest 102 Sample.asKit (OpStored (OpSetStatus 4 OrderStatus.COMPLETED));
            mkOrderRequest 103 Sample.asAnn (OpStored (OpCancel 2)) ]
          Sample.db)
     = true.
Proof.
  split; [reflexivity |]. split; [reflexivity |].
  exact (order_requests_keep_statuses_known Sample.secret Sample.verify _ Sample.db eq_refl).
Defined.

Lemma sample_order_ids_unique : orderIdsUnique Sample.db.
Proof.
  unfold orderIdsUnique. simpl.
  repeat constructor; simpl; intros H; repeat (destruct H as [H | H]; try discriminate H);
    exact H.
Qed.

(** The same requests: the order ids are 1, 2, 3 and the new 4. *)
Lemma order_requests_keep_ids_unique_witness :
  orderIdsUnique Sample.db
  /\ map Order.id
         (orders (serveAll Sample.secret Sample.verify
                    [ mkOrderRequest 100 Sample.asAnn
                        (OpCreate Sample.inOrder Sample.largerCart);
                      mkOrderRequest 101 Sample.asBob (OpStored (OpCancel 4));
                      mkOrderRequest 102 Sample.asKit
                        (OpStored (OpSetStatus 4 OrderStatus.COMPLETED));
                      mkOrderRequest 103 Sample.asAnn (OpStored (OpCancel 2)) ]
                    Sample.db))
     = [1; 2; 3; 4]
  /\ orderIdsUnique
       (serveAll Sample.secret Sample.verify
          [ mkOrderRequest 100 Sample.asAnn (OpCreate Sample.inOrder Sample.largerCart);
            mkOrderRequest 101 Sample.asBob (OpStored (OpCancel 4));
            mkOrderRequest 102 Sample.asKit (OpStored (OpSetStatus 4 OrderStatus.COMPLETED));
            mkOrderRequest 103 Sample.asAnn (OpStored (OpCancel 2)) ]
          Sample.db).
Proof.
  split; [exact sample_order_ids_unique |]. split; [reflexivity |].
  exact (proj1 (order_requests_keep_ids_unique Sample.secret Sample.verify _ Sample.db
                  sample_order_ids_unique)).
Defined.

(** Eve registers with no JWT_SECRET set: she is answered 500, and
    registering again is answered UserAlreadyExists. *)
Lemma register_twice_witness :
  validRegisterBody Sample.anyEmail Fixture.eve = true
  /\ fst (register None Sample.sign Sample.hash Sample.anyEmail Sample.sameString
                    Sample.sameString 100 None Fixture.eve Sample.db)
     = Err JwtSecretNotConfigured
  /\ fst (register None Sample.sign Sample.hash Sample.anyEmail Sample.sameString
                    Sample.sameString 101 None Fixture.eve
                    (snd (register None Sample.sign Sample.hash Sample.anyEmail
                                   Sample.sameString Sample.sameString 100 None Fixture.eve
                                   Sample.db)))
     = Err UserAlreadyExists.
Proof.
  split; [reflexivity |]. split; [reflexivity |].
  rewrite (register_twice None Sample.sign Sample.hash Sample.anyEmail Sample.sameString
             Sample.sameString 100 101 None None Fixture.eve Fixture.eve Sample.db
             eq_refl eq_refl eq_refl).
  reflexivity.
Defined.

Lemma sample_emails_unique : emailsUnique Sample.db.
Proof.
  unfold emailsUnique. simpl.
  repeat constructor; simpl; intros H; repeat (destruct H as [H | H]; try discriminate H);
    exact H.
Qed.

(** Eve registers twice, Ann renames herself and changes her password:
    five users, five emails. *)
Lemma accounts_keep_emails_unique_witness :
  emailsUnique Sample.db
  /\ emailsUnique
       (accounts Sample.secret Sample.verify Sample.sign Sample.hash Fixture.compare
                 Sample.anyEmail Sample.sameString Sample.sameString
                 [ mkAccountRequest 100 None (Register Fixture.eve);
                   mkAccountRequest 101 None (Register Fixture.eve);
                   mkAccountRequest 102 Sample.asAnn
                     (UpdateProfile (ProfileBody.mk (Some "Ann"%string) None None));
                   mkAccountRequest 103 Sample.asAnn
                     (ChangePassword (PasswordBody.mk "pw" "s3cret!")) ]
                 Sample.db)
  /\ List.length
       (users (accounts Sample.secret Sample.verify Sample.sign Sample.hash Fixture.compare
                        Sample.anyEmail Sample.sameString Sample.sameString
                        [ mkAccountRequest 100 None (Register Fixture.eve);
                          mkAccountRequest 101 None (Register Fixture.eve);
                          mkAccountRequest 102 Sample.asAnn
                            (UpdateProfile (ProfileBody.mk (Some "Ann"%string) None None));
                          mkAccountRequest 103 Sample.asAnn
                            (ChangePassword (PasswordBody.mk "pw" "s3cret!")) ]
                        Sample.db))
     = 5%nat.
Proof.
  split; [exact sample_emails_unique |]. split; [| reflexivity].
  exact (accounts_keep_emails_unique Sample.secret Sample.verify Sample.sign Sample.hash
           Fixture.compare Sample.anyEmail Sample.sameString Sample.sameString _ Sample.db
           sample_emails_unique).
Defined.


(** Ann's profile: her two orders, the pending one first. *)
Lemma profile_recent_orders_witness :
  exists view recent,
    getProfile Sample.secret Sample.verify Sample.asAnn Sample.db = Replied (view, recent)
    /\ view_id view = 1
    /\ map profile_order_id recent = [2; 1]
    /\ (List.length recent <= 10)%nat.
Proof.
  eexists. eexists. split; [reflexivity |]. split; [reflexivity |].
  split; [reflexivity |].
  destruct (profile_recent_orders Sample.secret Sample.verify Sample.asAnn Sample.db _ _
              eq_refl) as [os [_ [Hlen _]]].
  exact Hlen.
Defined.

(** Ann changes her password from pw to s3cret!: she logs in with the new
    one, and no longer with the old one. *)
Lemma change_password_then_login_witness :
  emailsUnique Sample.db
  /\ (exists db',
        changePassword Sample.secret Sample.verify Sample.hash Fixture.compare 100
                       Sample.asAnn (PasswordBody.mk "pw" "s3cret!") Sample.db
        = (Replied tt, db')
        /\ replied (login Sample.secret Sample.sign Fixture.compare Sample.anyEmail
                          Sample.sameString (LoginBody.mk "ann@example.com" "s3cret!") db')
           = true
        /\ login Sample.secret Sample.sign Fixture.compare Sample.anyEmail
                 Sample.sameString (LoginBody.mk "ann@example.com" "pw") db'
           = Failed (createError "Invalid email or password" 401)).
Proof.
  split; [exact sample_emails_unique |].
  eexists. split; [reflexivity |].
  split.
  - destruct (change_password_then_login Sample.secret Sample.verify Sample.sign Sample.hash
                Fixture.compare Sample.anyEmail Sample.sameString 100 Sample.asAnn Sample.ann
                (PasswordBody.mk "pw" "s3cret!") Sample.db _ (Sample.userRow Sample.ann)
                (LoginBody.mk "ann@example.com" "s3cret!")
                sample_emails_unique eq_refl eq_refl eq_refl eq_refl eq_refl eq_refl)
      as [secret [_ H]].
    rewrite H. reflexivity.
  - reflexivity.
Defined.

(** Ada's token verifies and the sample store has no row for her. *)
Lemma token_of_unknown_user_witness :
  authenticateToken Sample.secret Fixture.verify Fixture.asAda = Ok Fixture.ada
  /\ findUserById Sample.db 5 = None
  /\ getProfile Sample.secret Fixture.verify Fixture.asAda Sample.db
     = Failed (createError "User not found" 404)
  /\ updateProfile Sample.secret Fixture.verify Sample.sameString 100 Fixture.asAda
                   (ProfileBody.mk (Some "Ada"%string) None None) Sample.db
     = (Failed (Raised PrismaRecordNotFound), Sample.db).
Proof.
  split; [reflexivity |]. split; [reflexivity |].
  destruct (token_of_unknown_user Sample.secret Fixture.verify Sample.hash Fixture.compare
              Sample.sameString 100 Fixture.asAda Fixture.ada
              (ProfileBody.mk (Some "Ada"%string) None None)
              (PasswordBody.mk "pw" "s3cret!") Sample.db eq_refl eq_refl eq_refl
              ltac:(simpl; lia))
    as [Hp [_ [Hu _]]].
  split; assumption.
Defined.



(** Ann's token opens a socket as it authenticates a request; a token
    that does not verify does neither. *)
Lemma handshake_as_bearer_witness :
  hasSpace "ann" = false
  /\ connect Sample.secret Sample.verify (Some "ann"%string)
     = Some (mkSocket Sample.ann [user_room 1])
  /\ authenticateToken Sample.secret Sample.verify (Some "Bearer ann"%string) = Ok Sample.ann.
Proof.
  split; [reflexivity |].
  pose proof (handshake_as_bearer Sample.secret Sample.verify "ann" eq_refl
                ltac:(discriminate)) as H.
  split; [rewrite H; reflexivity | reflexivity].
Defined.

(** On the sample catalogue: an ADMIN who creates a location is answered
    401; the menu of Downtown is the burger, the wrap and the fries, without
    the soup; its categories are Mains and Sides. *)
Example scenario_catalogue :
  fst (createLocation Sample.anyEmail Sample.sameString Sample.sameString Fixture.noPhone
                      100 Fixture.asAda (LocationBody.mk "Uptown" "4 High St" None None)
                      Fixture.catalogue)
  = Failed (Raised AuthenticationRequired)
  /\ map (fun v => Catalog.Menu.title (menu_row v)) (getMenu 1 None Fixture.catalogue)
     = ["Burger"; "Wrap"; "Fries"]%string
  /\ map (fun v => Catalog.Menu.title (menu_row v))
         (getMenu 1 (Some "Mains"%string) Fixture.catalogue)
     = ["Burger"; "Wrap"]%string
  /\ getCategories 1 Fixture.catalogue = ["Mains"; "Sides"]%string
  /\ replied (getMenuItem 3 Fixture.catalogue) = true.
Proof. repeat split; reflexivity. Qed.

(** Kit reads the locations of the sample catalogue: Harbour, the older,
    then Downtown; location 3, which is not active, is not found. *)
Lemma locations_read_active_only_witness :
  authenticateToken Sample.secret Sample.verify Sample.asKit = Ok Sample.kit
  /\ (exists views,
        getLocations Sample.secret Sample.verify Sample.asKit Fixture.catalogue
        = Replied views
        /\ map location_id views = [2; 1])
  /\ getLocation Sample.secret Sample.verify Sample.asKit 3 Fixture.catalogue
     = Failed (createError "Location not found" 404)
  /\ exists rows,
       getLocations Sample.secret Sample.verify Sample.asKit Fixture.catalogue
       = Replied (map (viewLocation true Fixture.catalogue) rows)
       /\ Permutation rows
            (filter Catalog.Location.isActive (Catalog.locations Fixture.catalogue)).
Proof.
  split; [reflexivity |]. split; [eexists; split; reflexivity |].
  split; [reflexivity |].
  destruct (locations_read_active_only Sample.secret Sample.verify Sample.asKit Sample.kit
              Fixture.catalogue eq_refl)
    as [rows [Hlist [Hperm _]]].
  exists rows. split; assumption.
Defined.

(** Ada reads the analytics of location 1 for January: the rows dated 100
    and 200, in that order; Kit is refused. *)
Lemma analytics_of_location_witness :
  authenticateToken Sample.secret Fixture.verify Fixture.asAda = Ok Fixture.ada
  /\ (exists found,
        getLocationAnalytics Sample.secret Fixture.verify Fixture.parseDate Fixture.asAda 1
          (Some "2025-01-01"%string) (Some "2025-01-31"%string) Fixture.analytics
        = Replied found
        /\ map Analytics.id found = [3; 1])
  /\ getLocationAnalytics Sample.secret Fixture.verify Fixture.parseDate Sample.asKit 1
       (Some "2025-01-01"%string) (Some "2025-01-31"%string) Fixture.analytics
     = Failed (Raised InsufficientPermissions).
Proof.
  split; [reflexivity |]. split; [eexists; split; reflexivity |].
  destruct (analytics_of_location Sample.secret Fixture.verify Fixture.parseDate Sample.asKit
              Sample.kit 1 (Some "2025-01-01"%string) (Some "2025-01-31"%string)
              Fixture.analytics eq_refl)
    as [Hrefused _].
  apply Hrefused. discriminate.
Defined.

